(** * Passport vault: storage layer, expiration scheduler and people routes

    A shallow embedding of [server/storage.ts] and [server/routes.ts].
    The relational store is a record of tables (lists of rows), handlers are
    computations in a state-and-exception monad over that store, and every
    call that leaves the process (a SQL statement, a file-system call, the
    QR renderer) consults a fault plan that says whether it throws. *)

From Stdlib Require Import ZArith String Ascii List Sorting.Sorted.
From stdpp Require Import base tactics option list strings gmap sorting pretty.

Local Open Scope string_scope.
Local Open Scope Z_scope.

(** ** JavaScript values *)

(** A JS number as far as this code base needs it: an integer, or [None]
    for [NaN] (what [Number] returns on a missing or non-numeric field). *)
Definition jsnum := option Z.

Inductive jsval :=
| VUndefined
| VNull
| VBool (b : bool)
| VNum (n : jsnum)
| VStr (s : string)
| VDate (t : Z).

(** An [Error] object; only [error.message] is ever observed. *)
Record exn := Error { message : string }.

Inductive outcome (A : Type) :=
| Returned (a : A)
| Thrown (e : exn).
Arguments Returned {A} a.
Arguments Thrown {A} e.

(** [String.prototype.includes]. *)
Fixpoint includes (needle hay : string) : bool :=
  String.prefix needle hay ||
  match hay with
  | EmptyString => false
  | String _ rest => includes needle rest
  end.

(** Truthiness of a nullable text column, as tested by [if (person.photoUrl)]. *)
Definition truthy (s : option string) : bool :=
  match s with
  | Some (String _ _) => true
  | _ => false
  end.

Definition dquote : string := String (ascii_of_nat 34) EmptyString.

(** ** Rows of the four tables

    The table declarations ([@shared/schema]) are not among the sources.
    The columns are the properties the code reads and writes on the rows;
    timestamps are milliseconds since the epoch, a nullable text column is
    an [option string]. *)

Module User.
Record t := mk {
  id : string;
  email : option string;
  firstName : option string;
  lastName : option string;
  profileImageUrl : option string;
  isMainAdmin : bool;
  isActive : bool;
  createdAt : Z;
  updatedAt : Z }.
End User.

Module Group.
Record t := mk {
  id : Z;
  name : string;
  createdBy : string;
  createdAt : Z;
  updatedAt : Z }.
End Group.

Module Person.
Record t := mk {
  id : Z;
  publicId : string;
  fullName : string;
  birthDate : string;
  passportNumber : string;
  expirationDate : string;
  notes : option string;
  groupId : Z;
  status : bool;
  photoUrl : option string;
  qrCodeUrl : option string;
  createdBy : string;
  createdAt : Z;
  updatedAt : Z }.
End Person.

Module ActivityLog.
Record t := mk {
  id : Z;
  action : string;
  entityType : string;
  entityId : string;
  performedBy : string;
  details : option (list (string * jsval));
  timestamp : Z }.
End ActivityLog.

(** ** The world a handler runs in *)

Inductive console_line :=
| console_log (text : string)
| console_error (text : string) (error : exn).

(** Modelled from the spec: the record store of [@shared/schema] and
    [./db], which are not among the sources, as four independent collections
    of rows (users, groups, people, activity log) with serial ids for people
    and log entries.  No foreign key ties a person to its group or a log
    entry to its performer: the spec's data model names none.  Next to the
    tables the world holds the files under the uploads directory and what
    was written to the console. *)
Record World := mkWorld {
  users : list User.t;
  groups : list Group.t;
  people : list Person.t;
  activityLogs : list ActivityLog.t;
  files : gset string;
  console : list console_line;
  people_id_seq : Z;
  activity_logs_id_seq : Z }.

Definition with_users (f : list User.t → list User.t) (w : World) : World :=
  mkWorld (f (users w)) (groups w) (people w) (activityLogs w) (files w)
          (console w) (people_id_seq w) (activity_logs_id_seq w).
Definition with_groups (f : list Group.t → list Group.t) (w : World) : World :=
  mkWorld (users w) (f (groups w)) (people w) (activityLogs w) (files w)
          (console w) (people_id_seq w) (activity_logs_id_seq w).
Definition with_people (f : list Person.t → list Person.t) (w : World) : World :=
  mkWorld (users w) (groups w) (f (people w)) (activityLogs w) (files w)
          (console w) (people_id_seq w) (activity_logs_id_seq w).
Definition with_files (f : gset string → gset string) (w : World) : World :=
  mkWorld (users w) (groups w) (people w) (activityLogs w) (f (files w))
          (console w) (people_id_seq w) (activity_logs_id_seq w).
Definition print (line : console_line) (w : World) : World :=
  mkWorld (users w) (groups w) (people w) (activityLogs w) (files w)
          (console w ++ [line]) (people_id_seq w) (activity_logs_id_seq w).
Definition insert_person_row (row : Person.t) (w : World) : World :=
  mkWorld (users w) (groups w) (people w ++ [row]) (activityLogs w) (files w)
          (console w) (people_id_seq w + 1) (activity_logs_id_seq w).
Definition insert_log_row (row : ActivityLog.t) (w : World) : World :=
  mkWorld (users w) (groups w) (people w) (activityLogs w ++ [row]) (files w)
          (console w) (people_id_seq w) (activity_logs_id_seq w + 1).

(** Calls that leave the process and may therefore throw: one per storage
    method (each issues a single SQL statement), the QR renderer and the
    file-system removal. *)
Inductive ext_call :=
| call_getUser (id : string)
| call_upsertUser (id : string)
| call_getGroup (id : jsnum)
| call_deleteGroup (id : jsnum)
| call_getAllPeople
| call_getPerson (id : jsnum)
| call_createPerson (publicId : string)
| call_updatePerson (id : jsnum)
| call_deletePerson (id : jsnum)
| call_markPersonExpired (id : Z)
| call_createActivityLog (entityType entityId : string)
| call_getAllActivityLogs
| call_QRCode_toFile (path url : string)
| call_fs_unlinkSync (path : string).

(** What one invocation (a request, or one firing of the cron job) finds
    outside the process: which calls throw, and with which message; what the
    wall clock reads ([new Date()], and the database's [now()]; one
    invocation is short enough for the clock to stand still); what
    [randomBytes(16).toString("hex")] yields. *)
Record Invocation := mkInvocation {
  fault : ext_call → option string;
  now : Z;
  random_hex : string }.

(** ** The handler monad: state plus exceptions *)

Definition M (A : Type) : Type := World → outcome A * World.

Definition ret {A} (a : A) : M A := λ w, (Returned a, w).
Definition throw {A} (e : exn) : M A := λ w, (Thrown e, w).
Definition bind {A B} (m : M A) (k : A → M B) : M B :=
  λ w, match m w with
       | (Returned a, w') => k a w'
       | (Thrown e, w') => (Thrown e, w')
       end.
Definition try_catch {A} (m : M A) (handler : exn → M A) : M A :=
  λ w, match m w with
       | (Returned a, w') => (Returned a, w')
       | (Thrown e, w') => handler e w'
       end.
Definition get : M World := λ w, (Returned w, w).
Definition modify (f : World → World) : M unit := λ w, (Returned tt, f w).

Declare Scope js_scope.
Delimit Scope js_scope with js.
Notation "'let*' x := m 'in' k" := (bind m (λ x, k))
  (at level 10, x name, m at level 100, k at level 200, only parsing) : js_scope.
Notation "m ;;; k" := (bind m (λ _, k))
  (at level 100, k at level 200, right associativity, only parsing) : js_scope.

Definition exec {A} (m : M A) (w : World) : World := (m w).2.
Definition result {A} (m : M A) (w : World) : outcome A := (m w).1.

Fixpoint for_of {A} (items : list A) (body : A → M unit) : M unit :=
  match items with
  | [] => ret tt
  | item :: rest => bind (body item) (λ _, for_of rest body)
  end.

(** [ORDER BY desc(key)]: rows with the larger key come first. *)
Definition desc {A} (key : A → Z) (a b : A) : Prop := key b ≤ key a.

#[global] Instance desc_dec {A} (key : A → Z) (a b : A) : Decision (desc key a b) :=
  Z_le_dec (key b) (key a).

#[global] Instance desc_total {A} (key : A → Z) : Total (desc key) :=
  λ a b, Z.le_ge_cases (key b) (key a).

#[global] Instance desc_trans {A} (key : A → Z) : Transitive (desc key) :=
  λ a b c Hab Hbc, Z.le_trans (key c) (key b) (key a) Hbc Hab.

Definition orderBy {A} (R : relation A) `{∀ a b, Decision (R a b)} : list A → list A :=
  merge_sort R.

(** ** Requests, responses and insert payloads *)

(** The object handed to [insertPersonSchema.parse] by [POST /api/people].
    A missing form field reads as [undefined], here [None]. *)
Record UserInput := mkUserInput {
  in_fullName : option string;
  in_birthDate : option string;
  in_passportNumber : option string;
  in_expirationDate : option string;
  in_notes : string;
  in_groupId : jsnum;
  in_status : bool;
  in_photoUrl : string;
  in_createdBy : string }.

(** [InsertPerson]: what the schema lets through. *)
Record InsertPerson := mkInsertPerson {
  ins_fullName : string;
  ins_birthDate : string;
  ins_passportNumber : string;
  ins_expirationDate : string;
  ins_notes : option string;
  ins_groupId : Z;
  ins_status : bool;
  ins_photoUrl : option string;
  ins_createdBy : string }.

(** [UpsertUser & { isMainAdmin?, isActive? }].  For the optional fields the
    outer [None] is [undefined] (the key is absent), [Some None] is [null]. *)
Record UpsertUser := mkUpsertUser {
  up_id : string;
  up_email : option (option string);
  up_firstName : option (option string);
  up_lastName : option (option string);
  up_profileImageUrl : option (option string);
  up_isMainAdmin : option bool;
  up_isActive : option bool }.

(** An Express request as the handlers read it: [req.user.claims.sub],
    [req.params.id], the multipart text fields of [req.body], the stored
    name of the uploaded photo ([req.file.filename]), protocol and host. *)
Record Request := mkRequest {
  sub : string;
  params_id : string;
  body : gmap string string;
  file : option string;
  protocol : string;
  hostname : string }.

(** One activity-log row of the listing, with its joined user. *)
Record LogWithUser := mkLogWithUser {
  log : ActivityLog.t;
  performedByUser : option User.t }.

Inductive json :=
| JMessage (message : string)
| JSuccess
| JPerson (person : option Person.t)
| JLogs (logs : list LogWithUser).

Record Response := mkResponse {
  status_code : nat;
  json_body : json }.

(** ** Library functions the code calls and whose definition lies outside
    the repository: they are parameters of the development. *)
Record Env := mkEnv {
  (** [Number(s)] on a string; [None] is [NaN] (or a non-integer). *)
  Number : string → jsnum;
  (** [new Date(s).getTime()]; [None] is an Invalid Date. *)
  Date_parse : string → option Z;
  (** [d.setHours(0, 0, 0, 0)]: start of [d]'s day in server local time. *)
  setHours0 : Z → Z;
  (** [path.join]. *)
  path_join : string → string → string;
  (** [process.cwd()]. *)
  cwd : string;
  (** [path.join(process.cwd(), "uploads", "qrcodes")]. *)
  qrCodesDir : string;
  (** [insertPersonSchema.parse]: the validated payload, or the thrown
      validation error. *)
  insertPersonSchema_parse : UserInput → outcome InsertPerson }.

Section Server.
Context (E : Env) (I : Invocation).

Local Open Scope js_scope.

(** An external call: throws when the invocation's fault plan says so. *)
Definition external (c : ext_call) : M unit :=
  match fault I c with
  | Some msg => throw (Error msg)
  | None => ret tt
  end.

(** ** storage.ts: people and activity log *)

Definition getAllPeople : M (list Person.t) :=
  try_catch
    (external call_getAllPeople ;;;
     let* w := get in
     ret (orderBy (desc Person.createdAt) (people w)))
    (λ error,
       if includes "endpoint has been disabled" (message error) then ret []
       else throw error).

Definition has_id (id : Z) (person : Person.t) : bool := Person.id person =? id.

(** [.set({ status: false, updatedAt: new Date() })] on one row. *)
Definition set_expired (p : Person.t) : Person.t :=
  Person.mk (Person.id p) (Person.publicId p) (Person.fullName p) (Person.birthDate p)
    (Person.passportNumber p) (Person.expirationDate p) (Person.notes p)
    (Person.groupId p) false (Person.photoUrl p) (Person.qrCodeUrl p)
    (Person.createdBy p) (Person.createdAt p) (now I).

Definition update_where {A} (cond : A → bool) (set : A → A) (rows : list A) : list A :=
  map (λ row, if cond row then set row else row) rows.

(** [select ... where] destructured as [const [row] = ...]. *)
Definition returning_first {A} (cond : A → bool) (rows : list A) : option A :=
  head (List.filter cond rows).

(** [update ... where ... returning()] destructured as [const [row] = ...]:
    the first of the rows that were updated, as updated. *)
Definition updated_first {A} (cond : A → bool) (set : A → A) (rows : list A) : option A :=
  head (map set (List.filter cond rows)).

Definition markPersonExpired (id : Z) : M (option Person.t) :=
  external (call_markPersonExpired id) ;;;
  let* w := get in
  modify (with_people (update_where (has_id id) set_expired)) ;;;
  ret (updated_first (has_id id) set_expired (people w)).

(** The inserted row takes the next serial [id] and the current time as its
    [timestamp]. *)
Definition createActivityLog (action entityType entityId performedBy : string)
    (details : option (list (string * jsval))) : M ActivityLog.t :=
  external (call_createActivityLog entityType entityId) ;;;
  let* w := get in
  let log := ActivityLog.mk (activity_logs_id_seq w) action entityType entityId
               performedBy details (now I) in
  modify (insert_log_row log) ;;;
  ret log.

(** ** storage.ts: the remaining methods *)

(** A JS number bound to an integer column or compared with one: the
    database rejects [NaN].  Integers are unbounded here: the column type's
    32-bit range, beyond which the database rejects the value as well, is
    not modelled, so statements about ids hold for ids within that range. *)
Definition integer_param (n : jsnum) : M Z :=
  match n with
  | Some z => ret z
  | None =>
      throw (Error ("invalid input syntax for type integer: " ++ dquote ++ "NaN" ++ dquote))
  end.

Definition user_has_id (id : string) (user : User.t) : bool := String.eqb (User.id user) id.

(** The demo identity is answered without a query. *)
Definition getUser (id : string) : M (option User.t) :=
  if String.eqb id "admin_user" then
    ret (Some (User.mk "admin_user" (Some "admin@example.com") (Some "Администратор")
                 (Some "Системы") None true true (now I) (now I)))
  else
    external (call_getUser id) ;;;
    let* w := get in
    ret (returning_first (user_has_id id) (users w)).

(** A column of an update [set]: drizzle leaves an [undefined] value out. *)
Definition set_column {A} (value : option A) (old : A) : A :=
  match value with
  | Some v => v
  | None => old
  end.

(** The [set] of [onConflictDoUpdate] in [upsertUser]. *)
Definition conflict_set (userData : UpsertUser) (u : User.t) : User.t :=
  User.mk (User.id u)
    (set_column (up_email userData) (User.email u))
    (set_column (up_firstName userData) (User.firstName u))
    (set_column (up_lastName userData) (User.lastName u))
    (set_column (up_profileImageUrl userData) (User.profileImageUrl u))
    (User.isMainAdmin u) (User.isActive u) (User.createdAt u) (now I).

(** The [values] of the insert in [upsertUser]; an absent nullable column
    is stored as NULL, the timestamps default to the current time. *)
Definition insert_values (userData : UpsertUser) : User.t :=
  User.mk (up_id userData)
    (default None (up_email userData))
    (default None (up_firstName userData))
    (default None (up_lastName userData))
    (default None (up_profileImageUrl userData))
    (default false (up_isMainAdmin userData))
    (default true (up_isActive userData))
    (now I) (now I).

Definition upsertUser (userData : UpsertUser) : M (option User.t) :=
  external (call_upsertUser (up_id userData)) ;;;
  let* w := get in
  if existsb (user_has_id (up_id userData)) (users w)
  then
    modify (with_users (update_where (user_has_id (up_id userData))
                                     (conflict_set userData))) ;;;
    ret (updated_first (user_has_id (up_id userData)) (conflict_set userData) (users w))
  else
    modify (with_users (λ rows, (rows ++ [insert_values userData])%list)) ;;;
    ret (Some (insert_values userData)).

Definition group_has_id (id : Z) (group : Group.t) : bool := Group.id group =? id.

Definition getGroup (id : jsnum) : M (option Group.t) :=
  try_catch
    (external (call_getGroup id) ;;;
     let* id := integer_param id in
     let* w := get in
     ret (returning_first (group_has_id id) (groups w)))
    (λ error,
       if includes "endpoint has been disabled" (message error) then ret None
       else throw error).

Definition deleteGroup (id : jsnum) : M unit :=
  external (call_deleteGroup id) ;;;
  let* id := integer_param id in
  modify (with_groups (List.filter (λ g, negb (group_has_id id g)))).

Definition getPerson (id : jsnum) : M (option Person.t) :=
  external (call_getPerson id) ;;;
  let* id := integer_param id in
  let* w := get in
  ret (returning_first (has_id id) (people w)).

(** Modelled from the spec: the column defaults of the people table, whose
    declaration ([shared/schema]) is not part of the sources: a serial [id],
    a QR URL that starts empty (NULL), and creation timestamps taken from
    the clock. *)
Definition new_person_row (id : Z) (personData : InsertPerson) (publicId : string)
    : Person.t :=
  Person.mk id publicId (ins_fullName personData) (ins_birthDate personData)
    (ins_passportNumber personData) (ins_expirationDate personData)
    (ins_notes personData) (ins_groupId personData) (ins_status personData)
    (ins_photoUrl personData) None (ins_createdBy personData) (now I) (now I).

Definition createPerson (personData : InsertPerson) (publicId : string) : M Person.t :=
  external (call_createPerson publicId) ;;;
  let* w := get in
  let person := new_person_row (people_id_seq w) personData publicId in
  modify (insert_person_row person) ;;;
  ret person.

Definition deletePerson (id : jsnum) : M unit :=
  external (call_deletePerson id) ;;;
  let* id := integer_param id in
  modify (with_people (List.filter (λ p, negb (has_id id p)))).

(** The typed [set] of an update of the people table: one optional value per
    column, [None] when the payload does not name the column.  [updatedAt] is
    not listed: [updatePerson] always overwrites it with the current time. *)
Record PersonSet := mkPersonSet {
  set_id : option Z;
  set_publicId : option string;
  set_fullName : option string;
  set_birthDate : option string;
  set_passportNumber : option string;
  set_expirationDate : option string;
  set_notes : option (option string);
  set_groupId : option Z;
  set_status : option bool;
  set_photoUrl : option (option string);
  set_qrCodeUrl : option (option string);
  set_createdBy : option string;
  set_createdAt : option Z }.

Definition as_integer (v : jsval) : option Z :=
  match v with VNum (Some n) => Some n | _ => None end.
Definition as_text (v : jsval) : option string :=
  match v with VStr s => Some s | _ => None end.
Definition as_nullable_text (v : jsval) : option (option string) :=
  match v with VStr s => Some (Some s) | VNull => Some None | _ => None end.
Definition as_boolean (v : jsval) : option bool :=
  match v with VBool b => Some b | _ => None end.
Definition as_timestamp (v : jsval) : option Z :=
  match v with VDate t => Some t | _ => None end.

(** The parameter bound for one column.  Keys that are absent or
    [undefined] are left out of the statement ([Some None]); a value the
    column type does not take makes the statement fail ([None]). *)
Definition param {A} (coerce : jsval → option A) (data : gmap string jsval)
    (column : string) : option (option A) :=
  match data !! column with
  | None | Some VUndefined => Some None
  | Some v => Some <$> coerce v
  end.

(** Only keys that name a column of the table reach the statement; every
    other key of the payload is ignored. *)
Definition mapUpdateSet (data : gmap string jsval) : option PersonSet :=
  id ← param as_integer data "id";
  publicId ← param as_text data "publicId";
  fullName ← param as_text data "fullName";
  birthDate ← param as_text data "birthDate";
  passportNumber ← param as_text data "passportNumber";
  expirationDate ← param as_text data "expirationDate";
  notes ← param as_nullable_text data "notes";
  groupId ← param as_integer data "groupId";
  status ← param as_boolean data "status";
  photoUrl ← param as_nullable_text data "photoUrl";
  qrCodeUrl ← param as_nullable_text data "qrCodeUrl";
  createdBy ← param as_text data "createdBy";
  createdAt ← param as_timestamp data "createdAt";
  Some (mkPersonSet id publicId fullName birthDate passportNumber expirationDate
          notes groupId status photoUrl qrCodeUrl createdBy createdAt).

(** [.set({ ...personData, updatedAt: new Date() })] on one row. *)
Definition apply_set (s : PersonSet) (p : Person.t) : Person.t :=
  Person.mk
    (set_column (set_id s) (Person.id p))
    (set_column (set_publicId s) (Person.publicId p))
    (set_column (set_fullName s) (Person.fullName p))
    (set_column (set_birthDate s) (Person.birthDate p))
    (set_column (set_passportNumber s) (Person.passportNumber p))
    (set_column (set_expirationDate s) (Person.expirationDate p))
    (set_column (set_notes s) (Person.notes p))
    (set_column (set_groupId s) (Person.groupId p))
    (set_column (set_status s) (Person.status p))
    (set_column (set_photoUrl s) (Person.photoUrl p))
    (set_column (set_qrCodeUrl s) (Person.qrCodeUrl p))
    (set_column (set_createdBy s) (Person.createdBy p))
    (set_column (set_createdAt s) (Person.createdAt p))
    (now I).

Definition updatePerson (id : jsnum) (personData : gmap string jsval)
    : M (option Person.t) :=
  external (call_updatePerson id) ;;;
  let* id := integer_param id in
  match mapUpdateSet personData with
  | None => throw (Error "invalid input value for a column of people")
  | Some s =>
      let* w := get in
      modify (with_people (update_where (has_id id) (apply_set s))) ;;;
      ret (updated_first (has_id id) (apply_set s) (people w))
  end.

(** [activityLogs LEFT JOIN users ON performedBy = users.id]: one row per
    matching user, and one row without a user when nobody matches. *)
Definition leftJoin_users (users : list User.t) (entry : ActivityLog.t)
    : list LogWithUser :=
  match List.filter (user_has_id (ActivityLog.performedBy entry)) users with
  | [] => [mkLogWithUser entry None]
  | matches => map (λ u, mkLogWithUser entry (Some u)) matches
  end.

Definition log_timestamp (row : LogWithUser) : Z := ActivityLog.timestamp (log row).

Definition getAllActivityLogs : M (list LogWithUser) :=
  external call_getAllActivityLogs ;;;
  let* w := get in
  ret (orderBy (desc log_timestamp)
         (flat_map (leftJoin_users (users w)) (activityLogs w))).

(** ** routes.ts: helpers *)

Definition logActivity (action entityType entityId userId : string)
    (details : option (list (string * jsval))) : M unit :=
  try_catch
    (let* _ := createActivityLog action entityType entityId userId details in ret tt)
    (λ error, modify (print (console_error "Error logging activity:" error))).

(** [Number.prototype.toString] on an integer. *)
Definition toString (n : Z) : string := pretty n.

(** ** routes.ts: the daily expiration check (body of the cron callback) *)

Definition expired_action : string :=
  "Паспорт автоматически деактивирован из-за истечения срока действия".

Definition date_lt (d : option Z) (today : Z) : bool :=
  match d with
  | Some t => t <? today
  | None => false
  end.

Definition expiration_body (today : Z) (person : Person.t) : M unit :=
  if Person.status person then
    let expirationDate := setHours0 E <$> Date_parse E (Person.expirationDate person) in
    if date_lt expirationDate today then
      let* _ := markPersonExpired (Person.id person) in
      logActivity expired_action "passport" (toString (Person.id person)) "system"
        (Some [("fullName", VStr (Person.fullName person));
               ("expirationDate", VStr (Person.expirationDate person))]) ;;;
      modify (print (console_log
        ("Marked passport " ++ toString (Person.id person) ++ " (" ++
         Person.fullName person ++ ") as expired")))
    else ret tt
  else ret tt.

Definition expiration_check : M unit :=
  modify (print (console_log "Running expiration check...")) ;;;
  try_catch
    (let* people := getAllPeople in
     let today := setHours0 E (now I) in
     for_of people (expiration_body today))
    (λ error, modify (print (console_error "Error in expiration cron:" error))).

(** ** routes.ts: QR rendering and the people and group handlers *)

(** [error.message || fallback]. *)
Definition or_else (s fallback : string) : string :=
  match s with
  | EmptyString => fallback
  | _ => s
  end.

Definition nonempty (s : string) : bool :=
  match s with
  | EmptyString => false
  | _ => true
  end.

(** The address a QR code encodes, and the file it is rendered to. *)
Definition passport_url (publicId protocol hostname : string) : string :=
  protocol ++ "://" ++ hostname ++ "/p/" ++ publicId.
Definition qrCodePath (publicId : string) : string :=
  path_join E (qrCodesDir E) ("qr-" ++ publicId ++ ".png").

Definition generateQRCode (publicId protocol hostname : string) : M string :=
  let url := passport_url publicId protocol hostname in
  let qrCodePath := qrCodePath publicId in
  try_catch
    (external (call_QRCode_toFile qrCodePath url) ;;;
     modify (with_files (λ fs, {[qrCodePath]} ∪ fs)) ;;;
     ret ("/uploads/qrcodes/qr-" ++ publicId ++ ".png"))
    (λ error,
       modify (print (console_error "Error generating QR code:" error)) ;;;
       ret "").

Definition generatePublicId : string := random_hex I.

(** [Number(req.body.x)]: a missing field is [undefined], and
    [Number(undefined)] is [NaN]. *)
Definition Number_field (v : option string) : jsnum := v ≫= Number E.

(** [req.body.status === "true"]. *)
Definition is_true (v : option string) : bool :=
  match v with
  | Some s => String.eqb s "true"
  | None => false
  end.

(** [await p] on the result of a synchronous call that may have thrown. *)
Definition lift {A} (o : outcome A) : M A :=
  match o with
  | Returned a => ret a
  | Thrown e => throw e
  end.

Definition fs_existsSync (path : string) : M bool :=
  let* w := get in ret (bool_decide (path ∈ files w)).

Definition fs_unlinkSync (path : string) : M unit :=
  external (call_fs_unlinkSync path) ;;;
  modify (with_files (λ fs, fs ∖ {[path]})).

(** [/uploads/photos/<stored name>] when a photo came with the request. *)
Definition uploaded_photoUrl (req : Request) : string :=
  match file req with
  | Some filename => "/uploads/photos/" ++ filename
  | None => ""
  end.

(** The [userInput] object of [POST /api/people]. *)
Definition userInput (req : Request) : UserInput :=
  mkUserInput (body req !! "fullName") (body req !! "birthDate")
    (body req !! "passportNumber") (body req !! "expirationDate")
    (or_else (default "" (body req !! "notes")) "")
    (Number_field (body req !! "groupId"))
    (is_true (body req !! "status")) (uploaded_photoUrl req) (sub req).

(** The handler of [POST /api/people].  The route runs the upload step
    before it: see [app_post_people]. *)
Definition post_people (req : Request) : M Response :=
  try_catch
    (let userId := sub req in
     let publicId := generatePublicId in
     let* validated := lift (insertPersonSchema_parse E (userInput req)) in
     let* person := createPerson validated publicId in
     let* qrCodeUrl := generateQRCode publicId (protocol req) (hostname req) in
     (if nonempty qrCodeUrl
      then let* _ := updatePerson (Some (Person.id person))
                       {["qrCodeUrl" := VStr qrCodeUrl]} in ret tt
      else ret tt) ;;;
     logActivity ("Создан паспорт для " ++ dquote ++ Person.fullName person ++ dquote)
       "passport" (toString (Person.id person)) userId
       (Some [("passportNumber", VStr (Person.passportNumber person))]) ;;;
     let* updatedPerson := getPerson (Some (Person.id person)) in
     ret (mkResponse 200 (JPerson updatedPerson)))
    (λ error,
       modify (print (console_error "Error creating person:" error)) ;;;
       ret (mkResponse 400 (JMessage (or_else (message error) "Failed to create person")))).

(** The object [PUT /api/people/:id] hands to [storage.updatePerson]: the
    form fields, [groupId] and [status] coerced, the new photo URL when a
    file came with the request, and seven keys deleted. *)
Definition updateData (req : Request) : gmap string jsval :=
  let data : gmap string jsval :=
    <["status" := VBool (is_true (body req !! "status"))]>
      (<["groupId" := VNum (Number_field (body req !! "groupId"))]>
         (VStr <$> body req)) in
  let data :=
    match file req with
    | Some _ => <["photoUrl" := VStr (uploaded_photoUrl req)]> data
    | None => data
    end in
  delete "updatedAt"
    (delete "createdAt"
       (delete "createdBy"
          (delete "qrCodeUrl"
             (delete "publicId"
                (delete "photo"
                   (delete "id" data)))))).

(** The handler of [PUT /api/people/:id].  The route runs the upload step
    before it: see [app_put_people]. *)
Definition put_people (req : Request) : M Response :=
  try_catch
    (let userId := sub req in
     let personId := Number E (params_id req) in
     let* person := updatePerson personId (updateData req) in
     match person with
     | None =>
         throw (Error "Cannot read properties of undefined (reading 'fullName')")
     | Some person =>
         logActivity ("Обновлен паспорт " ++ dquote ++ Person.fullName person ++ dquote)
           "passport" (toString (Person.id person)) userId
           (Some [("passportNumber", VStr (Person.passportNumber person))]) ;;;
         ret (mkResponse 200 (JPerson (Some person)))
     end)
    (λ error,
       modify (print (console_error "Error updating person:" error)) ;;;
       ret (mkResponse 400 (JMessage (or_else (message error) "Failed to update person")))).

(** ** routes.ts: the upload step of the two people routes *)

Definition uploadsDir : string := path_join E (cwd E) "uploads".
Definition photosDir : string := path_join E uploadsDir "photos".

(** [upload.single("photo")] with [photoStorage]: when the handler runs,
    the file that [req.file.filename] names has been written to [photosDir].
    An upload the middleware refuses (file filter, size limit) never
    reaches the handler and is not a [Request] of this development. *)
Definition upload_single (req : Request) : M unit :=
  match file req with
  | Some filename => modify (with_files (λ fs, {[path_join E photosDir filename]} ∪ fs))
  | None => ret tt
  end.

(** [app.post("/api/people", isAuthenticated, upload.single("photo"), ...)]
    and [app.put("/api/people/:id", ...)]: the upload step, then the
    handler. *)
Definition app_post_people (req : Request) : M Response :=
  upload_single req ;;; post_people req.

Definition app_put_people (req : Request) : M Response :=
  upload_single req ;;; put_people req.

(** [if (url) { if (fs.existsSync(p)) fs.unlinkSync(p) }]. *)
Definition remove_asset (url : option string) : M unit :=
  if truthy url then
    let path := path_join E (cwd E) (default "" url) in
    let* found := fs_existsSync path in
    if found then fs_unlinkSync path else ret tt
  else ret tt.

Definition delete_people (req : Request) : M Response :=
  try_catch
    (let userId := sub req in
     let personId := Number E (params_id req) in
     let* person := getPerson personId in
     match person with
     | None => ret (mkResponse 404 (JMessage "Person not found"))
     | Some person =>
         remove_asset (Person.photoUrl person) ;;;
         remove_asset (Person.qrCodeUrl person) ;;;
         deletePerson personId ;;;
         logActivity ("Удален паспорт " ++ dquote ++ Person.fullName person ++ dquote)
           "passport"
           (match personId with Some n => toString n | None => "NaN" end)
           userId
           (Some [("passportNumber", VStr (Person.passportNumber person))]) ;;;
         ret (mkResponse 200 JSuccess)
     end)
    (λ error,
       modify (print (console_error "Error deleting person:" error)) ;;;
       ret (mkResponse 500 (JMessage "Failed to delete person"))).

Definition delete_groups (req : Request) : M Response :=
  try_catch
    (let userId := sub req in
     let groupId := Number E (params_id req) in
     let* group := getGroup groupId in
     match group with
     | None => ret (mkResponse 404 (JMessage "Group not found"))
     | Some group =>
         deleteGroup groupId ;;;
         logActivity ("Удалена группа " ++ dquote ++ Group.name group ++ dquote)
           "group"
           (match groupId with Some n => toString n | None => "NaN" end)
           userId None ;;;
         ret (mkResponse 200 JSuccess)
     end)
    (λ error,
       modify (print (console_error "Error deleting group:" error)) ;;;
       ret (mkResponse 500 (JMessage "Failed to delete group"))).

End Server.

(** * The remaining storage methods and routes *)

(** The external calls of the storage methods modelled below. *)
Inductive ext_call_more :=
| call_getAllUsers
| call_getAllAdmins
| call_updateAdminStatus (id : string)
| call_getAllGroups
| call_updateGroup (id : jsnum)
| call_getPersonByPublicId (publicId : string).

(** A request to one of the JSON routes: [req.user.claims.sub], the route
    parameter ([:id] or [:publicId]) and the parsed JSON body. *)
Record ApiRequest := mkApiRequest {
  api_sub : string;
  api_param : string;
  api_body : gmap string jsval }.

(** What the remaining routes send with [res.json]. *)
Inductive json_more :=
| JError (message : string)
| JUser (user : User.t)
| JUsers (users : list User.t)
| JGroup (group : Group.t)
| JGroups (groups : list Group.t)
| JPeople (people : list Person.t).

Record Reply := mkReply {
  reply_status : nat;
  reply_body : json_more }.

(** [ORDER BY column] ascending, for a text column compared by [le]. *)
Definition asc {A} (le : string → string → bool) (key : A → string) (a b : A) : Prop :=
  le (key a) (key b) = true.

#[global] Instance asc_dec {A} le (key : A → string) (a b : A) : Decision (asc le key a b) :=
  bool_eq_dec (le (key a) (key b)) true.

(** Truthiness of a JS value, as in [isActive ? ... : ...]. *)
Definition js_truthy (v : jsval) : bool :=
  match v with
  | VUndefined | VNull => false
  | VBool b => b
  | VNum None => false
  | VNum (Some n) => negb (n =? 0)
  | VStr s => nonempty s
  | VDate _ => true
  end.

(** A nullable text column read into a JSON value. *)
Definition json_text (s : option string) : jsval :=
  match s with
  | Some s => VStr s
  | None => VNull
  end.

(** The demo middleware registered before the authenticated routes: every
    request is given the identity ["admin_user"]. *)
Definition demo_bypass (req : ApiRequest) : ApiRequest :=
  mkApiRequest "admin_user" (api_param req) (api_body req).

Section ServerMore.
Context (E : Env) (I : Invocation).
(** Which of the calls above throw during the invocation, and the order in
    which the database compares group names. *)
Context (fault_more : ext_call_more → option string).
Context (name_le : string → string → bool).

Local Open Scope js_scope.

Definition external_more (c : ext_call_more) : M unit :=
  match fault_more c with
  | Some msg => throw (Error msg)
  | None => ret tt
  end.

(** ** storage.ts *)

Definition getAllUsers : M (list User.t) :=
  external_more call_getAllUsers ;;;
  let* w := get in
  ret (users w).

Definition getAllAdmins : M (list User.t) :=
  external_more call_getAllAdmins ;;;
  let* w := get in
  ret (users w).

(** [.set({ isActive, updatedAt: new Date() })] on one row. *)
Definition set_isActive (isActive : option bool) (u : User.t) : User.t :=
  User.mk (User.id u) (User.email u) (User.firstName u) (User.lastName u)
    (User.profileImageUrl u) (User.isMainAdmin u)
    (set_column isActive (User.isActive u)) (User.createdAt u) (now I).

(** The parameter bound for a value handed to a [set]: [undefined] leaves
    the column out, a value of another type makes the statement fail.  The
    last is stricter than the database, which receives parameters as text
    and coerces some of them (the string [false] to a boolean, a number to
    text): statements below are about values of the column's own type. *)
Definition bound {A} (coerce : jsval → option A) (v : jsval) : option (option A) :=
  match v with
  | VUndefined => Some None
  | v => Some <$> coerce v
  end.

Definition updateAdminStatus (id : string) (isActive : jsval) : M (option User.t) :=
  external_more (call_updateAdminStatus id) ;;;
  match bound as_boolean isActive with
  | None => throw (Error "invalid input value for a column of users")
  | Some isActive =>
      let* w := get in
      modify (with_users (update_where (user_has_id id) (set_isActive isActive))) ;;;
      ret (updated_first (user_has_id id) (set_isActive isActive) (users w))
  end.

(** The one group [getAllGroups] answers with when the database endpoint is
    disabled. *)
Definition demo_group : Group.t :=
  Group.mk 1 "Демо-группа (База отключена)" "admin_user" (now I) (now I).

Definition getAllGroups : M (list Group.t) :=
  try_catch
    (external_more call_getAllGroups ;;;
     let* w := get in
     ret (orderBy (asc name_le Group.name) (groups w)))
    (λ error,
       if includes "endpoint has been disabled" (message error) then ret [demo_group]
       else throw error).

(** [.set({ name, updatedAt: new Date() })] on one row. *)
Definition set_name (name : option string) (g : Group.t) : Group.t :=
  Group.mk (Group.id g) (set_column name (Group.name g)) (Group.createdBy g)
    (Group.createdAt g) (now I).

Definition updateGroup (id : jsnum) (name : jsval) : M (option Group.t) :=
  external_more (call_updateGroup id) ;;;
  let* id := integer_param id in
  match bound as_text name with
  | None => throw (Error "invalid input value for a column of groups")
  | Some name =>
      let* w := get in
      modify (with_groups (update_where (group_has_id id) (set_name name))) ;;;
      ret (updated_first (group_has_id id) (set_name name) (groups w))
  end.

Definition has_publicId (publicId : string) (person : Person.t) : bool :=
  String.eqb (Person.publicId person) publicId.

Definition getPersonByPublicId (publicId : string) : M (option Person.t) :=
  external_more (call_getPersonByPublicId publicId) ;;;
  let* w := get in
  ret (returning_first (has_publicId publicId) (people w)).

(** ** routes.ts *)

(** [req.body.x] of a JSON body. *)
Definition body_field (req : ApiRequest) (name : string) : jsval :=
  default VUndefined (api_body req !! name).

Definition get_public_people (req : ApiRequest) : M Response :=
  try_catch
    (let* person := getPersonByPublicId (api_param req) in
     match person with
     | None => ret (mkResponse 404 (JMessage "Passport not found"))
     | Some person => ret (mkResponse 200 (JPerson (Some person)))
     end)
    (λ error,
       modify (print (console_error "Error fetching public passport:" error)) ;;;
       ret (mkResponse 500 (JMessage "Failed to fetch passport"))).

Definition get_auth_user (req : ApiRequest) : M Reply :=
  try_catch
    (let userId := api_sub req in
     let* user := getUser I userId in
     match user with
     | None => ret (mkReply 404 (JError "User not found"))
     | Some user =>
         if negb (User.isActive user)
         then ret (mkReply 403 (JError "Account is deactivated"))
         else ret (mkReply 200 (JUser user))
     end)
    (λ error,
       modify (print (console_error "Error fetching user:" error)) ;;;
       ret (mkReply 500 (JError "Failed to fetch user"))).

(** [!currentUser?.isMainAdmin]. *)
Definition not_main_admin (currentUser : option User.t) : bool :=
  match currentUser with
  | Some user => negb (User.isMainAdmin user)
  | None => true
  end.

Definition get_admins (req : ApiRequest) : M Reply :=
  try_catch
    (let userId := api_sub req in
     let* currentUser := getUser I userId in
     if not_main_admin currentUser
     then ret (mkReply 403 (JError "Only main admin can access this"))
     else
       let* admins := getAllAdmins in
       ret (mkReply 200 (JUsers admins)))
    (λ error,
       modify (print (console_error "Error fetching admins:" error)) ;;;
       ret (mkReply 500 (JError "Failed to fetch admins"))).

Definition put_admins (req : ApiRequest) : M Reply :=
  try_catch
    (let userId := api_sub req in
     let* currentUser := getUser I userId in
     if not_main_admin currentUser
     then ret (mkReply 403 (JError "Only main admin can modify admins"))
     else
       let isActive := body_field req "isActive" in
       let* admin := updateAdminStatus (api_param req) isActive in
       match admin with
       | None => throw (Error "Cannot read properties of undefined (reading 'email')")
       | Some admin =>
           logActivity I
             ("Администратор " ++
              (if js_truthy isActive then "активирован" else "деактивирован"))
             "admin" (api_param req) userId
             (Some [("adminEmail", json_text (User.email admin))]) ;;;
           ret (mkReply 200 (JUser admin))
       end)
    (λ error,
       modify (print (console_error "Error updating admin:" error)) ;;;
       ret (mkReply 500 (JError "Failed to update admin"))).

Definition disabled_message : string :=
  "База данных временно отключена. Пожалуйста, активируйте её в консоли Neon.".

Definition get_groups (req : ApiRequest) : M Reply :=
  try_catch
    (let* groups := getAllGroups in
     ret (mkReply 200 (JGroups groups)))
    (λ error,
       modify (print (console_error "Error fetching groups:" error)) ;;;
       if includes "endpoint has been disabled" (message error)
       then ret (mkReply 503 (JError disabled_message))
       else ret (mkReply 500 (JError "Failed to fetch groups"))).

Definition put_groups (req : ApiRequest) : M Reply :=
  try_catch
    (let userId := api_sub req in
     let name := body_field req "name" in
     let* group := updateGroup (Number E (api_param req)) name in
     match group with
     | None => throw (Error "Cannot read properties of undefined (reading 'name')")
     | Some group =>
         logActivity I ("Обновлена группа " ++ dquote ++ Group.name group ++ dquote)
           "group" (toString (Group.id group)) userId None ;;;
         ret (mkReply 200 (JGroup group))
     end)
    (λ error,
       modify (print (console_error "Error updating group:" error)) ;;;
       ret (mkReply 500 (JError "Failed to update group"))).

Definition get_people (req : ApiRequest) : M Reply :=
  try_catch
    (let* people := getAllPeople I in
     ret (mkReply 200 (JPeople people)))
    (λ error,
       modify (print (console_error "Error fetching people:" error)) ;;;
       if includes "endpoint has been disabled" (message error)
       then ret (mkReply 503 (JError disabled_message))
       else ret (mkReply 500 (JError "Failed to fetch people"))).

Definition get_activity_logs (req : ApiRequest) : M Response :=
  try_catch
    (let* logs := getAllActivityLogs I in
     ret (mkResponse 200 (JLogs logs)))
    (λ error,
       modify (print (console_error "Error fetching activity logs:" error)) ;;;
       ret (mkResponse 500 (JMessage "Failed to fetch activity logs"))).

End ServerMore.

(** * Specification vocabulary and sample data *)

(** ** Vocabulary of the statements *)

(** The columns of a row that no update request may change. *)
Definition frozen (p : Person.t) : Z * string * option string * string * Z :=
  (Person.id p, Person.publicId p, Person.qrCodeUrl p, Person.createdBy p,
   Person.createdAt p).

(** The condition under which the check deactivates a record. *)
Definition is_expired (E : Env) (today : Z) (person : Person.t) : bool :=
  Person.status person &&
  date_lt (setHours0 E <$> Date_parse E (Person.expirationDate person)) today.

(** The activity-log entry the check writes for one record. *)
Definition expiry_entry (I : Invocation) (id : Z) (person : Person.t) : ActivityLog.t :=
  ActivityLog.mk id expired_action "passport" (toString (Person.id person)) "system"
    (Some [("fullName", VStr (Person.fullName person));
           ("expirationDate", VStr (Person.expirationDate person))])
    (now I).

(** Rows of [rows] sharing their id with an expired record of [scanned]. *)
Definition hit (E : Env) (today : Z) (scanned : list Person.t) (row : Person.t) : bool :=
  existsb (λ p, is_expired E today p && has_id (Person.id p) row) scanned.

(** The entries a run without faults writes: one per expired record of the
    snapshot, in scan order, with consecutive serial ids. *)
Fixpoint expiry_entries (I : Invocation) (seq : Z) (expired : list Person.t)
    : list ActivityLog.t :=
  match expired with
  | [] => []
  | p :: rest => expiry_entry I seq p :: expiry_entries I (seq + 1) rest
  end.

(** ** A sample environment, store and requests *)

Definition ms_per_day : Z := 86400000.

(** [setHours(0, 0, 0, 0)] on a server whose local time is UTC. *)
Definition utc_midnight (t : Z) : Z := t - t mod ms_per_day.

Definition sample_Date_parse (s : string) : option Z :=
  if String.eqb s "2024-01-01" then Some 1704067200000
  else if String.eqb s "2030-01-01" then Some 1893456000000
  else None.

Fixpoint decimal (s : string) (acc : Z) : jsnum :=
  match s with
  | EmptyString => Some acc
  | String c rest =>
      let d := Z.of_nat (nat_of_ascii c) - 48 in
      if (0 <=? d) && (d <=? 9) then decimal rest (10 * acc + d) else None
  end.

(** [Number] on strings of decimal digits; anything else reads as [NaN]. *)
Definition sample_Number (s : string) : jsnum := decimal s 0.

Definition sample_parse (u : UserInput) : outcome InsertPerson :=
  match in_fullName u, in_birthDate u, in_passportNumber u, in_expirationDate u,
        in_groupId u with
  | Some fullName, Some birthDate, Some passportNumber, Some expirationDate, Some groupId =>
      Returned (mkInsertPerson fullName birthDate passportNumber expirationDate
                  (Some (in_notes u)) groupId (in_status u) (Some (in_photoUrl u))
                  (in_createdBy u))
  | _, _, _, _, _ => Thrown (Error "Required")
  end.

Definition sample_env : Env :=
  mkEnv sample_Number sample_Date_parse utc_midnight String.append "/app"
    "/app/uploads/qrcodes/" sample_parse.

(** 2025-06-15, half past midnight. *)
Definition sample_now : Z := 1749947400000.

Definition no_fault : Invocation := mkInvocation (λ _, None) sample_now "00ff".

Definition ann : Person.t :=
  Person.mk 1 "a1" "Ann" "1990-01-01" "P-1" "2024-01-01" None 1 true
    (Some "/uploads/photos/ann.png") (Some "/uploads/qrcodes/qr-a1.png")
    "admin_user" 100 100.
Definition bob : Person.t :=
  Person.mk 2 "b2" "Bob" "1991-01-01" "P-2" "2024-01-01" None 1 true
    None None "admin_user" 200 200.
Definition eve : Person.t :=
  Person.mk 3 "c3" "Eve" "1992-01-01" "P-3" "2030-01-01" None 1 true
    None None "admin_user" 300 300.

Definition sample_world : World :=
  mkWorld [] [Group.mk 1 "A" "admin_user" 50 50] [ann; bob; eve] []
    {["/app/uploads/photos/ann.png"]} [] 4 1.

(** The second run happens ten hours later, and its log writes would fail. *)
Definition later_same_day : Invocation :=
  mkInvocation
    (λ c, match c with call_createActivityLog _ _ => Some "timeout" | _ => None end)
    (sample_now + 36000000) "00ff".

(** C4 as the specification words it: every expired record whose own status
    update is not the failing one ends the run deactivated. *)
Definition isolates_record_failures (E : Env) (I : Invocation) (w : World) : Prop :=
  ∀ p, p ∈ people w →
    is_expired E (setHours0 E (now I)) p = true →
    fault I (call_markPersonExpired (Person.id p)) = None →
    ∃ p', p' ∈ people (exec (expiration_check E I) w) ∧
          Person.id p' = Person.id p ∧ Person.status p' = false.

(** The status update of record 1, the last one scanned, fails. *)
Definition ann_update_fails : Invocation :=
  mkInvocation
    (λ c, match c with
          | call_markPersonExpired 1 => Some "Connection terminated unexpectedly"
          | _ => None
          end)
    sample_now "00ff".

(** The status update of record 2 fails; nothing else does. *)
Definition bob_update_fails : Invocation :=
  mkInvocation
    (λ c, match c with
          | call_markPersonExpired 2 => Some "Connection terminated unexpectedly"
          | _ => None
          end)
    sample_now "00ff".

(** Every write to the activity log fails; nothing else does. *)
Definition log_writes_fail : Invocation :=
  mkInvocation
    (λ c, match c with call_createActivityLog _ _ => Some "timeout" | _ => None end)
    sample_now "00ff".

Definition put_unknown_request : Request :=
  mkRequest "admin_user" "999"
    {["fullName" := "Nobody"; "groupId" := "1"; "status" := "true"]}
    None "http" "vault.example".

(** The file an asset URL designates, if the URL is set. *)
Definition asset_paths (E : Env) (url : option string) : gset string :=
  if truthy url then {[path_join E (cwd E) (default "" url)]} else ∅.

(** C6 as the specification words it: when only asset removals fail, the
    record is still removed and one activity-log entry is written. *)
Definition delete_is_best_effort (E : Env) (I : Invocation) (req : Request) (w : World)
    : Prop :=
  ∀ id person,
    Number E (params_id req) = Some id →
    returning_first (has_id id) (people w) = Some person →
    (∀ c, is_Some (fault I c) → ∃ path, c = call_fs_unlinkSync path) →
    (∀ p, p ∈ people (exec (delete_people E I req) w) → Person.id p ≠ id) ∧
    length (activityLogs (exec (delete_people E I req) w)) = S (length (activityLogs w)).

(** Every removal of a file fails; nothing else does. *)
Definition unlink_fails : Invocation :=
  mkInvocation
    (λ c, match c with
          | call_fs_unlinkSync _ => Some "EPERM: operation not permitted, unlink"
          | _ => None
          end)
    sample_now "00ff".

Definition delete_ann_request : Request :=
  mkRequest "admin_user" "1" ∅ None "http" "vault.example".

(** Rendering the QR code fails; nothing else does. *)
Definition qr_fails : Invocation :=
  mkInvocation
    (λ c, match c with
          | call_QRCode_toFile _ _ => Some "EACCES: permission denied"
          | _ => None
          end)
    sample_now "00ff".

Definition create_request : Request :=
  mkRequest "admin_user" ""
    {["fullName" := "Dan"; "birthDate" := "1993-01-01"; "passportNumber" := "P-4";
      "expirationDate" := "2030-01-01"; "groupId" := "1"; "status" := "true"]}
    None "https" "vault.example".

Definition dan : Person.t :=
  Person.mk 4 "00ff" "Dan" "1993-01-01" "P-4" "2030-01-01" (Some "") 1 true
    (Some "") None "admin_user" sample_now sample_now.

Definition ada : User.t :=
  User.mk "u-ada" (Some "ada@example.com") (Some "Ada") (Some "L") None true true 10 10.
Definition ben : User.t :=
  User.mk "u-ben" (Some "ben@example.com") (Some "Ben") (Some "K") None false false 20 20.

Definition audit_world : World :=
  mkWorld [ada; ben] [Group.mk 1 "A" "u-ada" 50 50] [ann; bob; eve]
    [ActivityLog.mk 1 "created" "passport" "1" "u-ada" None 1000;
     ActivityLog.mk 2 expired_action "passport" "1" "system" None 3000;
     ActivityLog.mk 3 "updated" "passport" "2" "u-ben" None 2000]
    ∅ [] 4 4.

(** The columns of a user row that re-authentication must not touch. *)
Definition user_flags (u : User.t) : string * bool * bool * Z :=
  (User.id u, User.isMainAdmin u, User.isActive u, User.createdAt u).

(** Ben signs in again; the input asks for main-admin rights and an active
    account, and renames him. *)
Definition ben_again : UpsertUser :=
  mkUpsertUser "u-ben" (Some (Some "ben@corp.example")) (Some (Some "Benjamin")) None
    (Some None) (Some true) (Some true).

Definition delete_group_request : Request :=
  mkRequest "admin_user" "1" ∅ None "http" "vault.example".

(** A request on record 1 that names every frozen column. *)
Definition overwrite_request : Request :=
  mkRequest "admin_user" "1"
    {["fullName" := "Ann Lee"; "groupId" := "1"; "status" := "true";
      "id" := "77"; "publicId" := "forged"; "qrCodeUrl" := "/uploads/qrcodes/x.png";
      "createdBy" := "mallory"; "createdAt" := "1970-01-01"; "updatedAt" := "1970-01-01"]}
    None "http" "vault.example".

(** ** Vocabulary and samples for the remaining routes *)

(** The tables and the uploads directory are the same in both worlds (the
    console may differ). *)
Definition same_tables (w w' : World) : Prop :=
  users w' = users w ∧ groups w' = groups w ∧ people w' = people w ∧
  activityLogs w' = activityLogs w ∧ files w' = files w.

(** None of the calls of the remaining routes fails. *)
Definition no_fault_more : ext_call_more → option string := λ _, None.

(** Every call fails the way a disabled database endpoint does. *)
Definition endpoint_disabled : Invocation :=
  mkInvocation (λ _, Some "The endpoint has been disabled. Enable it using Neon API.")
    sample_now "00ff".
Definition endpoint_disabled_more : ext_call_more → option string :=
  λ _, Some "The endpoint has been disabled. Enable it using Neon API.".

Definition any_request : ApiRequest := mkApiRequest "u-ben" "" ∅.

(** The row [POST /api/people] leaves behind when everything succeeds: the
    inserted row with the URL of its QR code. *)
Definition created_person (I : Invocation) (id : Z) (validated : InsertPerson) : Person.t :=
  Person.mk id (random_hex I) (ins_fullName validated) (ins_birthDate validated)
    (ins_passportNumber validated) (ins_expirationDate validated)
    (ins_notes validated) (ins_groupId validated) (ins_status validated)
    (ins_photoUrl validated)
    (Some ("/uploads/qrcodes/qr-" ++ random_hex I ++ ".png"))
    (ins_createdBy validated) (now I) (now I).

(** The payload [sample_parse] lets through for [create_request]. *)
Definition dan_validated : InsertPerson :=
  mkInsertPerson "Dan" "1993-01-01" "P-4" "2030-01-01" (Some "") 1 true (Some "")
    "admin_user".

(** The update that stores the QR URL fails; nothing else does. *)
Definition qr_update_fails : Invocation :=
  mkInvocation
    (λ c, match c with call_updatePerson _ => Some "Connection terminated" | _ => None end)
    sample_now "00ff".

(** A creation request without a passport number. *)
Definition incomplete_request : Request :=
  mkRequest "admin_user" ""
    {["fullName" := "Dan"; "birthDate" := "1993-01-01"; "groupId" := "1"]}
    None "https" "vault.example".

(** An update of record 1 that leaves out the [status] field and comes with
    a new photo. *)
Definition photo_request : Request :=
  mkRequest "admin_user" "1"
    {["fullName" := "Ann Lee"; "groupId" := "2"; "photoUrl" := "/etc/passwd"]}
    (Some "photo-1-2.png") "http" "vault.example".

(** [path.join] on an absolute directory and a relative or rooted name. *)
Definition posix_join (dir name : string) : string :=
  match name with
  | String "/" _ => dir ++ name
  | _ => dir ++ "/" ++ name
  end.

Definition upload_env : Env :=
  mkEnv sample_Number sample_Date_parse utc_midnight posix_join "/app"
    "/app/uploads/qrcodes" sample_parse.

(** An incomplete creation form that comes with a photo. *)
Definition incomplete_photo_request : Request :=
  mkRequest "admin_user" ""
    {["fullName" := "Dan"; "birthDate" := "1993-01-01"; "groupId" := "1"]}
    (Some "photo-5-6.png") "https" "vault.example".

(** An update of record 1 without the [groupId] field, with a new photo. *)
Definition groupless_photo_request : Request :=
  mkRequest "admin_user" "1" {["fullName" := "Ann Lee"; "status" := "true"]}
    (Some "photo-7-8.png") "http" "vault.example".

(** An update of record 1 without the [groupId] field. *)
Definition groupless_request : Request :=
  mkRequest "admin_user" "1" {["fullName" := "Ann Lee"; "status" := "true"]}
    None "http" "vault.example".

Definition unknown_api_request : ApiRequest := mkApiRequest "admin_user" "999" ∅.

Definition group_a : Group.t := Group.mk 1 "A" "admin_user" 50 50.

(** The columns of a group row that a rename must not touch. *)
Definition group_frame (g : Group.t) : Z * string * Z :=
  (Group.id g, Group.createdBy g, Group.createdAt g).

(** The columns of a user row other than [isActive] and [updatedAt]. *)
Definition user_profile (u : User.t)
    : string * option string * option string * option string * option string * bool * Z :=
  (User.id u, User.email u, User.firstName u, User.lastName u, User.profileImageUrl u,
   User.isMainAdmin u, User.createdAt u).

(** Ada, a main admin, asks to deactivate Ben. *)
Definition deactivate_ben : ApiRequest :=
  mkApiRequest "u-ada" "u-ben" {["isActive" := VBool false]}.

(** Ben, who is no main admin, asks to activate himself. *)
Definition ben_activates_himself : ApiRequest :=
  mkApiRequest "u-ben" "u-ben" {["isActive" := VBool true]}.

Definition rename_group_request : ApiRequest :=
  mkApiRequest "u-ada" "1" {["name" := VStr "B"; "createdBy" := VStr "mallory"]}.

Definition rename_unknown_group_request : ApiRequest :=
  mkApiRequest "u-ada" "7" {["name" := VStr "B"]}.

(** Ben, after Ada has activated him. *)
Definition ben_active : User.t :=
  User.mk "u-ben" (Some "ben@example.com") (Some "Ben") (Some "K") None false true 20 20.

Definition active_world : World :=
  mkWorld [ada; ben_active] [group_a] [ann; bob; eve] [] ∅ [] 4 1.

(** A computation that leaves the activity log as it finds it. *)
Definition keeps_log {A} (m : M A) : Prop :=
  ∀ w, activityLogs (m w).2 = activityLogs w.

(** A computation that keeps every entry of the activity log and appends at
    most one. *)
Definition logs_at_most_one {A} (m : M A) : Prop :=
  ∀ w, ∃ entries,
    activityLogs (m w).2 = (activityLogs w ++ entries)%list ∧ (length entries ≤ 1)%nat.

(** What the expiration check may do to the world: each row of the people
    table is kept or deactivated in place; users, groups and files are left
    alone; the log keeps its entries and gains entries of the check. *)
Definition expiry_step (I : Invocation) (w w' : World) : Prop :=
  Forall2 (λ p p', p' = p ∨ p' = set_expired I p) (people w) (people w') ∧
  users w' = users w ∧ groups w' = groups w ∧ files w' = files w ∧
  ∃ entries,
    activityLogs w' = (activityLogs w ++ entries)%list ∧
    Forall (λ entry, ActivityLog.performedBy entry = "system" ∧
                     ActivityLog.entityType entry = "passport" ∧
                     ActivityLog.action entry = expired_action) entries.

(** The same invocation, except that every write to the activity log fails. *)
Definition log_down (I : Invocation) : Invocation :=
  mkInvocation
    (λ c, match c with
          | call_createActivityLog _ _ => Some "activity log unavailable"
          | c => fault I c
          end)
    (now I) (random_hex I).

(** The response and every table but the log are the same. *)
Definition same_outcome {A} (r r' : outcome A * World) : Prop :=
  r'.1 = r.1 ∧ users r'.2 = users r.2 ∧ groups r'.2 = groups r.2 ∧
  people r'.2 = people r.2 ∧ files r'.2 = files r.2.

(** Ada asks to update Ben's account but sends no [isActive]. *)
Definition touch_ben : ApiRequest := mkApiRequest "u-ada" "u-ben" ∅.

(** Ada asks to deactivate an account that does not exist. *)
Definition deactivate_nobody : ApiRequest :=
  mkApiRequest "u-ada" "u-zed" {["isActive" := VBool false]}.

(** Zed signs in for the first time; the identity provider gives no name. *)
Definition zed_first_login : UpsertUser :=
  mkUpsertUser "u-zed" (Some (Some "zed@example.com")) None None None None None.

(** * Properties *)

Local Open Scope js_scope.

(** ** What the helpers do to the store *)

Lemma logActivity_run I action entityType entityId userId details w :
  logActivity I action entityType entityId userId details w =
    match fault I (call_createActivityLog entityType entityId) with
    | None =>
        (Returned tt,
         insert_log_row
           (ActivityLog.mk (activity_logs_id_seq w) action entityType entityId
              userId details (now I)) w)
    | Some msg =>
        (Returned tt, print (console_error "Error logging activity:" (Error msg)) w)
    end.
Proof.
  unfold logActivity, createActivityLog, try_catch, bind, external.
  destruct (fault I _); reflexivity.
Qed.

Lemma logActivity_people I action entityType entityId userId details w :
  people (logActivity I action entityType entityId userId details w).2 = people w.
Proof. rewrite logActivity_run. destruct (fault I _); reflexivity. Qed.

(** ** The update handler never writes the frozen columns *)

Lemma updateData_stripped E req column :
  column ∈ ["id"; "photo"; "publicId"; "qrCodeUrl"; "createdBy"; "createdAt"; "updatedAt"] →
  updateData E req !! column = None.
Proof.
  intros Hin. unfold updateData.
  repeat (apply elem_of_cons in Hin as [-> | Hin];
          [repeat first [apply lookup_delete_eq | rewrite lookup_delete_ne by done] |]).
  inversion Hin.
Qed.

Lemma param_absent {A} (coerce : jsval → option A) data column :
  data !! column = None → param coerce data column = Some None.
Proof. intros H. unfold param. rewrite H. reflexivity. Qed.

Lemma mapUpdateSet_stripped E req s :
  mapUpdateSet (updateData E req) = Some s →
  set_id s = None ∧ set_publicId s = None ∧ set_qrCodeUrl s = None ∧
  set_createdBy s = None ∧ set_createdAt s = None.
Proof.
  unfold mapUpdateSet.
  rewrite !(param_absent _ _ "id"), !(param_absent _ _ "publicId"),
    !(param_absent _ _ "qrCodeUrl"), !(param_absent _ _ "createdBy"),
    !(param_absent _ _ "createdAt")
    by (apply updateData_stripped; set_solver).
  intros H. simplify_option_eq. auto.
Qed.

Lemma frozen_update_where cond set rows :
  (∀ p, frozen (set p) = frozen p) →
  frozen <$> update_where cond set rows = frozen <$> rows.
Proof.
  intros Hset. unfold update_where. rewrite <- list_fmap_compose.
  apply list_fmap_ext. intros _ p _. simpl. destruct (cond p); auto.
Qed.

(** C1. Whatever keys the payload of [PUT /api/people/:id] carries, and
    whichever external call fails: the object the handler passes to
    [storage.updatePerson] has no [publicId], [qrCodeUrl], [createdBy] or
    [createdAt] key, and the request leaves these four columns (and the
    [id]) of every row of the people table as they were. *)
Theorem put_people_keeps_frozen_columns E I req w :
  (∀ column, column ∈ ["publicId"; "qrCodeUrl"; "createdBy"; "createdAt"] →
             updateData E req !! column = None) ∧
  frozen <$> people (exec (put_people E I req) w) = frozen <$> people w.
Proof.
  split.
  { intros column Hcolumn. apply updateData_stripped.
    repeat (apply elem_of_cons in Hcolumn as [-> | Hcolumn]; [set_solver |]).
    inversion Hcolumn. }
  unfold exec, put_people, try_catch, bind, updatePerson, external, integer_param.
  destruct (fault I _); [reflexivity |]. simpl.
  destruct (Number E (params_id req)) as [id |]; [| reflexivity]. simpl.
  destruct (mapUpdateSet (updateData E req)) as [s |] eqn:Hs; [| reflexivity].
  apply mapUpdateSet_stripped in Hs as (Hid & Hpub & Hqr & Hby & Hat).
  assert (Hset : ∀ p, frozen (apply_set I s p) = frozen p).
  { intros p. unfold frozen, apply_set. simpl.
    rewrite Hid, Hpub, Hqr, Hby, Hat. reflexivity. }
  simpl. destruct (updated_first _ _ _) as [person |]; simpl.
  - rewrite logActivity_run. destruct (fault I _); simpl;
      apply frozen_update_where, Hset.
  - apply frozen_update_where, Hset.
Qed.

(** A request that tries to overwrite the frozen columns of Ann's row: the
    name changes, the frozen columns do not. *)
Example put_people_ignores_frozen_keys :
  returning_first (has_id 1)
    (people (exec (put_people sample_env no_fault overwrite_request) sample_world))
  = Some (Person.mk 1 "a1" "Ann Lee" "1990-01-01" "P-1" "2024-01-01" None 1 true
            (Some "/uploads/photos/ann.png") (Some "/uploads/qrcodes/qr-a1.png")
            "admin_user" 100 sample_now).
Proof. vm_compute. reflexivity. Qed.

(** [storage.updatePerson] itself would write them: the guarantee rests on
    the keys the handler deletes. *)
Example updatePerson_writes_any_column :
  Person.publicId <$>
    returning_first (has_id 1)
      (people (exec (updatePerson no_fault (Some 1) {["publicId" := VStr "forged"]})
                 sample_world))
  = Some "forged".
Proof. vm_compute. reflexivity. Qed.

(** ** The expiration check *)

Lemma expiration_body_skip E I today person w :
  is_expired E today person = false →
  expiration_body E I today person w = (Returned tt, w).
Proof.
  unfold is_expired, expiration_body. intros H.
  destruct (Person.status person); [| reflexivity].
  simpl in H. rewrite H. reflexivity.
Qed.

Lemma expiration_body_hit E I today person w :
  is_expired E today person = true →
  expiration_body E I today person w =
    match fault I (call_markPersonExpired (Person.id person)) with
    | Some msg => (Thrown (Error msg), w)
    | None =>
        let w1 := with_people (update_where (has_id (Person.id person)) (set_expired I)) w in
        let w2 := (logActivity I expired_action "passport" (toString (Person.id person))
                     "system"
                     (Some [("fullName", VStr (Person.fullName person));
                            ("expirationDate", VStr (Person.expirationDate person))])
                     w1).2 in
        (Returned tt,
         print (console_log ("Marked passport " ++ toString (Person.id person) ++ " (" ++
                             Person.fullName person ++ ") as expired")) w2)
    end.
Proof.
  unfold is_expired, expiration_body. intros [Hs Hd]%andb_true_iff.
  rewrite Hs, Hd. unfold bind, markPersonExpired, external, bind.
  destruct (fault I (call_markPersonExpired _)); [reflexivity |]. simpl.
  rewrite logActivity_run. destruct (fault I _); reflexivity.
Qed.

(** The loop over the snapshot, when no status update fails: every row that
    shares its id with an expired record of the snapshot is deactivated, the
    others are not touched. *)
Lemma for_of_expiration_people E I today scanned w :
  (∀ id, fault I (call_markPersonExpired id) = None) →
  (for_of scanned (expiration_body E I today) w).1 = Returned tt ∧
  people (for_of scanned (expiration_body E I today) w).2 =
    map (λ row, if hit E today scanned row then set_expired I row else row) (people w).
Proof.
  intros Hok. revert w. induction scanned as [| p rest IH]; intros w.
  - simpl. split; [reflexivity |]. symmetry. apply map_id.
  - simpl. unfold bind.
    destruct (is_expired E today p) eqn:Hp.
    + rewrite expiration_body_hit by exact Hp. rewrite Hok. cbv beta iota zeta.
      match goal with |- context [for_of rest _ ?w1] => destruct (IH w1) as [IH1 IH2] end.
      split; [exact IH1 |]. rewrite IH2. simpl. rewrite logActivity_people. simpl.
      unfold update_where. rewrite map_map. apply map_ext. intros row.
      destruct (has_id (Person.id p) row) eqn:Hrow; simpl.
      * change (hit E today rest (set_expired I row)) with (hit E today rest row).
        destruct (hit E today rest row); reflexivity.
      * reflexivity.
    + rewrite expiration_body_skip by exact Hp.
      destruct (IH w) as [IH1 IH2]. split; [exact IH1 |]. rewrite IH2.
      apply map_ext. intros row. reflexivity.
Qed.

Lemma for_of_expiration_logs E I today scanned w :
  (∀ c, fault I c = None) →
  activityLogs (for_of scanned (expiration_body E I today) w).2 =
    (activityLogs w ++
     expiry_entries I (activity_logs_id_seq w) (List.filter (is_expired E today) scanned))%list.
Proof.
  intros Hok. revert w. induction scanned as [| p rest IH]; intros w.
  - simpl. symmetry. apply app_nil_r.
  - simpl. unfold bind. destruct (is_expired E today p) eqn:Hp.
    + rewrite expiration_body_hit by exact Hp. rewrite Hok. cbv beta iota zeta.
      rewrite IH. rewrite logActivity_run, Hok. simpl.
      rewrite <- app_assoc. reflexivity.
    + rewrite expiration_body_skip by exact Hp. apply IH.
Qed.

Lemma expiry_entries_Forall2 I seq expired :
  Forall2
    (λ p entry,
       ActivityLog.performedBy entry = "system" ∧
       ActivityLog.entityType entry = "passport" ∧
       ActivityLog.entityId entry = toString (Person.id p) ∧
       ActivityLog.details entry =
         Some [("fullName", VStr (Person.fullName p));
               ("expirationDate", VStr (Person.expirationDate p))])
    expired (expiry_entries I seq expired).
Proof.
  revert seq. induction expired as [| p rest IH]; intros seq; simpl.
  - constructor.
  - constructor; [auto | apply IH].
Qed.

Lemma getAllPeople_ok I w :
  fault I call_getAllPeople = None →
  getAllPeople I w = (Returned (orderBy (desc Person.createdAt) (people w)), w).
Proof. intros H. unfold getAllPeople, try_catch, bind, external. rewrite H. reflexivity. Qed.

Lemma getAllPeople_cases I w :
  getAllPeople I w = (Returned (orderBy (desc Person.createdAt) (people w)), w) ∨
  getAllPeople I w = (Returned [], w) ∨
  ∃ e, getAllPeople I w = (Thrown e, w).
Proof.
  unfold getAllPeople, try_catch, bind, external.
  destruct (fault I call_getAllPeople) as [msg |]; simpl; [| auto].
  destruct (includes _ msg); eauto.
Qed.

Lemma elem_of_orderBy {A} (R : relation A) `{∀ a b, Decision (R a b)} (l : list A) x :
  x ∈ orderBy R l ↔ x ∈ l.
Proof. unfold orderBy. rewrite merge_sort_Permutation. reflexivity. Qed.

Lemma NoDup_fmap_eq {A B} (f : A → B) (l : list A) x y :
  NoDup (f <$> l) → x ∈ l → y ∈ l → f x = f y → x = y.
Proof.
  induction l as [| a l IH]; intros Hnd Hx Hy Hf; [inversion Hx |].
  rewrite fmap_cons in Hnd. apply NoDup_cons in Hnd as [Ha Hnd].
  apply elem_of_cons in Hx as [-> | Hx]; apply elem_of_cons in Hy as [-> | Hy].
  - reflexivity.
  - exfalso. apply Ha. rewrite Hf. apply list_elem_of_fmap_2. exact Hy.
  - exfalso. apply Ha. rewrite <- Hf. apply list_elem_of_fmap_2. exact Hx.
  - auto.
Qed.

Lemma hit_true E today scanned row :
  hit E today scanned row = true ↔
  ∃ p, p ∈ scanned ∧ is_expired E today p = true ∧ Person.id row = Person.id p.
Proof.
  unfold hit. rewrite existsb_exists. split.
  - intros (p & Hin & [Hp Hid]%andb_true_iff). exists p.
    apply list_elem_of_In in Hin. unfold has_id in Hid. split_and!; [done .. | lia].
  - intros (p & Hin & Hp & Hid). exists p. apply list_elem_of_In in Hin.
    split; [done |]. rewrite Hp. unfold has_id. simpl. lia.
Qed.

(** ** C2-C4: what one run of the check does *)

(** The condition of the check, read off the code's nested tests. *)
Lemma is_expired_true E today p :
  is_expired E today p = true ↔
  Person.status p = true ∧
  ∃ t, Date_parse E (Person.expirationDate p) = Some t ∧ setHours0 E t < today.
Proof.
  unfold is_expired, date_lt. rewrite andb_true_iff.
  destruct (Date_parse E (Person.expirationDate p)) as [t |]; simpl.
  - rewrite Z.ltb_lt. split.
    + intros [Hs Ht]. eauto.
    + intros (Hs & t' & [= <-] & Ht). auto.
  - split; [intros [_ [=]] | intros (_ & t & [=] & _)].
Qed.

Lemma NoDup_List_filter {A} (cond : A → bool) (l : list A) :
  NoDup l → NoDup (List.filter cond l).
Proof.
  induction 1 as [| x l Hx Hl IH]; simpl; [constructor |].
  destruct (cond x); [| exact IH].
  constructor; [| exact IH].
  intros [Hin _]%list_elem_of_In%filter_In. apply Hx, list_elem_of_In, Hin.
Qed.

(** A run in which no call fails, as a map over the table and a list of
    appended entries. *)
Lemma expiration_check_run E I w :
  (∀ c, fault I c = None) →
  NoDup (Person.id <$> people w) →
  let today := setHours0 E (now I) in
  let w' := exec (expiration_check E I) w in
  people w' =
    map (λ p, if is_expired E today p then set_expired I p else p) (people w) ∧
  activityLogs w' =
    (activityLogs w ++
     expiry_entries I (activity_logs_id_seq w)
       (List.filter (is_expired E today) (orderBy (desc Person.createdAt) (people w))))%list.
Proof.
  intros Hok Hnd today w'. subst w'.
  unfold exec, expiration_check, bind, modify, try_catch.
  cbv beta iota zeta. rewrite getAllPeople_ok by apply Hok. cbv beta iota zeta.
  fold today.
  set (w0 := print _ w).
  set (scanned := orderBy (desc Person.createdAt) (people w0)).
  destruct (for_of_expiration_people E I today scanned w0) as [Hres Hpeople];
    [intros id; apply Hok |].
  pose proof (for_of_expiration_logs E I today scanned w0 Hok) as Hlogs.
  destruct (for_of scanned (expiration_body E I today) w0) as [o w1] eqn:Hrun.
  simpl in Hres, Hpeople, Hlogs. subst o. simpl. split.
  - rewrite Hpeople. subst w0. simpl. apply map_ext_in. intros row Hrow.
    apply list_elem_of_In in Hrow.
    destruct (hit E today scanned row) eqn:Hhit.
    + apply hit_true in Hhit as (p & Hin & Hp & Hid).
      apply elem_of_orderBy in Hin.
      assert (row = p) as -> by (eapply NoDup_fmap_eq; eauto).
      rewrite Hp. reflexivity.
    + destruct (is_expired E today row) eqn:Hexp; [| reflexivity].
      assert (hit E today scanned row = true) as Hhit'; [| congruence].
      apply hit_true. exists row. split_and!; [| done..].
      apply elem_of_orderBy. exact Hrow.
  - exact Hlogs.
Qed.

(** C2. When no external call fails and ids are unique, one run of the
    expiration check turns [status] to false on exactly the rows whose
    [status] is true and whose expiration date, truncated to its day, is
    strictly before today's midnight: such a row comes out with [status]
    false, [updatedAt] the current time and every other column as it was,
    and every other row is left as it was.  For each such record, once, the
    run appends one activity-log entry whose performer is ["system"] and
    whose details hold the record's full name and expiration date. *)
Theorem expiration_check_transitions E I w :
  (∀ c, fault I c = None) →
  NoDup (Person.id <$> people w) →
  let today := setHours0 E (now I) in
  let w' := exec (expiration_check E I) w in
  Forall2
    (λ p p',
       ((Person.status p = true ∧
         ∃ t, Date_parse E (Person.expirationDate p) = Some t ∧ setHours0 E t < today) →
        Person.status p' = false ∧
        p' = Person.mk (Person.id p) (Person.publicId p) (Person.fullName p)
               (Person.birthDate p) (Person.passportNumber p) (Person.expirationDate p)
               (Person.notes p) (Person.groupId p) false (Person.photoUrl p)
               (Person.qrCodeUrl p) (Person.createdBy p) (Person.createdAt p) (now I)) ∧
       (¬ (Person.status p = true ∧
           ∃ t, Date_parse E (Person.expirationDate p) = Some t ∧ setHours0 E t < today) →
        p' = p))
    (people w) (people w') ∧
  ∃ expired entries,
    (∀ p, p ∈ expired ↔
          p ∈ people w ∧ Person.status p = true ∧
          ∃ t, Date_parse E (Person.expirationDate p) = Some t ∧ setHours0 E t < today) ∧
    NoDup expired ∧
    activityLogs w' = (activityLogs w ++ entries)%list ∧
    Forall2
      (λ p entry,
         ActivityLog.performedBy entry = "system" ∧
         ActivityLog.entityType entry = "passport" ∧
         ActivityLog.entityId entry = toString (Person.id p) ∧
         ActivityLog.details entry =
           Some [("fullName", VStr (Person.fullName p));
                 ("expirationDate", VStr (Person.expirationDate p))])
      expired entries.
Proof.
  intros Hok Hnd today w'.
  destruct (expiration_check_run E I w Hok Hnd) as [Hpeople Hlogs].
  subst today w'. set (today := setHours0 E (now I)) in *. split.
  - rewrite Hpeople. apply Forall2_fmap_r, Forall_Forall2_diag, Forall_forall.
    intros p _. unfold compose. destruct (is_expired E today p) eqn:Hp.
    + split; [intros _; split; reflexivity |].
      intros Hnot. exfalso. apply Hnot, is_expired_true, Hp.
    + split; [| reflexivity].
      intros Hcond%is_expired_true. congruence.
  - exists (List.filter (is_expired E today) (orderBy (desc Person.createdAt) (people w))).
    eexists. split_and!; [| | exact Hlogs | apply expiry_entries_Forall2].
    + intros p. rewrite list_elem_of_In, filter_In, <- list_elem_of_In.
      rewrite elem_of_orderBy, is_expired_true. reflexivity.
    + apply NoDup_List_filter. unfold orderBy.
      apply (NoDup_fmap_1 Person.id). rewrite merge_sort_Permutation. exact Hnd.
Qed.

(** Ann and Bob, expired and active, are deactivated and logged (Bob, the
    newer record, first); Eve, valid until 2030, is not touched. *)
Lemma expiration_check_transitions_witness :
  let today := setHours0 sample_env (now no_fault) in
  let w' := exec (expiration_check sample_env no_fault) sample_world in
  (Forall2
     (λ p p',
        ((Person.status p = true ∧
          ∃ t, Date_parse sample_env (Person.expirationDate p) = Some t ∧
               setHours0 sample_env t < today) →
         Person.status p' = false ∧
         p' = Person.mk (Person.id p) (Person.publicId p) (Person.fullName p)
                (Person.birthDate p) (Person.passportNumber p) (Person.expirationDate p)
                (Person.notes p) (Person.groupId p) false (Person.photoUrl p)
                (Person.qrCodeUrl p) (Person.createdBy p) (Person.createdAt p)
                (now no_fault)) ∧
        (¬ (Person.status p = true ∧
            ∃ t, Date_parse sample_env (Person.expirationDate p) = Some t ∧
                 setHours0 sample_env t < today) →
         p' = p))
     (people sample_world) (people w') ∧
   ∃ expired entries,
     (∀ p, p ∈ expired ↔
           p ∈ people sample_world ∧ Person.status p = true ∧
           ∃ t, Date_parse sample_env (Person.expirationDate p) = Some t ∧
                setHours0 sample_env t < today) ∧
     NoDup expired ∧
     activityLogs w' = (activityLogs sample_world ++ entries)%list ∧
     Forall2
       (λ p entry,
          ActivityLog.performedBy entry = "system" ∧
          ActivityLog.entityType entry = "passport" ∧
          ActivityLog.entityId entry = toString (Person.id p) ∧
          ActivityLog.details entry =
            Some [("fullName", VStr (Person.fullName p));
                  ("expirationDate", VStr (Person.expirationDate p))])
       expired entries) ∧
  people w' =
    [Person.mk 1 "a1" "Ann" "1990-01-01" "P-1" "2024-01-01" None 1 false
       (Some "/uploads/photos/ann.png") (Some "/uploads/qrcodes/qr-a1.png")
       "admin_user" 100 1749947400000;
     Person.mk 2 "b2" "Bob" "1991-01-01" "P-2" "2024-01-01" None 1 false
       None None "admin_user" 200 1749947400000;
     Person.mk 3 "c3" "Eve" "1992-01-01" "P-3" "2030-01-01" None 1 true
       None None "admin_user" 300 300] ∧
  activityLogs w' =
    [ActivityLog.mk 1 expired_action "passport" "2" "system"
       (Some [("fullName", VStr "Bob"); ("expirationDate", VStr "2024-01-01")])
       1749947400000;
     ActivityLog.mk 2 expired_action "passport" "1" "system"
       (Some [("fullName", VStr "Ann"); ("expirationDate", VStr "2024-01-01")])
       1749947400000].
Proof.
  cbv zeta. split; [| split].
  - apply (expiration_check_transitions sample_env no_fault sample_world).
    + reflexivity.
    + apply (bool_decide_unpack _). vm_compute. reflexivity.
  - vm_compute. reflexivity.
  - vm_compute. reflexivity.
Defined.

Lemma for_of_expiration_none E I today scanned w :
  (∀ p, p ∈ scanned → is_expired E today p = false) →
  for_of scanned (expiration_body E I today) w = (Returned tt, w).
Proof.
  induction scanned as [| p rest IH]; intros Hnone; [reflexivity |].
  simpl. unfold bind. rewrite expiration_body_skip by (apply Hnone; left).
  apply IH. intros q Hq. apply Hnone. right. exact Hq.
Qed.

(** After a run in which the listing and every status update succeeded, no
    row satisfies the expiration condition any more. *)
Lemma expiration_check_leaves_none E I w :
  fault I call_getAllPeople = None →
  (∀ id, fault I (call_markPersonExpired id) = None) →
  ∀ p, p ∈ people (exec (expiration_check E I) w) →
       is_expired E (setHours0 E (now I)) p = false.
Proof.
  intros Hlist Hmark p.
  unfold exec, expiration_check, bind, modify, try_catch.
  cbv beta iota zeta. rewrite getAllPeople_ok by exact Hlist. cbv beta iota zeta.
  set (today := setHours0 E (now I)). set (w0 := print _ w).
  set (scanned := orderBy (desc Person.createdAt) (people w0)).
  destruct (for_of_expiration_people E I today scanned w0 Hmark) as [Hres Hpeople].
  destruct (for_of scanned (expiration_body E I today) w0) as [o w1].
  simpl in Hres, Hpeople. subst o. simpl. rewrite Hpeople.
  intros Hp. apply list_elem_of_In, in_map_iff in Hp as (row & <- & Hrow).
  apply list_elem_of_In in Hrow.
  destruct (hit E today scanned row) eqn:Hhit; [reflexivity |].
  destruct (is_expired E today row) eqn:Hexp; [| reflexivity].
  assert (hit E today scanned row = true) as Hhit'; [| congruence].
  apply hit_true. exists row. split_and!; [| done..].
  apply elem_of_orderBy. exact Hrow.
Qed.

(** A run that finds no row satisfying the condition changes neither the
    people table nor the activity log, whatever fails. *)
Lemma expiration_check_idle E I w :
  (∀ p, p ∈ people w → is_expired E (setHours0 E (now I)) p = false) →
  people (exec (expiration_check E I) w) = people w ∧
  activityLogs (exec (expiration_check E I) w) = activityLogs w.
Proof.
  intros Hnone.
  unfold exec, expiration_check, bind, modify, try_catch. cbv beta iota zeta.
  set (w0 := print _ w).
  destruct (getAllPeople_cases I w0) as [-> | [-> | [e ->]]]; cbv beta iota zeta.
  - rewrite for_of_expiration_none; [split; reflexivity |].
    intros p Hp. apply elem_of_orderBy in Hp. apply Hnone. exact Hp.
  - simpl. split; reflexivity.
  - split; reflexivity.
Qed.

(** C3. Two runs of the expiration check on the same day, with nothing in
    between: once the first run has listed the records and performed its
    status updates, no row satisfies the expiration condition (every
    transitioned row has [status] false), and the second run, whatever
    happens to its own calls, changes no row and writes no log entry. *)
Theorem expiration_check_twice E I1 I2 w :
  fault I1 call_getAllPeople = None →
  (∀ id, fault I1 (call_markPersonExpired id) = None) →
  setHours0 E (now I2) = setHours0 E (now I1) →
  let w1 := exec (expiration_check E I1) w in
  let w2 := exec (expiration_check E I2) w1 in
  (∀ p, p ∈ people w1 → is_expired E (setHours0 E (now I2)) p = false) ∧
  people w2 = people w1 ∧
  activityLogs w2 = activityLogs w1.
Proof.
  intros Hlist Hmark Hday w1 w2.
  assert (Hnone : ∀ p, p ∈ people w1 → is_expired E (setHours0 E (now I2)) p = false).
  { rewrite Hday. apply expiration_check_leaves_none; assumption. }
  split; [exact Hnone |]. apply expiration_check_idle. exact Hnone.
Qed.

Lemma expiration_check_twice_witness :
  let w1 := exec (expiration_check sample_env no_fault) sample_world in
  let w2 := exec (expiration_check sample_env later_same_day) w1 in
  (∀ p, p ∈ people w1 →
        is_expired sample_env (setHours0 sample_env (now later_same_day)) p = false) ∧
  people w2 = people w1 ∧
  activityLogs w2 = activityLogs w1.
Proof.
  apply (expiration_check_twice sample_env no_fault later_same_day sample_world).
  - reflexivity.
  - reflexivity.
  - vm_compute. reflexivity.
Defined.

(** The first run does transition records in the sample world, so the
    statement above is not about an idle scheduler. *)
Example expiration_check_first_run_transitions :
  map Person.status (people sample_world) = [true; true; true] ∧
  map Person.status (people (exec (expiration_check sample_env no_fault) sample_world))
    = [false; false; true].
Proof. split; vm_compute; reflexivity. Qed.

(** The run never raises: its single [try]/[catch] encloses the listing and
    the whole loop. *)
Lemma expiration_check_never_raises E I w :
  result (expiration_check E I) w = Returned tt.
Proof.
  unfold result, expiration_check, bind, modify, try_catch. cbv beta iota zeta.
  destruct (getAllPeople I _) as [[scanned | e] w0]; [| reflexivity].
  destruct (for_of scanned _ w0) as [[[] | e] w1]; reflexivity.
Qed.

(** C4, counterexample.  The scan visits Eve, Bob, Ann (newest first).  The
    update of Bob throws, the exception leaves the loop, and Ann, expired as
    well and whose update would not have failed, stays active. *)
Lemma expiration_check_failure_aborts_run :
  ¬ isolates_record_failures sample_env bob_update_fails sample_world.
Proof.
  intros H. destruct (H ann) as (p' & Hin & Hid & Hstatus).
  - set_solver.
  - reflexivity.
  - reflexivity.
  - assert (people (exec (expiration_check sample_env bob_update_fails) sample_world)
            = [ann; bob; eve]) as Hpeople by (vm_compute; reflexivity).
    rewrite Hpeople in Hin.
    repeat (apply elem_of_cons in Hin as [-> | Hin]; [discriminate |]).
    inversion Hin.
Qed.

(** When the listing and the status updates succeed, whatever happens to
    the log writes, every expired record of the table comes out of the run
    as its [set_expired] image. *)
Lemma expiration_check_updates_all E I w :
  fault I call_getAllPeople = None →
  (∀ id, fault I (call_markPersonExpired id) = None) →
  ∀ p, p ∈ people w →
    is_expired E (setHours0 E (now I)) p = true →
    set_expired I p ∈ people (exec (expiration_check E I) w).
Proof.
  intros Hlist Hmark p Hp Hexp.
  unfold exec, expiration_check, bind, modify, try_catch.
  cbv beta iota zeta. rewrite getAllPeople_ok by exact Hlist. cbv beta iota zeta.
  set (today := setHours0 E (now I)) in *. set (w0 := print _ w).
  set (scanned := orderBy (desc Person.createdAt) (people w0)).
  destruct (for_of_expiration_people E I today scanned w0 Hmark) as [Hres Hpeople].
  destruct (for_of scanned (expiration_body E I today) w0) as [o w1].
  simpl in Hres, Hpeople. subst o. simpl. rewrite Hpeople.
  apply list_elem_of_In, in_map_iff. exists p. split.
  - assert (hit E today scanned p = true) as ->; [| reflexivity].
    apply hit_true. exists p. split_and!; [| done..].
    apply elem_of_orderBy. exact Hp.
  - apply list_elem_of_In. exact Hp.
Qed.

(** C4, amended.  A failed write of an activity-log entry does not stop the
    run: whenever the listing and the status updates themselves succeed,
    every record whose [status] is true and whose expiration date, truncated
    to its day, is before today's midnight is transitioned in that run (a
    row with its id, [status] false and [updatedAt] the current time is in
    the table afterwards), and the run returns without raising. *)
Theorem expiration_check_isolates_log_failures E I w :
  fault I call_getAllPeople = None →
  (∀ id, fault I (call_markPersonExpired id) = None) →
  result (expiration_check E I) w = Returned tt ∧
  ∀ p, p ∈ people w →
    Person.status p = true →
    (∃ t, Date_parse E (Person.expirationDate p) = Some t ∧
          setHours0 E t < setHours0 E (now I)) →
    ∃ p', p' ∈ people (exec (expiration_check E I) w) ∧
          Person.id p' = Person.id p ∧
          Person.status p' = false ∧
          p' = Person.mk (Person.id p) (Person.publicId p) (Person.fullName p)
                 (Person.birthDate p) (Person.passportNumber p) (Person.expirationDate p)
                 (Person.notes p) (Person.groupId p) false (Person.photoUrl p)
                 (Person.qrCodeUrl p) (Person.createdBy p) (Person.createdAt p) (now I).
Proof.
  intros Hlist Hmark. split; [apply expiration_check_never_raises |].
  intros p Hp Hstatus Hdate.
  exists (set_expired I p). split_and!; try reflexivity.
  apply expiration_check_updates_all; try assumption.
  apply is_expired_true. auto.
Qed.

(** Every log write fails: Ann and Bob are deactivated all the same, and
    the log stays empty. *)
Lemma expiration_check_isolates_log_failures_witness :
  (result (expiration_check sample_env log_writes_fail) sample_world = Returned tt ∧
   ∀ p, p ∈ people sample_world →
     Person.status p = true →
     (∃ t, Date_parse sample_env (Person.expirationDate p) = Some t ∧
           setHours0 sample_env t < setHours0 sample_env (now log_writes_fail)) →
     ∃ p', p' ∈ people (exec (expiration_check sample_env log_writes_fail) sample_world) ∧
           Person.id p' = Person.id p ∧
           Person.status p' = false ∧
           p' = Person.mk (Person.id p) (Person.publicId p) (Person.fullName p)
                  (Person.birthDate p) (Person.passportNumber p) (Person.expirationDate p)
                  (Person.notes p) (Person.groupId p) false (Person.photoUrl p)
                  (Person.qrCodeUrl p) (Person.createdBy p) (Person.createdAt p)
                  (now log_writes_fail)) ∧
  map (λ p, (Person.id p, Person.status p))
    (people (exec (expiration_check sample_env log_writes_fail) sample_world))
    = [(1, false); (2, false); (3, true)] ∧
  activityLogs (exec (expiration_check sample_env log_writes_fail) sample_world) = [].
Proof.
  split; [| split].
  - apply (expiration_check_isolates_log_failures sample_env log_writes_fail sample_world).
    + reflexivity.
    + reflexivity.
  - vm_compute. reflexivity.
  - vm_compute. reflexivity.
Defined.

(** ** C5: updating a record that does not exist *)

Lemma filter_none {A} (cond : A → bool) (rows : list A) :
  (∀ row, row ∈ rows → cond row = false) → List.filter cond rows = [].
Proof.
  induction rows as [| row rows IH]; intros Hnone; [reflexivity |].
  simpl. rewrite Hnone by left. apply IH. intros r Hr. apply Hnone. right. exact Hr.
Qed.

Lemma update_where_none {A} (cond : A → bool) (set : A → A) (rows : list A) :
  (∀ row, row ∈ rows → cond row = false) → update_where cond set rows = rows.
Proof.
  intros Hnone. unfold update_where. rewrite <- (map_id rows) at 2.
  apply map_ext_in. intros row Hrow. rewrite Hnone; [reflexivity |].
  apply list_elem_of_In. exact Hrow.
Qed.

(** C5.  For an id that no row of the people table carries,
    [PUT /api/people/:id] writes no activity-log entry and changes no row,
    but it answers 400, not 404: [storage.updatePerson] returns [undefined],
    reading [person.fullName] throws, and the handler's [catch] turns every
    exception into a 400 carrying the exception's message. *)
Theorem put_people_unknown_id E I req w :
  (∀ p, p ∈ people w → Number E (params_id req) ≠ Some (Person.id p)) →
  (∃ msg, result (put_people E I req) w = Returned (mkResponse 400 (JMessage msg))) ∧
  activityLogs (exec (put_people E I req) w) = activityLogs w ∧
  people (exec (put_people E I req) w) = people w.
Proof.
  intros Hunknown.
  unfold result, exec, put_people, try_catch, bind, updatePerson, external, integer_param.
  destruct (fault I _); [simpl; eauto |]. simpl.
  destruct (Number E (params_id req)) as [id |]; [| simpl; eauto]. simpl.
  destruct (mapUpdateSet (updateData E req)) as [s |]; [| simpl; eauto]. simpl.
  assert (Hnone : ∀ p, p ∈ people w → has_id id p = false).
  { intros p Hp. unfold has_id. apply Z.eqb_neq. intros Heq.
    apply (Hunknown p Hp). congruence. }
  unfold updated_first. rewrite filter_none by exact Hnone. simpl.
  rewrite update_where_none by exact Hnone. eauto.
Qed.

Lemma put_people_unknown_id_witness :
  (∃ msg, result (put_people sample_env no_fault put_unknown_request) sample_world
          = Returned (mkResponse 400 (JMessage msg))) ∧
  activityLogs (exec (put_people sample_env no_fault put_unknown_request) sample_world)
    = activityLogs sample_world ∧
  people (exec (put_people sample_env no_fault put_unknown_request) sample_world)
    = people sample_world.
Proof.
  apply (put_people_unknown_id sample_env no_fault put_unknown_request sample_world).
  intros p Hp. vm_compute in Hp.
  repeat (apply elem_of_cons in Hp as [-> | Hp]; [vm_compute; discriminate |]).
  inversion Hp.
Defined.

(** The response at the sample request, in full. *)
Example put_people_unknown_id_response :
  result (put_people sample_env no_fault put_unknown_request) sample_world =
    Returned (mkResponse 400
      (JMessage "Cannot read properties of undefined (reading 'fullName')")).
Proof. vm_compute. reflexivity. Qed.

(** The sibling handler [DELETE /api/people/:id] does answer 404 there. *)
Example delete_people_unknown_id_response :
  result (delete_people sample_env no_fault put_unknown_request) sample_world =
    Returned (mkResponse 404 (JMessage "Person not found")).
Proof. vm_compute. reflexivity. Qed.

(** ** C6: deleting a record and its assets *)

Lemma with_files_same (removed : gset string) w :
  removed ## files w → with_files (λ fs, fs ∖ removed) w = w.
Proof.
  intros Hdisj. destruct w as [us gs ps ls fs cs s1 s2]. unfold with_files. simpl in *.
  f_equal. apply difference_disjoint_L. symmetry. exact Hdisj.
Qed.

(** Removing an asset when no removal of an existing file fails: the file
    is gone afterwards, and a URL that is empty or names no existing file is
    skipped. *)
Lemma remove_asset_ok E I url w :
  (∀ path, path ∈ files w → fault I (call_fs_unlinkSync path) = None) →
  remove_asset E I url w = (Returned tt, with_files (λ fs, fs ∖ asset_paths E url) w).
Proof.
  intros Hok. unfold remove_asset, asset_paths.
  destruct (truthy url).
  - unfold bind, fs_existsSync, fs_unlinkSync, external, bind, get. simpl.
    case_bool_decide as Hfound.
    + rewrite (Hok _ Hfound). reflexivity.
    + simpl. rewrite with_files_same by set_solver. reflexivity.
  - rewrite with_files_same by set_solver. reflexivity.
Qed.

(** A removal that throws leaves the store as it was. *)
Lemma remove_asset_fails E I url w msg :
  truthy url = true →
  path_join E (cwd E) (default "" url) ∈ files w →
  fault I (call_fs_unlinkSync (path_join E (cwd E) (default "" url))) = Some msg →
  remove_asset E I url w = (Thrown (Error msg), w).
Proof.
  intros Hurl Hfound Hfail. unfold remove_asset. rewrite Hurl.
  unfold bind, fs_existsSync, fs_unlinkSync, external, bind, get. simpl.
  rewrite bool_decide_eq_true_2 by exact Hfound. rewrite Hfail. reflexivity.
Qed.

(** C6, counterexample.  Ann's photo exists on disk and its removal throws:
    the handler answers 500, Ann's row is still there and nothing is logged. *)
Lemma delete_people_asset_failure_aborts :
  ¬ delete_is_best_effort sample_env unlink_fails delete_ann_request sample_world.
Proof.
  intros H. destruct (H 1 ann) as [Hgone _].
  - reflexivity.
  - reflexivity.
  - intros c [msg Hc]. destruct c; try discriminate. eauto.
  - apply (Hgone ann); [| reflexivity].
    assert (people (exec (delete_people sample_env unlink_fails delete_ann_request)
                      sample_world) = [ann; bob; eve]) as -> by (vm_compute; reflexivity).
    left.
Qed.

Example delete_people_asset_failure_response :
  result (delete_people sample_env unlink_fails delete_ann_request) sample_world =
    Returned (mkResponse 500 (JMessage "Failed to delete person")) ∧
  activityLogs (exec (delete_people sample_env unlink_fails delete_ann_request) sample_world)
    = [].
Proof. split; vm_compute; reflexivity. Qed.

(** C6, amended.  For an existing record, when the storage calls succeed and
    no removal of a file that is on disk fails, the handler removes the
    photo and QR files that exist (an empty URL or a URL whose file is
    absent is skipped, not an error), removes the record, appends one
    activity-log entry naming the caller, and answers success. *)
Theorem delete_people_removes_record E I req w id person :
  Number E (params_id req) = Some id →
  returning_first (has_id id) (people w) = Some person →
  fault I (call_getPerson (Some id)) = None →
  (∀ path, path ∈ files w → fault I (call_fs_unlinkSync path) = None) →
  fault I (call_deletePerson (Some id)) = None →
  fault I (call_createActivityLog "passport" (toString id)) = None →
  let w' := exec (delete_people E I req) w in
  result (delete_people E I req) w = Returned (mkResponse 200 JSuccess) ∧
  people w' = List.filter (λ p, negb (has_id id p)) (people w) ∧
  files w' = files w ∖ asset_paths E (Person.photoUrl person)
                     ∖ asset_paths E (Person.qrCodeUrl person) ∧
  ∃ entry,
    activityLogs w' = (activityLogs w ++ [entry])%list ∧
    ActivityLog.performedBy entry = sub req ∧
    ActivityLog.entityType entry = "passport" ∧
    ActivityLog.entityId entry = toString id.
Proof.
  intros Hid Hperson Hget Hunlink Hdel Hlog.
  unfold exec, result, delete_people, try_catch, bind, getPerson, deletePerson,
    external, integer_param.
  rewrite Hid, Hget. simpl. rewrite Hperson. cbv beta iota zeta.
  rewrite remove_asset_ok by exact Hunlink. cbv beta iota zeta.
  rewrite remove_asset_ok
    by (simpl; intros path [Hpath _]%elem_of_difference; apply Hunlink, Hpath).
  cbv beta iota zeta. rewrite Hdel. simpl. rewrite logActivity_run, Hlog. simpl.
  split_and!; try reflexivity. eexists. split_and!; reflexivity.
Qed.

Lemma delete_people_removes_record_witness :
  let w' := exec (delete_people sample_env no_fault delete_ann_request) sample_world in
  result (delete_people sample_env no_fault delete_ann_request) sample_world
    = Returned (mkResponse 200 JSuccess) ∧
  people w' = List.filter (λ p, negb (has_id 1 p)) (people sample_world) ∧
  files w' = files sample_world ∖ asset_paths sample_env (Person.photoUrl ann)
                                ∖ asset_paths sample_env (Person.qrCodeUrl ann) ∧
  ∃ entry,
    activityLogs w' = (activityLogs sample_world ++ [entry])%list ∧
    ActivityLog.performedBy entry = sub delete_ann_request ∧
    ActivityLog.entityType entry = "passport" ∧
    ActivityLog.entityId entry = toString 1.
Proof.
  apply (delete_people_removes_record sample_env no_fault delete_ann_request
           sample_world 1 ann); try reflexivity.
Defined.

(** When the removal of the photo throws, the request ends there: 500, the
    row is kept and nothing is logged. *)
Lemma delete_people_unlink_failure E I req w id person msg :
  Number E (params_id req) = Some id →
  returning_first (has_id id) (people w) = Some person →
  fault I (call_getPerson (Some id)) = None →
  truthy (Person.photoUrl person) = true →
  path_join E (cwd E) (default "" (Person.photoUrl person)) ∈ files w →
  fault I (call_fs_unlinkSync (path_join E (cwd E) (default "" (Person.photoUrl person))))
    = Some msg →
  result (delete_people E I req) w
    = Returned (mkResponse 500 (JMessage "Failed to delete person")) ∧
  people (exec (delete_people E I req) w) = people w ∧
  activityLogs (exec (delete_people E I req) w) = activityLogs w.
Proof.
  intros Hid Hperson Hget Hurl Hfound Hfail.
  unfold exec, result, delete_people, try_catch, bind, getPerson, external, integer_param.
  rewrite Hid, Hget. simpl. rewrite Hperson. cbv beta iota zeta.
  rewrite (remove_asset_fails E I _ w msg) by assumption.
  split_and!; reflexivity.
Qed.

(** ** C7: creation when the QR code cannot be rendered *)

Lemma generateQRCode_fails E I publicId protocol hostname w msg :
  fault I (call_QRCode_toFile (qrCodePath E publicId)
             (passport_url publicId protocol hostname)) = Some msg →
  generateQRCode E I publicId protocol hostname w =
    (Returned "", print (console_error "Error generating QR code:" (Error msg)) w).
Proof.
  intros Hfail. unfold generateQRCode, try_catch, bind, external.
  rewrite Hfail. reflexivity.
Qed.

(** [generateQRCode] never raises. *)
Lemma generateQRCode_never_raises E I publicId protocol hostname w :
  ∃ url, (generateQRCode E I publicId protocol hostname w).1 = Returned url.
Proof.
  unfold generateQRCode, try_catch, bind, external.
  destruct (fault I _); simpl; eauto.
Qed.

Lemma returning_first_appended {A} (cond : A → bool) (rows : list A) (row : A) :
  (∀ r, r ∈ rows → cond r = false) → cond row = true →
  returning_first cond (rows ++ [row]) = Some row.
Proof.
  intros Hnone Hrow. unfold returning_first.
  rewrite List.filter_app, filter_none by exact Hnone. simpl. rewrite Hrow. reflexivity.
Qed.

(** C7.  Creation with a payload the schema accepts, on a store whose id
    sequence is ahead of the existing rows, when rendering the QR code
    throws and the storage calls of the request succeed: the handler answers
    200 with the new record, whose QR URL is empty; the record is in the
    people table; the rendering failure went to the console and was not
    raised. *)
Theorem post_people_survives_qr_failure E I req w validated msg :
  insertPersonSchema_parse E (userInput E req) = Returned validated →
  (∀ p, p ∈ people w → Person.id p ≠ people_id_seq w) →
  fault I (call_createPerson (random_hex I)) = None →
  fault I (call_QRCode_toFile (qrCodePath E (random_hex I))
             (passport_url (random_hex I) (protocol req) (hostname req))) = Some msg →
  fault I (call_getPerson (Some (people_id_seq w))) = None →
  let person := new_person_row I (people_id_seq w) validated (random_hex I) in
  let w' := exec (post_people E I req) w in
  result (post_people E I req) w = Returned (mkResponse 200 (JPerson (Some person))) ∧
  Person.qrCodeUrl person = None ∧
  people w' = (people w ++ [person])%list ∧
  console_error "Error generating QR code:" (Error msg) ∈ console w'.
Proof.
  intros Hparse Hfresh Hcreate Hqr Hget person w'. subst w'.
  unfold exec, result, post_people, try_catch, bind, createPerson, getPerson,
    external, integer_param, generatePublicId, lift.
  rewrite Hparse, Hcreate. simpl.
  rewrite (generateQRCode_fails E I _ _ _ _ msg) by exact Hqr. simpl.
  rewrite logActivity_run.
  assert (Hfirst : returning_first (has_id (people_id_seq w)) (people w ++ [person])
                   = Some person).
  { apply returning_first_appended.
    - intros r Hr. unfold has_id. apply Z.eqb_neq. apply Hfresh. exact Hr.
    - unfold has_id. simpl. apply Z.eqb_refl. }
  destruct (fault I (call_createActivityLog _ _)); simpl; rewrite Hget; simpl;
    fold person; rewrite Hfirst; (split_and!; [reflexivity .. | set_solver]).
Qed.

Lemma post_people_survives_qr_failure_witness :
  let w' := exec (post_people sample_env qr_fails create_request) sample_world in
  result (post_people sample_env qr_fails create_request) sample_world
    = Returned (mkResponse 200 (JPerson (Some dan))) ∧
  Person.qrCodeUrl dan = None ∧
  people w' = (people sample_world ++ [dan])%list ∧
  console_error "Error generating QR code:" (Error "EACCES: permission denied")
    ∈ console w'.
Proof.
  apply (post_people_survives_qr_failure sample_env qr_fails create_request sample_world
           (mkInsertPerson "Dan" "1993-01-01" "P-4" "2030-01-01" (Some "") 1 true
              (Some "") "admin_user")
           "EACCES: permission denied").
  - vm_compute. reflexivity.
  - intros p Hp. vm_compute in Hp.
    repeat (apply elem_of_cons in Hp as [-> | Hp]; [vm_compute; discriminate |]).
    inversion Hp.
  - reflexivity.
  - reflexivity.
  - reflexivity.
Defined.

(** ** C8: listing the activity log *)

(** With unique user ids, at most one user matches a performer. *)
Lemma filter_user_has_id (rows : list User.t) (id : string) :
  NoDup (User.id <$> rows) →
  List.filter (user_has_id id) rows = [] ∧ (∀ u, u ∈ rows → User.id u ≠ id) ∨
  ∃ u, List.filter (user_has_id id) rows = [u] ∧ u ∈ rows ∧ User.id u = id.
Proof.
  induction rows as [| r rows IH]; intros Hnd.
  - left. split; [reflexivity |]. intros u Hu. inversion Hu.
  - rewrite fmap_cons in Hnd. apply NoDup_cons in Hnd as [Hr Hnd]. simpl.
    destruct (user_has_id id r) eqn:Hrid; unfold user_has_id in Hrid.
    + apply String.eqb_eq in Hrid as Heq. right. exists r. split_and!; [| left | exact Heq].
      f_equal. apply filter_none. intros u Hu. unfold user_has_id.
      apply String.eqb_neq. intros Hu'. apply Hr. rewrite Heq, <- Hu'.
      apply list_elem_of_fmap_2. exact Hu.
    + apply String.eqb_neq in Hrid as Hne.
      destruct (IH Hnd) as [[Hnil Hnone] | (u & Hu & Hin & Hid)].
      * left. split; [exact Hnil |]. intros u [-> | Hu]%elem_of_cons; auto.
      * right. exists u. split_and!; [exact Hu | right; exact Hin | exact Hid].
Qed.

(** C8.  When the query succeeds, ids of users are unique and no user
    carries the id ["system"], [getAllActivityLogs] returns every entry of
    the log exactly once, ordered by timestamp with the newest first (no
    row is followed, anywhere later in the list, by one with a larger
    [timestamp]); an entry whose performer is a row of the users table carries that row as
    [performedByUser], and an entry performed by ["system"] carries none.
    The call returns normally and leaves the store as it was. *)
Theorem getAllActivityLogs_listing I w :
  fault I call_getAllActivityLogs = None →
  NoDup (User.id <$> users w) →
  (∀ u, u ∈ users w → User.id u ≠ "system") →
  ∃ rows,
    getAllActivityLogs I w = (Returned rows, w) ∧
    log <$> rows ≡ₚ activityLogs w ∧
    StronglySorted
      (λ earlier later,
         ActivityLog.timestamp (log later) ≤ ActivityLog.timestamp (log earlier))
      rows ∧
    (∀ row u, row ∈ rows → u ∈ users w →
       ActivityLog.performedBy (log row) = User.id u → performedByUser row = Some u) ∧
    (∀ row, row ∈ rows →
       ActivityLog.performedBy (log row) = "system" → performedByUser row = None).
Proof.
  intros Hok Hnd Hsys.
  unfold getAllActivityLogs, bind, external. rewrite Hok. simpl.
  eexists. split; [reflexivity |].
  assert (Hjoin : ∀ entry, ∃ user,
            leftJoin_users (users w) entry = [mkLogWithUser entry user] ∧
            (∀ u, u ∈ users w → ActivityLog.performedBy entry = User.id u → user = Some u) ∧
            (ActivityLog.performedBy entry = "system" → user = None)).
  { intros entry. unfold leftJoin_users.
    destruct (filter_user_has_id (users w) (ActivityLog.performedBy entry) Hnd)
      as [[-> Hnone] | (u & -> & Hin & Hid)].
    - exists None. split_and!; [reflexivity | | reflexivity].
      intros u Hu Hby. exfalso. apply (Hnone u Hu). congruence.
    - exists (Some u). split_and!; [reflexivity | |].
      + intros u' Hu' Hby. f_equal. eapply NoDup_fmap_eq; eauto. congruence.
      + intros Hby. exfalso. apply (Hsys u Hin). congruence. }
  split_and!.
  - unfold orderBy. rewrite merge_sort_Permutation.
    induction (activityLogs w) as [| entry entries IH]; [reflexivity |].
    simpl. destruct (Hjoin entry) as (user & -> & _). simpl. rewrite IH. reflexivity.
  - apply (StronglySorted_merge_sort (desc log_timestamp)); apply _.
  - intros row u Hrow Hu Hby. apply elem_of_orderBy in Hrow.
    apply list_elem_of_In, in_flat_map in Hrow as (entry & _ & Hrow).
    destruct (Hjoin entry) as (user & Heq & Hreal & _). rewrite Heq in Hrow.
    destruct Hrow as [<- | []]. simpl in *. auto.
  - intros row Hrow Hby. apply elem_of_orderBy in Hrow.
    apply list_elem_of_In, in_flat_map in Hrow as (entry & _ & Hrow).
    destruct (Hjoin entry) as (user & Heq & _ & Hsystem). rewrite Heq in Hrow.
    destruct Hrow as [<- | []]. simpl in *. auto.
Qed.

(** On the sample log the newest entry, written by the system, comes first
    and carries no user; Ben's and Ada's follow with their rows. *)
Lemma getAllActivityLogs_listing_witness :
  (∃ rows,
    getAllActivityLogs no_fault audit_world = (Returned rows, audit_world) ∧
    log <$> rows ≡ₚ activityLogs audit_world ∧
    StronglySorted
      (λ earlier later,
         ActivityLog.timestamp (log later) ≤ ActivityLog.timestamp (log earlier))
      rows ∧
    (∀ row u, row ∈ rows → u ∈ users audit_world →
       ActivityLog.performedBy (log row) = User.id u → performedByUser row = Some u) ∧
    (∀ row, row ∈ rows →
       ActivityLog.performedBy (log row) = "system" → performedByUser row = None)) ∧
  getAllActivityLogs no_fault audit_world
  = (Returned
       [mkLogWithUser
          (ActivityLog.mk 2 expired_action "passport" "1" "system" None 3000) None;
        mkLogWithUser
          (ActivityLog.mk 3 "updated" "passport" "2" "u-ben" None 2000)
          (Some (User.mk "u-ben" (Some "ben@example.com") (Some "Ben") (Some "K") None
                   false false 20 20));
        mkLogWithUser
          (ActivityLog.mk 1 "created" "passport" "1" "u-ada" None 1000)
          (Some (User.mk "u-ada" (Some "ada@example.com") (Some "Ada") (Some "L") None
                   true true 10 10))],
     audit_world).
Proof.
  split.
  - apply (getAllActivityLogs_listing no_fault audit_world).
    + reflexivity.
    + apply (bool_decide_unpack _). vm_compute. reflexivity.
    + intros u Hu. vm_compute in Hu.
      repeat (apply elem_of_cons in Hu as [-> | Hu]; [vm_compute; discriminate |]).
      inversion Hu.
  - vm_compute. reflexivity.
Defined.

Example getAllActivityLogs_sample :
  (λ row, (ActivityLog.id (log row), User.id <$> performedByUser row)) <$>
    default [] (match result (getAllActivityLogs no_fault) audit_world with
                | Returned rows => Some rows
                | Thrown _ => None
                end)
  = [(2, None); (3, Some "u-ben"); (1, Some "u-ada")].
Proof. vm_compute. reflexivity. Qed.

(** The identity the demo middleware gives every request, ["admin_user"],
    is answered by [storage.getUser] without a query; it is no row of the
    users table, so the join finds nobody for the entries it performs. *)
Example getAllActivityLogs_admin_user :
  result (getUser no_fault "admin_user") audit_world
    = Returned (Some (User.mk "admin_user" (Some "admin@example.com")
                        (Some "Администратор") (Some "Системы") None true true
                        sample_now sample_now)) ∧
  performedByUser <$>
    leftJoin_users (users audit_world)
      (ActivityLog.mk 9 "created" "group" "1" "admin_user" None 4000)
  = [None].
Proof. split; vm_compute; reflexivity. Qed.

(** ** C9: re-authentication of an existing user *)

(** C9.  Upserting a user whose id is already in the table takes the
    conflict path: the rows with that id get the [email], [firstName],
    [lastName] and [profileImageUrl] of the input (where the input defines
    them) and a fresh [updatedAt]; every other row is untouched, no row is
    added, and [isMainAdmin], [isActive] (and [id], [createdAt]) of every
    row stay as they were, whatever flags the input carries. *)
Theorem upsertUser_existing_keeps_flags I userData w :
  up_id userData ∈ User.id <$> users w →
  let w' := exec (upsertUser I userData) w in
  user_flags <$> users w' = user_flags <$> users w ∧
  users w' =
    match fault I (call_upsertUser (up_id userData)) with
    | Some _ => users w
    | None =>
        map (λ u, if user_has_id (up_id userData) u
                  then User.mk (User.id u)
                         (set_column (up_email userData) (User.email u))
                         (set_column (up_firstName userData) (User.firstName u))
                         (set_column (up_lastName userData) (User.lastName u))
                         (set_column (up_profileImageUrl userData) (User.profileImageUrl u))
                         (User.isMainAdmin u) (User.isActive u) (User.createdAt u) (now I)
                  else u)
            (users w)
    end.
Proof.
  intros Hin w'. subst w'.
  unfold exec, upsertUser, bind, external.
  destruct (fault I _); [split; reflexivity |]. simpl.
  assert (existsb (user_has_id (up_id userData)) (users w) = true) as ->.
  { apply list_elem_of_fmap in Hin as (u & Hid & Hu).
    apply existsb_exists. exists u. split; [apply list_elem_of_In; exact Hu |].
    unfold user_has_id. rewrite Hid. apply String.eqb_refl. }
  simpl. split; [| reflexivity].
  unfold update_where. rewrite <- list_fmap_compose.
  apply list_fmap_ext. intros _ u _. simpl.
  destruct (user_has_id (up_id userData) u); reflexivity.
Qed.

Lemma upsertUser_existing_keeps_flags_witness :
  let w' := exec (upsertUser no_fault ben_again) audit_world in
  user_flags <$> users w' = user_flags <$> users audit_world ∧
  users w' =
    [ada;
     User.mk "u-ben" (Some "ben@corp.example") (Some "Benjamin") (Some "K") None
       false false 20 sample_now].
Proof.
  apply (upsertUser_existing_keeps_flags no_fault ben_again audit_world).
  vm_compute. set_solver.
Defined.

(** On first authentication the insert path does take the flags of the
    input (or their defaults). *)
Example upsertUser_new_user :
  users (exec (upsertUser no_fault ben_again) sample_world) =
    [User.mk "u-ben" (Some "ben@corp.example") (Some "Benjamin") None None
       true true sample_now sample_now].
Proof. vm_compute. reflexivity. Qed.

(** ** C10: deleting a group *)

Lemma returning_first_found {A} (cond : A → bool) (rows : list A) (row : A) :
  row ∈ rows → cond row = true → ∃ first, returning_first cond rows = Some first.
Proof.
  intros Hin Hcond. unfold returning_first.
  destruct (List.filter cond rows) as [| first rest] eqn:Hfilter; [| eauto].
  exfalso. assert (In row (List.filter cond rows)) as Hrow.
  { apply filter_In. split; [apply list_elem_of_In; exact Hin | exact Hcond]. }
  rewrite Hfilter in Hrow. exact Hrow.
Qed.

(** C10.  [DELETE /api/groups/:id] never touches the people table, whatever
    the request and whichever call fails.  When the group exists and the
    lookup and the delete succeed, the route answers 200 and the groups
    table loses exactly the rows carrying that id, whether or not people
    reference it: every such person is still in the table, unchanged, with
    a [groupId] that no remaining group carries. *)
Theorem delete_groups_keeps_people E I req w :
  let w' := exec (delete_groups E I req) w in
  people w' = people w ∧
  ∀ id group,
    Number E (params_id req) = Some id →
    group ∈ groups w → Group.id group = id →
    fault I (call_getGroup (Some id)) = None →
    fault I (call_deleteGroup (Some id)) = None →
    result (delete_groups E I req) w = Returned (mkResponse 200 JSuccess) ∧
    groups w' = List.filter (λ g, negb (Group.id g =? id)) (groups w) ∧
    (group ∉ groups w') ∧
    ∀ p, p ∈ people w → Person.groupId p = id →
         p ∈ people w' ∧ ∀ g, g ∈ groups w' → Group.id g ≠ Person.groupId p.
Proof.
  intros w'.
  assert (Hpeople : people w' = people w).
  { subst w'.
    unfold exec, delete_groups, try_catch, bind, getGroup, deleteGroup, external,
      integer_param, try_catch, bind.
    destruct (fault I (call_getGroup _)) as [msg |]; simpl.
    { destruct (includes _ msg); simpl; auto. }
    destruct (Number E (params_id req)) as [id |]; simpl; [| auto].
    destruct (returning_first _ _); simpl; [| auto].
    destruct (fault I (call_deleteGroup _)); simpl; [auto |].
    rewrite logActivity_run. destruct (fault I _); simpl; eauto. }
  split; [exact Hpeople |].
  intros id group Hid Hin Hgid Hget Hdel.
  destruct (returning_first_found (group_has_id id) (groups w) group Hin) as [first Hfirst].
  { unfold group_has_id. apply Z.eqb_eq. exact Hgid. }
  assert (Hgroups : groups w' = List.filter (λ g, negb (Group.id g =? id)) (groups w) ∧
                    result (delete_groups E I req) w = Returned (mkResponse 200 JSuccess)).
  { subst w'.
    unfold exec, result, delete_groups, try_catch, bind, getGroup, try_catch, bind,
      deleteGroup, bind, external, integer_param.
    rewrite Hid, Hget. simpl. rewrite Hfirst, Hdel. simpl.
    rewrite logActivity_run.
    destruct (fault I (call_createActivityLog _ _)); simpl; split; reflexivity. }
  destruct Hgroups as [Hgroups Hres].
  assert (Hleft : ∀ g, g ∈ groups w' → Group.id g ≠ id).
  { intros g Hg. rewrite Hgroups in Hg.
    apply list_elem_of_In, filter_In in Hg as [_ Hg].
    apply negb_true_iff, Z.eqb_neq in Hg. exact Hg. }
  split_and!; [exact Hres | exact Hgroups | |].
  - intros Hstill. apply (Hleft group Hstill). exact Hgid.
  - intros p Hp Hpg. split; [rewrite Hpeople; exact Hp |].
    intros g Hg. rewrite Hpg. apply Hleft. exact Hg.
Qed.

(** Group 1 is deleted although Ann, Bob and Eve reference it: the three
    rows stay as they were, pointing at a group that is gone. *)
Lemma delete_groups_keeps_people_witness :
  let w' := exec (delete_groups sample_env no_fault delete_group_request) sample_world in
  (people w' = people sample_world ∧
   result (delete_groups sample_env no_fault delete_group_request) sample_world
     = Returned (mkResponse 200 JSuccess) ∧
   groups w' = List.filter (λ g, negb (Group.id g =? 1)) (groups sample_world) ∧
   (Group.mk 1 "A" "admin_user" 50 50 ∉ groups w') ∧
   ∀ p, p ∈ people sample_world → Person.groupId p = 1 →
        p ∈ people w' ∧ ∀ g, g ∈ groups w' → Group.id g ≠ Person.groupId p) ∧
  groups sample_world = [Group.mk 1 "A" "admin_user" 50 50] ∧
  groups w' = [] ∧
  people w' =
    [Person.mk 1 "a1" "Ann" "1990-01-01" "P-1" "2024-01-01" None 1 true
       (Some "/uploads/photos/ann.png") (Some "/uploads/qrcodes/qr-a1.png")
       "admin_user" 100 100;
     Person.mk 2 "b2" "Bob" "1991-01-01" "P-2" "2024-01-01" None 1 true
       None None "admin_user" 200 200;
     Person.mk 3 "c3" "Eve" "1992-01-01" "P-3" "2030-01-01" None 1 true
       None None "admin_user" 300 300].
Proof.
  cbv zeta. split; [| split; [| split]].
  - destruct (delete_groups_keeps_people sample_env no_fault delete_group_request
                sample_world) as [Hpeople Hgroup].
    split; [exact Hpeople |].
    apply (Hgroup 1 (Group.mk 1 "A" "admin_user" 50 50)).
    + reflexivity.
    + left.
    + reflexivity.
    + reflexivity.
    + reflexivity.
  - reflexivity.
  - vm_compute. reflexivity.
  - vm_compute. reflexivity.
Defined.

(** Group 1 is deleted while Ann, Bob and Eve still reference it. *)
Example delete_groups_orphans_members :
  let w' := exec (delete_groups sample_env no_fault delete_group_request) sample_world in
  result (delete_groups sample_env no_fault delete_group_request) sample_world
    = Returned (mkResponse 200 JSuccess) ∧
  groups w' = [] ∧
  people w' = [ann; bob; eve] ∧
  map Person.groupId (people w') = [1; 1; 1].
Proof. vm_compute. split_and!; reflexivity. Qed.

(** * Further properties of the storage layer and the routes *)

(** ** The read-only routes *)

Lemma same_tables_refl w : same_tables w w.
Proof. repeat split. Qed.

Lemma same_tables_print line w : same_tables w (print line w).
Proof. repeat split. Qed.

Lemma getUser_run I id w :
  (getUser I id w).2 = w ∧
  ((∃ e, (getUser I id w).1 = Thrown e) ∨
   (getUser I id w).1 =
     Returned (if String.eqb id "admin_user"
               then Some (User.mk "admin_user" (Some "admin@example.com")
                            (Some "Администратор") (Some "Системы") None true true
                            (now I) (now I))
               else returning_first (user_has_id id) (users w))).
Proof.
  unfold getUser. destruct (String.eqb id "admin_user"); [split; auto |].
  unfold bind, external. destruct (fault I _); simpl; eauto.
Qed.

Lemma getAllGroups_cases I fault_more name_le w :
  getAllGroups I fault_more name_le w
    = (Returned (orderBy (asc name_le Group.name) (groups w)), w) ∨
  getAllGroups I fault_more name_le w = (Returned [demo_group I], w) ∨
  ∃ e, getAllGroups I fault_more name_le w = (Thrown e, w) ∧
       includes "endpoint has been disabled" (message e) = false.
Proof.
  unfold getAllGroups, try_catch, bind, external_more.
  destruct (fault_more call_getAllGroups) as [msg |]; simpl; [| auto].
  destruct (includes _ msg) eqn:Hmsg; eauto.
Qed.

(** X1.  The six read routes ([GET /api/public/people/:publicId],
    [/api/auth/user], [/api/admins], [/api/groups], [/api/people],
    [/api/activity-logs]) never change a table or the uploads directory,
    whatever the request and whichever call fails. *)
Theorem read_routes_change_nothing I fault_more name_le req w :
  same_tables w (exec (get_public_people fault_more req) w) ∧
  same_tables w (exec (get_auth_user I req) w) ∧
  same_tables w (exec (get_admins I fault_more req) w) ∧
  same_tables w (exec (get_groups I fault_more name_le req) w) ∧
  same_tables w (exec (get_people I req) w) ∧
  same_tables w (exec (get_activity_logs I req) w).
Proof.
  split_and!.
  - unfold exec, get_public_people, try_catch, bind, getPersonByPublicId, external_more.
    destruct (fault_more _); simpl; [apply same_tables_print |].
    destruct (returning_first _ _); apply same_tables_refl.
  - unfold exec, get_auth_user, try_catch, bind.
    destruct (getUser_run I (api_sub req) w) as [Hw Hres].
    destruct (getUser I (api_sub req) w) as [[[user |] | e] w0]; simpl in Hw; subst w0;
      simpl; try apply same_tables_print; try apply same_tables_refl.
    destruct (User.isActive user); apply same_tables_refl.
  - unfold exec, get_admins, try_catch, bind.
    destruct (getUser_run I (api_sub req) w) as [Hw Hres].
    destruct (getUser I (api_sub req) w) as [[user | e] w0]; simpl in Hw; subst w0;
      simpl; [| apply same_tables_print].
    destruct (not_main_admin user); [apply same_tables_refl |].
    unfold getAllAdmins, bind, external_more.
    destruct (fault_more _); simpl; [apply same_tables_print | apply same_tables_refl].
  - unfold exec, get_groups, try_catch, bind.
    destruct (getAllGroups_cases I fault_more name_le w) as [-> | [-> | (e & -> & He)]];
      simpl; try apply same_tables_refl.
    rewrite He. apply same_tables_print.
  - unfold exec, get_people, try_catch, bind.
    destruct (getAllPeople_cases I w) as [-> | [-> | [e He]]];
      simpl; try apply same_tables_refl.
    rewrite He. simpl. destruct (includes _ _); apply same_tables_print.
  - unfold exec, get_activity_logs, try_catch, bind, getAllActivityLogs, external.
    destruct (fault I _); simpl; [apply same_tables_print | apply same_tables_refl].
Qed.

(** ** The listings when the database endpoint is disabled *)

(** X2.  [GET /api/people] never answers 503: [storage.getAllPeople] turns
    the error of a disabled endpoint into an empty list, so the request
    answers 200 with no people; every other failure of the listing is a
    500, and a listing that succeeds is a 200 with the rows, newest first. *)
Theorem get_people_never_503 I req w :
  match fault I call_getAllPeople with
  | None =>
      result (get_people I req) w =
        Returned (mkReply 200 (JPeople (orderBy (desc Person.createdAt) (people w))))
  | Some msg =>
      result (get_people I req) w =
        if includes "endpoint has been disabled" msg
        then Returned (mkReply 200 (JPeople []))
        else Returned (mkReply 500 (JError "Failed to fetch people"))
  end ∧
  reply_status <$> match result (get_people I req) w with
                   | Returned reply => Some reply
                   | Thrown _ => None
                   end ∈ [Some 200%nat; Some 500%nat].
Proof.
  unfold result, get_people, try_catch, bind, getAllPeople, try_catch, bind, external.
  destruct (fault I call_getAllPeople) as [msg |]; simpl.
  - destruct (includes _ msg) eqn:Hmsg; simpl; [set_solver |].
    rewrite Hmsg. simpl. set_solver.
  - set_solver.
Qed.

(** X3.  [GET /api/groups] never answers 503 either: when the endpoint is
    disabled [storage.getAllGroups] answers with the single demo group, and
    the request is a 200 carrying it; other failures are a 500. *)
Theorem get_groups_never_503 I fault_more name_le req w :
  match fault_more call_getAllGroups with
  | None =>
      result (get_groups I fault_more name_le req) w =
        Returned (mkReply 200 (JGroups (orderBy (asc name_le Group.name) (groups w))))
  | Some msg =>
      result (get_groups I fault_more name_le req) w =
        if includes "endpoint has been disabled" msg
        then Returned (mkReply 200 (JGroups [demo_group I]))
        else Returned (mkReply 500 (JError "Failed to fetch groups"))
  end ∧
  reply_status <$> match result (get_groups I fault_more name_le req) w with
                   | Returned reply => Some reply
                   | Thrown _ => None
                   end ∈ [Some 200%nat; Some 500%nat].
Proof.
  unfold result, get_groups, try_catch, bind, getAllGroups, try_catch, bind,
    external_more.
  destruct (fault_more call_getAllGroups) as [msg |]; simpl.
  - destruct (includes _ msg) eqn:Hmsg; simpl; [set_solver |].
    rewrite Hmsg. simpl. set_solver.
  - set_solver.
Qed.

Example get_people_endpoint_disabled :
  result (get_people endpoint_disabled any_request) sample_world
    = Returned (mkReply 200 (JPeople [])) ∧
  result (get_groups endpoint_disabled endpoint_disabled_more String.leb any_request)
    sample_world
    = Returned (mkReply 200 (JGroups [demo_group endpoint_disabled])).
Proof. split; vm_compute; reflexivity. Qed.

(** ** Creating a passport and reading it back *)

(** X4.  [GET /api/public/people/:publicId] answers 200 only with a row of
    the people table that carries the requested [publicId]; when the query
    succeeds it answers 200 if some row carries it and 404 if none does. *)
Theorem get_public_people_lookup fault_more req w :
  (∀ p, result (get_public_people fault_more req) w
          = Returned (mkResponse 200 (JPerson (Some p))) →
        p ∈ people w ∧ Person.publicId p = api_param req) ∧
  (fault_more (call_getPersonByPublicId (api_param req)) = None →
   (∀ p, p ∈ people w → Person.publicId p ≠ api_param req) →
   result (get_public_people fault_more req) w
     = Returned (mkResponse 404 (JMessage "Passport not found"))) ∧
  (fault_more (call_getPersonByPublicId (api_param req)) = None →
   ∀ p, p ∈ people w → Person.publicId p = api_param req →
   ∃ p', result (get_public_people fault_more req) w
           = Returned (mkResponse 200 (JPerson (Some p')))).
Proof.
  unfold result, get_public_people, try_catch, bind, getPersonByPublicId, external_more,
    returning_first.
  split_and!.
  - intros p. destruct (fault_more _); simpl; [discriminate |].
    destruct (List.filter _ (people w)) as [| p0 rest] eqn:Hfilter; simpl; [discriminate |].
    intros [= ->].
    assert (In p (List.filter (has_publicId (api_param req)) (people w))) as Hin
      by (rewrite Hfilter; left; reflexivity).
    apply filter_In in Hin as [Hin Hp]. split; [apply list_elem_of_In, Hin |].
    apply String.eqb_eq, Hp.
  - intros -> Hnone. simpl. rewrite filter_none; [reflexivity |].
    intros p Hp. apply String.eqb_neq, Hnone, Hp.
  - intros -> p Hp Hid. simpl.
    destruct (List.filter _ (people w)) as [| p0 rest] eqn:Hfilter; simpl; [| eauto].
    exfalso. assert (In p []) as []. rewrite <- Hfilter. apply filter_In.
    split; [apply list_elem_of_In, Hp | apply String.eqb_eq, Hid].
Qed.

Lemma mapUpdateSet_qrCodeUrl url :
  mapUpdateSet {["qrCodeUrl" := VStr url]} =
    Some (mkPersonSet None None None None None None None None None None
            (Some (Some url)) None None).
Proof. reflexivity. Qed.

Lemma update_where_appended {A} (cond : A → bool) (set : A → A) rows row :
  (∀ r, r ∈ rows → cond r = false) → cond row = true →
  update_where cond set (rows ++ [row])%list = (rows ++ [set row])%list.
Proof.
  intros Hnone Hrow. unfold update_where. rewrite map_app.
  fold (update_where cond set rows). rewrite update_where_none by exact Hnone.
  simpl. rewrite Hrow. reflexivity.
Qed.

(** The run of [POST /api/people] when validation, the insert, the QR
    rendering, the QR update and the final read succeed. *)
Lemma post_people_success_run E I req w validated :
  insertPersonSchema_parse E (userInput E req) = Returned validated →
  (∀ p, p ∈ people w → Person.id p ≠ people_id_seq w) →
  fault I (call_createPerson (random_hex I)) = None →
  fault I (call_QRCode_toFile (qrCodePath E (random_hex I))
             (passport_url (random_hex I) (protocol req) (hostname req))) = None →
  fault I (call_updatePerson (Some (people_id_seq w))) = None →
  fault I (call_getPerson (Some (people_id_seq w))) = None →
  let person := created_person I (people_id_seq w) validated in
  let w' := exec (post_people E I req) w in
  result (post_people E I req) w = Returned (mkResponse 200 (JPerson (Some person))) ∧
  people w' = (people w ++ [person])%list ∧
  files w' = {[qrCodePath E (random_hex I)]} ∪ files w ∧
  activityLogs w' =
    match fault I (call_createActivityLog "passport" (toString (people_id_seq w))) with
    | Some _ => activityLogs w
    | None =>
        (activityLogs w ++
         [ActivityLog.mk (activity_logs_id_seq w)
            ("Создан паспорт для " ++ dquote ++ ins_fullName validated ++ dquote)
            "passport" (toString (people_id_seq w)) (sub req)
            (Some [("passportNumber", VStr (ins_passportNumber validated))]) (now I)])%list
    end.
Proof.
  intros Hparse Hfresh Hcreate Hqr Hupdate Hget person w'. subst w'.
  assert (Hnone : ∀ r, r ∈ people w → has_id (people_id_seq w) r = false).
  { intros r Hr. apply Z.eqb_neq, Hfresh, Hr. }
  unfold exec, result, post_people, try_catch, bind, createPerson, getPerson,
    external, integer_param, generatePublicId, lift, generateQRCode, try_catch, bind,
    external, updatePerson, bind, external, integer_param.
  rewrite Hparse, Hcreate. simpl. rewrite Hqr. simpl. rewrite Hupdate. simpl.
  rewrite mapUpdateSet_qrCodeUrl. simpl.
  rewrite logActivity_run.
  assert (Hfirst : returning_first (has_id (people_id_seq w)) (people w ++ [person])
                   = Some person).
  { apply returning_first_appended; [exact Hnone | apply Z.eqb_refl]. }
  destruct (fault I (call_createActivityLog _ _)); simpl; rewrite Hget; simpl;
    rewrite !update_where_appended by (exact Hnone || apply Z.eqb_refl);
    change (apply_set I _ (new_person_row I (people_id_seq w) validated (random_hex I)))
      with person; rewrite Hfirst; split_and!; reflexivity.
Qed.

(** X5.  When validation and every call of the request succeed (the id
    sequence being ahead of the existing rows), [POST /api/people] answers
    200 with the new record: its [publicId] is the generated one, its
    [qrCodeUrl] is [/uploads/qrcodes/qr-<publicId>.png], the QR file is in
    the uploads directory, the record is the last row of the people table,
    and exactly one activity-log entry, performed by the caller and carrying
    the passport number, is appended. *)
Theorem post_people_creates_record E I req w validated :
  insertPersonSchema_parse E (userInput E req) = Returned validated →
  (∀ p, p ∈ people w → Person.id p ≠ people_id_seq w) →
  (∀ c, fault I c = None) →
  let person := created_person I (people_id_seq w) validated in
  let w' := exec (post_people E I req) w in
  result (post_people E I req) w = Returned (mkResponse 200 (JPerson (Some person))) ∧
  Person.publicId person = random_hex I ∧
  Person.qrCodeUrl person = Some ("/uploads/qrcodes/qr-" ++ random_hex I ++ ".png") ∧
  people w' = (people w ++ [person])%list ∧
  qrCodePath E (random_hex I) ∈ files w' ∧
  ∃ entry,
    activityLogs w' = (activityLogs w ++ [entry])%list ∧
    ActivityLog.performedBy entry = sub req ∧
    ActivityLog.entityId entry = toString (Person.id person) ∧
    ActivityLog.details entry =
      Some [("passportNumber", VStr (Person.passportNumber person))].
Proof.
  intros Hparse Hfresh Hok person w'.
  destruct (post_people_success_run E I req w validated) as (Hres & Hpeople & Hfiles & Hlogs);
    auto.
  rewrite Hok in Hlogs. split_and!; try done.
  - subst w'. rewrite Hfiles. apply elem_of_union_l, elem_of_singleton. reflexivity.
  - eexists. split; [exact Hlogs |]. split_and!; reflexivity.
Qed.

Lemma post_people_creates_record_witness :
  let person := created_person no_fault 4 dan_validated in
  let w' := exec (post_people sample_env no_fault create_request) sample_world in
  result (post_people sample_env no_fault create_request) sample_world
    = Returned (mkResponse 200 (JPerson (Some person))) ∧
  Person.publicId person = random_hex no_fault ∧
  Person.qrCodeUrl person = Some ("/uploads/qrcodes/qr-" ++ random_hex no_fault ++ ".png") ∧
  people w' = (people sample_world ++ [person])%list ∧
  qrCodePath sample_env (random_hex no_fault) ∈ files w' ∧
  ∃ entry,
    activityLogs w' = (activityLogs sample_world ++ [entry])%list ∧
    ActivityLog.performedBy entry = sub create_request ∧
    ActivityLog.entityId entry = toString (Person.id person) ∧
    ActivityLog.details entry =
      Some [("passportNumber", VStr (Person.passportNumber person))].
Proof.
  apply (post_people_creates_record sample_env no_fault create_request sample_world
           dan_validated).
  - vm_compute. reflexivity.
  - intros p Hp. vm_compute in Hp.
    repeat (apply elem_of_cons in Hp as [-> | Hp]; [vm_compute; discriminate |]).
    inversion Hp.
  - reflexivity.
Defined.

(** X6.  Round trip: after a creation in which everything succeeded, and
    provided no earlier row carried the generated [publicId], the public
    route asked for that [publicId] answers with exactly the record the
    creation answered with. *)
Theorem post_then_get_public E I fault_more req get w validated :
  insertPersonSchema_parse E (userInput E req) = Returned validated →
  (∀ p, p ∈ people w → Person.id p ≠ people_id_seq w) →
  (∀ p, p ∈ people w → Person.publicId p ≠ random_hex I) →
  (∀ c, fault I c = None) →
  fault_more (call_getPersonByPublicId (random_hex I)) = None →
  api_param get = random_hex I →
  result (get_public_people fault_more get) (exec (post_people E I req) w)
    = result (post_people E I req) w ∧
  result (post_people E I req) w
    = Returned (mkResponse 200
                  (JPerson (Some (created_person I (people_id_seq w) validated)))).
Proof.
  intros Hparse Hfresh Hpublic Hok Hget Hparam.
  destruct (post_people_success_run E I req w validated) as (Hres & Hpeople & _); auto.
  split; [| exact Hres]. rewrite Hres.
  unfold result at 1. unfold get_public_people, try_catch, bind, getPersonByPublicId,
    external_more.
  rewrite Hparam, Hget. simpl. rewrite Hpeople.
  rewrite returning_first_appended; [reflexivity | |].
  - intros r Hr. apply String.eqb_neq, Hpublic, Hr.
  - apply String.eqb_refl.
Qed.

Lemma post_then_get_public_witness :
  result (get_public_people no_fault_more (mkApiRequest "" "00ff" ∅))
    (exec (post_people sample_env no_fault create_request) sample_world)
    = result (post_people sample_env no_fault create_request) sample_world ∧
  result (post_people sample_env no_fault create_request) sample_world
    = Returned (mkResponse 200 (JPerson (Some (created_person no_fault 4 dan_validated)))).
Proof.
  apply (post_then_get_public sample_env no_fault no_fault_more create_request
           (mkApiRequest "" "00ff" ∅) sample_world dan_validated).
  - vm_compute. reflexivity.
  - intros p Hp. vm_compute in Hp.
    repeat (apply elem_of_cons in Hp as [-> | Hp]; [vm_compute; discriminate |]).
    inversion Hp.
  - intros p Hp. vm_compute in Hp.
    repeat (apply elem_of_cons in Hp as [-> | Hp]; [vm_compute; discriminate |]).
    inversion Hp.
  - reflexivity.
  - reflexivity.
  - reflexivity.
Defined.

(** X7.  A payload the schema rejects: the route answers 400 with the
    message of the validation error (the text [Failed to create person] if
    that message is empty), and no table has changed.  A photo that came
    with the request has been stored by the upload step all the same and
    stays on disk: the files are the old ones and that photo. *)
Theorem post_people_rejects_invalid E I req w e :
  insertPersonSchema_parse E (userInput E req) = Thrown e →
  let w' := exec (app_post_people E I req) w in
  result (app_post_people E I req) w
    = Returned (mkResponse 400
                  (JMessage (if String.eqb (message e) ""
                             then "Failed to create person" else message e))) ∧
  users w' = users w ∧ groups w' = groups w ∧ people w' = people w ∧
  activityLogs w' = activityLogs w ∧
  files w' =
    match file req with
    | Some filename =>
        {[path_join E (path_join E (path_join E (cwd E) "uploads") "photos") filename]}
          ∪ files w
    | None => files w
    end.
Proof.
  intros Hparse w'. subst w'.
  unfold result, exec, app_post_people, bind, upload_single, photosDir, uploadsDir.
  destruct (file req) as [filename |]; unfold modify, ret; cbv beta iota zeta;
    unfold post_people, try_catch, bind, lift; rewrite Hparse; simpl;
    (split_and!; try reflexivity; destruct (message e); reflexivity).
Qed.

(** A form without passport number and expiration date, sent with a photo:
    400, and the photo is on disk next to Ann's. *)
Lemma post_people_rejects_invalid_witness :
  let w' := exec (app_post_people upload_env no_fault incomplete_photo_request)
              sample_world in
  (result (app_post_people upload_env no_fault incomplete_photo_request) sample_world
     = Returned (mkResponse 400 (JMessage "Required")) ∧
   users w' = users sample_world ∧ groups w' = groups sample_world ∧
   people w' = people sample_world ∧
   activityLogs w' = activityLogs sample_world ∧
   files w' = {["/app/uploads/photos/photo-5-6.png"]} ∪ files sample_world) ∧
  people w' = [ann; bob; eve] ∧
  "/app/uploads/photos/photo-5-6.png" ∈ files w' ∧
  "/app/uploads/photos/photo-5-6.png" ∉ files sample_world.
Proof.
  cbv zeta. split; [| split; [| split]].
  - apply (post_people_rejects_invalid upload_env no_fault incomplete_photo_request
             sample_world (Error "Required")).
    vm_compute. reflexivity.
  - vm_compute. reflexivity.
  - apply (bool_decide_unpack _). vm_compute. reflexivity.
  - apply (bool_decide_unpack _). vm_compute. reflexivity.
Defined.

(** X8.  Creation is not atomic.  When the record was inserted and its QR
    code rendered but the update that stores the QR URL fails, the request
    answers 400 with that error's message although the record is in the
    people table (with an empty QR URL) and the QR file is on disk; no
    activity-log entry is written. *)
Theorem post_people_partial_failure E I req w validated msg :
  insertPersonSchema_parse E (userInput E req) = Returned validated →
  fault I (call_createPerson (random_hex I)) = None →
  fault I (call_QRCode_toFile (qrCodePath E (random_hex I))
             (passport_url (random_hex I) (protocol req) (hostname req))) = None →
  fault I (call_updatePerson (Some (people_id_seq w))) = Some msg →
  let w' := exec (post_people E I req) w in
  result (post_people E I req) w
    = Returned (mkResponse 400 (JMessage (or_else msg "Failed to create person"))) ∧
  people w' = (people w ++ [new_person_row I (people_id_seq w) validated (random_hex I)])%list ∧
  qrCodePath E (random_hex I) ∈ files w' ∧
  activityLogs w' = activityLogs w.
Proof.
  intros Hparse Hcreate Hqr Hupdate w'. subst w'.
  unfold exec, result, post_people, try_catch, bind, createPerson,
    external, generatePublicId, lift, generateQRCode, try_catch, bind,
    external, updatePerson, bind, external.
  rewrite Hparse, Hcreate. simpl. rewrite Hqr. simpl. rewrite Hupdate. simpl.
  split_and!; try reflexivity. set_solver.
Qed.

Lemma post_people_partial_failure_witness :
  let w' := exec (post_people sample_env qr_update_fails create_request) sample_world in
  result (post_people sample_env qr_update_fails create_request) sample_world
    = Returned (mkResponse 400
                  (JMessage (or_else "Connection terminated" "Failed to create person"))) ∧
  people w' = (people sample_world ++
               [new_person_row qr_update_fails 4 dan_validated "00ff"])%list ∧
  qrCodePath sample_env "00ff" ∈ files w' ∧
  activityLogs w' = activityLogs sample_world.
Proof.
  apply (post_people_partial_failure sample_env qr_update_fails create_request
           sample_world dan_validated "Connection terminated").
  - vm_compute. reflexivity.
  - reflexivity.
  - reflexivity.
  - reflexivity.
Defined.

(** ** What an update writes *)

Lemma updateData_status E req :
  updateData E req !! "status" = Some (VBool (is_true (body req !! "status"))).
Proof.
  unfold updateData. rewrite !lookup_delete_ne by done.
  destruct (file req); [rewrite lookup_insert_ne by done |]; apply lookup_insert_eq.
Qed.

Lemma updateData_groupId E req :
  updateData E req !! "groupId" = Some (VNum (Number_field E (body req !! "groupId"))).
Proof.
  unfold updateData. rewrite !lookup_delete_ne by done.
  destruct (file req); [rewrite lookup_insert_ne by done |];
    rewrite lookup_insert_ne by done; apply lookup_insert_eq.
Qed.

Lemma updateData_photoUrl E req filename :
  file req = Some filename →
  updateData E req !! "photoUrl" = Some (VStr ("/uploads/photos/" ++ filename)).
Proof.
  intros Hfile. unfold updateData, uploaded_photoUrl. rewrite !lookup_delete_ne by done.
  rewrite Hfile. apply lookup_insert_eq.
Qed.

(** What the typed [set] of an update request holds for the coerced fields. *)
Lemma mapUpdateSet_updateData E req s :
  mapUpdateSet (updateData E req) = Some s →
  set_status s = Some (is_true (body req !! "status")) ∧
  Some <$> set_groupId s = Some (Number_field E (body req !! "groupId")) ∧
  (∀ filename, file req = Some filename →
     set_photoUrl s = Some (Some ("/uploads/photos/" ++ filename))).
Proof.
  unfold mapUpdateSet. intros Hs.
  assert (Hstatus : param as_boolean (updateData E req) "status"
                    = Some (Some (is_true (body req !! "status"))))
    by (unfold param; rewrite updateData_status; reflexivity).
  assert (Hphoto : ∀ filename, file req = Some filename →
            param as_nullable_text (updateData E req) "photoUrl"
            = Some (Some (Some ("/uploads/photos/" ++ filename))))
    by (intros filename Hfile; unfold param;
        rewrite (updateData_photoUrl E req filename Hfile); reflexivity).
  assert (Hgroup : param as_integer (updateData E req) "groupId"
                   = Some <$> Number_field E (body req !! "groupId")).
  { unfold param. rewrite updateData_groupId.
    destruct (Number_field E (body req !! "groupId")); reflexivity. }
  repeat (apply bind_Some in Hs as (? & ? & Hs)).
  injection Hs as <-. simpl. split_and!.
  - congruence.
  - destruct (Number_field E (body req !! "groupId")) as [g |]; simpl in Hgroup;
      [| congruence].
    match goal with
    | H : param as_integer _ "groupId" = Some ?x |- _ =>
        assert (x = Some g) as -> by congruence
    end.
    reflexivity.
  - intros filename Hfile. specialize (Hphoto filename Hfile). congruence.
Qed.

Lemma updated_first_elem {A} (cond : A → bool) (set : A → A) rows row :
  updated_first cond set rows = Some row →
  ∃ old, old ∈ rows ∧ cond old = true ∧ row = set old ∧
         row ∈ update_where cond set rows.
Proof.
  unfold updated_first. destruct (List.filter cond rows) as [| old rest] eqn:Hfilter;
    [discriminate |].
  simpl. intros [= <-].
  assert (In old (List.filter cond rows)) as [Hin Hcond]%filter_In
    by (rewrite Hfilter; left; reflexivity).
  exists old. split_and!; [apply list_elem_of_In, Hin | exact Hcond | reflexivity |].
  apply list_elem_of_In, in_map_iff. exists old. rewrite Hcond. auto.
Qed.

(** The run of an update request that is answered with 200. *)
Lemma put_people_accepted E I req w p :
  result (put_people E I req) w = Returned (mkResponse 200 (JPerson (Some p))) →
  ∃ id s old,
    Number E (params_id req) = Some id ∧
    mapUpdateSet (updateData E req) = Some s ∧
    old ∈ people w ∧ Person.id old = id ∧ p = apply_set I s old ∧
    p ∈ people (exec (put_people E I req) w).
Proof.
  unfold result, exec, put_people, try_catch, bind, updatePerson, external, integer_param.
  destruct (fault I _); [discriminate |]. simpl.
  destruct (Number E (params_id req)) as [id |]; [| discriminate]. simpl.
  destruct (mapUpdateSet (updateData E req)) as [s |]; [| discriminate]. simpl.
  destruct (updated_first _ _ _) as [person |] eqn:Hfirst; simpl; [| discriminate].
  rewrite logActivity_run.
  apply updated_first_elem in Hfirst as (old & Hold & Hcond & -> & Hin).
  destruct (fault I _); simpl; intros [= <-]; exists id, s, old;
    (split_and!; [reflexivity | reflexivity | exact Hold | apply Z.eqb_eq, Hcond
                 | reflexivity | exact Hin]).
Qed.

(** X9.  An update that is answered with 200 always overwrites [status] and
    [groupId]: the stored [status] is true exactly when the form field
    [status] is the string ["true"] (so a form without that field
    deactivates the passport), [groupId] is the number read from the form,
    and when a photo came with the request [photoUrl] is the uploaded file's
    URL whatever the form says.  The record answered is a row of the table
    and carries the requested id. *)
Theorem put_people_overwrites_status E I req w p :
  result (put_people E I req) w = Returned (mkResponse 200 (JPerson (Some p))) →
  p ∈ people (exec (put_people E I req) w) ∧
  Some (Person.id p) = Number E (params_id req) ∧
  Person.status p = is_true (body req !! "status") ∧
  Some (Person.groupId p) = Number_field E (body req !! "groupId") ∧
  (∀ filename, file req = Some filename →
     Person.photoUrl p = Some ("/uploads/photos/" ++ filename)).
Proof.
  intros Hres.
  apply put_people_accepted in Hres as (id & s & old & Hid & Hs & Hold & Hold_id & -> & Hin).
  pose proof (mapUpdateSet_stripped E req s Hs) as (Hsid & _).
  apply mapUpdateSet_updateData in Hs as (Hstatus & Hgroup & Hphoto).
  split_and!.
  - exact Hin.
  - unfold apply_set. simpl. rewrite Hsid. simpl. congruence.
  - unfold apply_set. simpl. rewrite Hstatus. reflexivity.
  - unfold apply_set. simpl. destruct (set_groupId s) as [g |]; simpl in *; [congruence |].
    destruct (Number_field E (body req !! "groupId")); discriminate.
  - intros filename Hfile. unfold apply_set. simpl. rewrite (Hphoto filename Hfile).
    reflexivity.
Qed.

Lemma put_people_overwrites_status_witness :
  let p := Person.mk 1 "a1" "Ann Lee" "1990-01-01" "P-1" "2024-01-01" None 2 false
             (Some "/uploads/photos/photo-1-2.png") (Some "/uploads/qrcodes/qr-a1.png")
             "admin_user" 100 sample_now in
  p ∈ people (exec (put_people sample_env no_fault photo_request) sample_world) ∧
  Some (Person.id p) = Number sample_env (params_id photo_request) ∧
  Person.status p = is_true (body photo_request !! "status") ∧
  Some (Person.groupId p) = Number_field sample_env (body photo_request !! "groupId") ∧
  (∀ filename, file photo_request = Some filename →
     Person.photoUrl p = Some ("/uploads/photos/" ++ filename)).
Proof.
  apply (put_people_overwrites_status sample_env no_fault photo_request sample_world).
  vm_compute. reflexivity.
Defined.

(** X10.  An update whose form has no numeric [groupId] never goes through:
    whatever else it carries the route answers 400 and no table changes.  A
    photo that came with it has been stored by the upload step and stays on
    disk: the files are the old ones and that photo. *)
Theorem put_people_requires_groupId E I req w :
  Number_field E (body req !! "groupId") = None →
  let w' := exec (app_put_people E I req) w in
  (∃ msg, result (app_put_people E I req) w = Returned (mkResponse 400 (JMessage msg))) ∧
  users w' = users w ∧ groups w' = groups w ∧ people w' = people w ∧
  activityLogs w' = activityLogs w ∧
  files w' =
    match file req with
    | Some filename =>
        {[path_join E (path_join E (path_join E (cwd E) "uploads") "photos") filename]}
          ∪ files w
    | None => files w
    end.
Proof.
  intros Hgroup w'. subst w'.
  unfold result, exec, app_put_people, bind.
  assert (Hup : ∃ w0, upload_single E req w = (Returned tt, w0) ∧
                users w0 = users w ∧ groups w0 = groups w ∧ people w0 = people w ∧
                activityLogs w0 = activityLogs w ∧
                files w0 = match file req with
                           | Some filename =>
                               {[path_join E (path_join E (path_join E (cwd E) "uploads")
                                                "photos") filename]} ∪ files w
                           | None => files w
                           end).
  { unfold upload_single, photosDir, uploadsDir.
    destruct (file req); eexists; (split; [reflexivity | repeat split]). }
  destruct Hup as (w0 & -> & Hw0). cbv beta iota zeta.
  assert (Hput : (∃ msg, (put_people E I req w0).1
                         = Returned (mkResponse 400 (JMessage msg))) ∧
                 same_tables w0 (put_people E I req w0).2).
  { unfold put_people, try_catch, bind, updatePerson, external, integer_param.
    destruct (fault I _); [simpl; split; [eauto | apply same_tables_print] |]. simpl.
    destruct (Number E (params_id req)) as [id |];
      [| simpl; split; [eauto | apply same_tables_print]]. simpl.
    destruct (mapUpdateSet (updateData E req)) as [s |] eqn:Hs;
      [| simpl; split; [eauto | apply same_tables_print]].
    apply mapUpdateSet_updateData in Hs as (_ & Hs & _). rewrite Hgroup in Hs.
    destruct (set_groupId s); discriminate. }
  destruct Hput as [Hres (Hu & Hg & Hp & Hl & Hf)].
  destruct Hw0 as (Hu0 & Hg0 & Hp0 & Hl0 & Hf0).
  split_and!; [exact Hres | congruence ..].
Qed.

(** A form without [groupId], sent with a photo: 400, Ann's row is as it
    was, and the photo is on disk. *)
Lemma put_people_requires_groupId_witness :
  let w' := exec (app_put_people upload_env no_fault groupless_photo_request)
              sample_world in
  ((∃ msg, result (app_put_people upload_env no_fault groupless_photo_request) sample_world
           = Returned (mkResponse 400 (JMessage msg))) ∧
   users w' = users sample_world ∧ groups w' = groups sample_world ∧
   people w' = people sample_world ∧
   activityLogs w' = activityLogs sample_world ∧
   files w' = {["/app/uploads/photos/photo-7-8.png"]} ∪ files sample_world) ∧
  people w' = [ann; bob; eve] ∧
  "/app/uploads/photos/photo-7-8.png" ∈ files w' ∧
  "/app/uploads/photos/photo-7-8.png" ∉ files sample_world.
Proof.
  cbv zeta. split; [| split; [| split]].
  - apply (put_people_requires_groupId upload_env no_fault groupless_photo_request
             sample_world).
    reflexivity.
  - vm_compute. reflexivity.
  - apply (bool_decide_unpack _). vm_compute. reflexivity.
  - apply (bool_decide_unpack _). vm_compute. reflexivity.
Defined.

(** ** Deleting what does not exist *)

(** X11.  [DELETE /api/people/:id] for an id no row carries, when the
    lookup succeeds: 404, and nothing at all has happened (no table, no
    file, no console line). *)
Theorem delete_people_unknown_id E I req w id :
  Number E (params_id req) = Some id →
  (∀ p, p ∈ people w → Person.id p ≠ id) →
  fault I (call_getPerson (Some id)) = None →
  delete_people E I req w = (Returned (mkResponse 404 (JMessage "Person not found")), w).
Proof.
  intros Hid Hnone Hget.
  unfold delete_people, try_catch, bind, getPerson, external, integer_param.
  rewrite Hid, Hget. simpl. unfold returning_first. rewrite filter_none; [reflexivity |].
  intros p Hp. apply Z.eqb_neq, Hnone, Hp.
Qed.

Lemma delete_people_unknown_id_witness :
  delete_people sample_env no_fault put_unknown_request sample_world
    = (Returned (mkResponse 404 (JMessage "Person not found")), sample_world).
Proof.
  apply (delete_people_unknown_id sample_env no_fault put_unknown_request sample_world 999).
  - reflexivity.
  - intros p Hp. vm_compute in Hp.
    repeat (apply elem_of_cons in Hp as [-> | Hp]; [vm_compute; discriminate |]).
    inversion Hp.
  - reflexivity.
Defined.

(** X12.  [DELETE /api/groups/:id] answers 404 and does nothing at all both
    when no group carries the id and when the database endpoint is disabled:
    [storage.getGroup] turns that error into "no such group". *)
Theorem delete_groups_not_found E I req w :
  (∃ msg, fault I (call_getGroup (Number E (params_id req))) = Some msg ∧
          includes "endpoint has been disabled" msg = true) ∨
  (fault I (call_getGroup (Number E (params_id req))) = None ∧
   ∃ id, Number E (params_id req) = Some id ∧
         ∀ g, g ∈ groups w → Group.id g ≠ id) →
  delete_groups E I req w = (Returned (mkResponse 404 (JMessage "Group not found")), w).
Proof.
  intros [(msg & Hfault & Hmsg) | (Hfault & id & Hid & Hnone)];
    unfold delete_groups, try_catch, bind, getGroup, try_catch, bind, external,
      integer_param; rewrite Hfault; simpl.
  - rewrite Hmsg. reflexivity.
  - rewrite Hid. simpl. unfold returning_first. rewrite filter_none; [reflexivity |].
    intros g Hg. apply Z.eqb_neq, Hnone, Hg.
Qed.

Lemma delete_groups_not_found_witness :
  delete_groups sample_env endpoint_disabled delete_group_request sample_world
    = (Returned (mkResponse 404 (JMessage "Group not found")), sample_world).
Proof.
  apply (delete_groups_not_found sample_env endpoint_disabled delete_group_request
           sample_world).
  left. eexists. split; [reflexivity | vm_compute; reflexivity].
Defined.

(** X13.  Deleting an existing group when the three calls succeed: 200, no
    row with that id is left, the other groups are kept in order, and one
    activity-log entry of type ["group"], performed by the caller and naming
    the group, is appended. *)
Theorem delete_groups_removes_group E I req w id group :
  Number E (params_id req) = Some id →
  returning_first (group_has_id id) (groups w) = Some group →
  fault I (call_getGroup (Some id)) = None →
  fault I (call_deleteGroup (Some id)) = None →
  fault I (call_createActivityLog "group" (toString id)) = None →
  let w' := exec (delete_groups E I req) w in
  result (delete_groups E I req) w = Returned (mkResponse 200 JSuccess) ∧
  groups w' = List.filter (λ g, negb (group_has_id id g)) (groups w) ∧
  (∀ g, g ∈ groups w' → Group.id g ≠ id) ∧
  activityLogs w' =
    (activityLogs w ++
     [ActivityLog.mk (activity_logs_id_seq w)
        ("Удалена группа " ++ dquote ++ Group.name group ++ dquote)
        "group" (toString id) (sub req) None (now I)])%list.
Proof.
  intros Hid Hgroup Hget Hdel Hlog w'. subst w'.
  unfold exec, result, delete_groups, try_catch, bind, getGroup, try_catch, bind,
    deleteGroup, bind, external, integer_param.
  rewrite Hid, Hget. simpl. rewrite Hgroup, Hdel. simpl.
  rewrite logActivity_run, Hlog. simpl. split_and!; try reflexivity.
  intros g [_ Hg]%list_elem_of_In%filter_In.
  apply negb_true_iff, Z.eqb_neq in Hg. exact Hg.
Qed.

Lemma delete_groups_removes_group_witness :
  let w' := exec (delete_groups sample_env no_fault delete_group_request) sample_world in
  result (delete_groups sample_env no_fault delete_group_request) sample_world
    = Returned (mkResponse 200 JSuccess) ∧
  groups w' = List.filter (λ g, negb (group_has_id 1 g)) (groups sample_world) ∧
  (∀ g, g ∈ groups w' → Group.id g ≠ 1) ∧
  activityLogs w' =
    (activityLogs sample_world ++
     [ActivityLog.mk (activity_logs_id_seq sample_world)
        ("Удалена группа " ++ dquote ++ Group.name group_a ++ dquote)
        "group" (toString 1) (sub delete_group_request) None (now no_fault)])%list.
Proof.
  apply (delete_groups_removes_group sample_env no_fault delete_group_request
           sample_world 1 group_a); reflexivity.
Defined.

(** ** Renaming a group *)

Lemma group_frame_update_where cond set rows :
  (∀ g, group_frame (set g) = group_frame g) →
  group_frame <$> update_where cond set rows = group_frame <$> rows.
Proof.
  intros Hset. unfold update_where. rewrite <- list_fmap_compose.
  apply list_fmap_ext. intros _ g _. simpl. destruct (cond g); auto.
Qed.

(** X14.  [PUT /api/groups/:id] only ever writes [name] and [updatedAt] of
    group rows: for every request and every failing call, [id], [createdBy]
    and [createdAt] of every group, and the users, the people and the files,
    are as before; and at most one activity-log entry is appended. *)
Theorem put_groups_frame E I fault_more req w :
  let w' := exec (put_groups E I fault_more req) w in
  group_frame <$> groups w' = group_frame <$> groups w ∧
  users w' = users w ∧ people w' = people w ∧ files w' = files w ∧
  ∃ entries, activityLogs w' = (activityLogs w ++ entries)%list ∧
             (length entries ≤ 1)%nat.
Proof.
  unfold exec, put_groups, try_catch, bind, updateGroup, bind, external_more,
    integer_param.
  assert (Hnil : ∃ entries, activityLogs w = (activityLogs w ++ entries)%list ∧
                            (length entries ≤ 1)%nat)
    by (exists []; rewrite app_nil_r; simpl; split; [reflexivity | lia]).
  destruct (fault_more _); [simpl; split_and!; auto |]. simpl.
  destruct (Number E (api_param req)) as [id |]; [| simpl; split_and!; auto]. simpl.
  destruct (bound as_text (body_field req "name")) as [name |];
    [| simpl; split_and!; auto]. simpl.
  assert (Hframe : group_frame <$> update_where (group_has_id id) (set_name I name) (groups w)
                   = group_frame <$> groups w)
    by (apply group_frame_update_where; reflexivity).
  destruct (updated_first _ _ _) as [group |]; simpl; [| split_and!; auto].
  rewrite logActivity_run. destruct (fault I _); simpl; split_and!; auto.
  eexists. split; [reflexivity | simpl; lia].
Qed.

(** X15.  Renaming a group that does not exist: [storage.updateGroup]
    returns [undefined], reading [group.name] throws, and the request is
    answered with 500 (not 404); no table changes and nothing is logged. *)
Theorem put_groups_unknown_id E I fault_more req w :
  (∀ g, g ∈ groups w → Number E (api_param req) ≠ Some (Group.id g)) →
  result (put_groups E I fault_more req) w
    = Returned (mkReply 500 (JError "Failed to update group")) ∧
  same_tables w (exec (put_groups E I fault_more req) w).
Proof.
  intros Hunknown.
  unfold result, exec, put_groups, try_catch, bind, updateGroup, bind, external_more,
    integer_param.
  destruct (fault_more _); [simpl; split; [reflexivity | apply same_tables_print] |].
  simpl.
  destruct (Number E (api_param req)) as [id |];
    [| simpl; split; [reflexivity | apply same_tables_print]]. simpl.
  destruct (bound as_text (body_field req "name")) as [name |];
    [| simpl; split; [reflexivity | apply same_tables_print]]. simpl.
  assert (Hnone : ∀ g, g ∈ groups w → group_has_id id g = false).
  { intros g Hg. apply Z.eqb_neq. intros Heq. apply (Hunknown g Hg). congruence. }
  unfold updated_first. rewrite filter_none by exact Hnone. simpl.
  split; [reflexivity |]. unfold same_tables. simpl.
  rewrite update_where_none by exact Hnone. repeat split.
Qed.

Lemma put_groups_unknown_id_witness :
  result (put_groups sample_env no_fault no_fault_more rename_unknown_group_request)
    sample_world
    = Returned (mkReply 500 (JError "Failed to update group")) ∧
  same_tables sample_world
    (exec (put_groups sample_env no_fault no_fault_more rename_unknown_group_request)
       sample_world).
Proof.
  apply (put_groups_unknown_id sample_env no_fault no_fault_more
           rename_unknown_group_request sample_world).
  intros g Hg. vm_compute in Hg.
  repeat (apply elem_of_cons in Hg as [-> | Hg]; [vm_compute; discriminate |]).
  inversion Hg.
Defined.

(** X16.  Renaming an existing group with a string [name], when the update
    succeeds: 200 with the renamed row, every row with that id now carries
    the new name and the current time as [updatedAt], and the other groups
    are untouched.  Other keys of the body are ignored. *)
Theorem put_groups_renames E I fault_more req w id name group :
  Number E (api_param req) = Some id →
  api_body req !! "name" = Some (VStr name) →
  returning_first (group_has_id id) (groups w) = Some group →
  fault_more (call_updateGroup (Some id)) = None →
  let renamed g := Group.mk (Group.id g) name (Group.createdBy g) (Group.createdAt g) (now I) in
  result (put_groups E I fault_more req) w = Returned (mkReply 200 (JGroup (renamed group))) ∧
  groups (exec (put_groups E I fault_more req) w)
    = map (λ g, if group_has_id id g then renamed g else g) (groups w).
Proof.
  intros Hid Hname Hgroup Hfault renamed.
  unfold exec, result, put_groups, try_catch, bind, updateGroup, bind, external_more,
    integer_param, body_field.
  rewrite Hid, Hname, Hfault. simpl.
  unfold updated_first. unfold returning_first in Hgroup.
  destruct (List.filter (group_has_id id) (groups w)) as [| g0 rest]; [discriminate |].
  simpl in Hgroup. injection Hgroup as ->. simpl.
  rewrite logActivity_run. destruct (fault I _); simpl; split; reflexivity.
Qed.

Lemma put_groups_renames_witness :
  let renamed g := Group.mk (Group.id g) "B" (Group.createdBy g) (Group.createdAt g)
                     (now no_fault) in
  result (put_groups sample_env no_fault no_fault_more rename_group_request) sample_world
    = Returned (mkReply 200 (JGroup (renamed group_a))) ∧
  groups (exec (put_groups sample_env no_fault no_fault_more rename_group_request)
            sample_world)
    = map (λ g, if group_has_id 1 g then renamed g else g) (groups sample_world).
Proof.
  apply (put_groups_renames sample_env no_fault no_fault_more rename_group_request
           sample_world 1 "B" group_a); reflexivity.
Defined.

(** ** The admin routes *)

Lemma getUser_world I id w : (getUser I id w).2 = w.
Proof. apply getUser_run. Qed.

Lemma getUser_stored I id w :
  id ≠ "admin_user" →
  fault I (call_getUser id) = None →
  getUser I id w = (Returned (returning_first (user_has_id id) (users w)), w).
Proof.
  intros Hid Hfault. unfold getUser. apply String.eqb_neq in Hid. rewrite Hid.
  unfold bind, external. rewrite Hfault. reflexivity.
Qed.

(** X17.  The main-admin gate.  A caller other than the demo identity whose
    lookup succeeds and who has no row in the users table, or whose row is
    not a main admin, is answered with 403 by [GET /api/admins] and by
    [PUT /api/admins/:id], and nothing at all has happened: no user row is
    touched and nothing is logged. *)
Theorem admin_routes_reject_non_main_admin I fault_more req w :
  api_sub req ≠ "admin_user" →
  fault I (call_getUser (api_sub req)) = None →
  not_main_admin (returning_first (user_has_id (api_sub req)) (users w)) = true →
  get_admins I fault_more req w
    = (Returned (mkReply 403 (JError "Only main admin can access this")), w) ∧
  put_admins I fault_more req w
    = (Returned (mkReply 403 (JError "Only main admin can modify admins")), w).
Proof.
  intros Hsub Hfault Hgate.
  unfold get_admins, put_admins, try_catch, bind.
  rewrite (getUser_stored I _ w Hsub Hfault), Hgate. split; reflexivity.
Qed.

Lemma admin_routes_reject_non_main_admin_witness :
  get_admins no_fault no_fault_more ben_activates_himself active_world
    = (Returned (mkReply 403 (JError "Only main admin can access this")), active_world) ∧
  put_admins no_fault no_fault_more ben_activates_himself active_world
    = (Returned (mkReply 403 (JError "Only main admin can modify admins")), active_world).
Proof.
  apply (admin_routes_reject_non_main_admin no_fault no_fault_more ben_activates_himself
           active_world).
  - vm_compute. discriminate.
  - reflexivity.
  - reflexivity.
Defined.

(** The run of [PUT /api/admins/:id] for a caller who passes the gate, a
    boolean [isActive] and an existing target, when the update succeeds. *)
Lemma put_admins_run I fault_more req w caller target b :
  result (getUser I (api_sub req)) w = Returned (Some caller) →
  User.isMainAdmin caller = true →
  api_body req !! "isActive" = Some (VBool b) →
  returning_first (user_has_id (api_param req)) (users w) = Some target →
  fault_more (call_updateAdminStatus (api_param req)) = None →
  result (put_admins I fault_more req) w
    = Returned (mkReply 200 (JUser (set_isActive I (Some b) target))) ∧
  users (exec (put_admins I fault_more req) w)
    = update_where (user_has_id (api_param req)) (set_isActive I (Some b)) (users w) ∧
  activityLogs (exec (put_admins I fault_more req) w) =
    match fault I (call_createActivityLog "admin" (api_param req)) with
    | Some _ => activityLogs w
    | None =>
        (activityLogs w ++
         [ActivityLog.mk (activity_logs_id_seq w)
            ("Администратор " ++ (if b then "активирован" else "деактивирован"))
            "admin" (api_param req) (api_sub req)
            (Some [("adminEmail", json_text (User.email target))]) (now I)])%list
    end.
Proof.
  intros Hcaller Hmain Hbody Htarget Hfault.
  unfold result, exec, put_admins, try_catch, bind in *.
  pose proof (getUser_world I (api_sub req) w) as Hw.
  destruct (getUser I (api_sub req) w) as [o w0]. simpl in Hcaller, Hw. subst o w0.
  unfold not_main_admin. rewrite Hmain. simpl.
  unfold updateAdminStatus, bind, external_more, body_field. rewrite Hfault, Hbody. simpl.
  unfold updated_first. unfold returning_first in Htarget.
  destruct (List.filter _ (users w)) as [| u0 rest]; [discriminate |].
  simpl in Htarget. injection Htarget as ->. simpl.
  rewrite logActivity_run. destruct (fault I _); simpl; split_and!; reflexivity.
Qed.

(** X18.  A main admin switching an existing account on or off with a
    boolean [isActive], when the update succeeds: 200 with the updated row;
    every row of the target id has [isActive] set to the requested value and
    [updatedAt] to the current time; nothing else in the users table changes
    (in particular no [isMainAdmin] flag); and if the log write succeeds one
    entry of type ["admin"], performed by the caller, with the matching
    action text and the target's e-mail, is appended.  Nothing prevents the
    caller from being the target. *)
Theorem put_admins_sets_isActive I fault_more req w caller target b :
  result (getUser I (api_sub req)) w = Returned (Some caller) →
  User.isMainAdmin caller = true →
  api_body req !! "isActive" = Some (VBool b) →
  returning_first (user_has_id (api_param req)) (users w) = Some target →
  fault_more (call_updateAdminStatus (api_param req)) = None →
  fault I (call_createActivityLog "admin" (api_param req)) = None →
  let w' := exec (put_admins I fault_more req) w in
  let switched u :=
    User.mk (User.id u) (User.email u) (User.firstName u) (User.lastName u)
      (User.profileImageUrl u) (User.isMainAdmin u) b (User.createdAt u) (now I) in
  result (put_admins I fault_more req) w = Returned (mkReply 200 (JUser (switched target))) ∧
  users w' = map (λ u, if user_has_id (api_param req) u then switched u else u) (users w) ∧
  user_profile <$> users w' = user_profile <$> users w ∧
  activityLogs w' =
    (activityLogs w ++
     [ActivityLog.mk (activity_logs_id_seq w)
        ("Администратор " ++ (if b then "активирован" else "деактивирован"))
        "admin" (api_param req) (api_sub req)
        (Some [("adminEmail", json_text (User.email target))]) (now I)])%list.
Proof.
  intros Hcaller Hmain Hbody Htarget Hfault Hlog w' switched. subst w'.
  destruct (put_admins_run I fault_more req w caller target b) as (Hres & Husers & Hlogs);
    auto.
  rewrite Hlog in Hlogs. split_and!; [exact Hres | exact Husers | | exact Hlogs].
  rewrite Husers. unfold update_where. rewrite <- list_fmap_compose.
  apply list_fmap_ext. intros _ u _. simpl. destruct (user_has_id _ u); reflexivity.
Qed.

Lemma put_admins_sets_isActive_witness :
  let w' := exec (put_admins no_fault no_fault_more deactivate_ben) active_world in
  let switched u :=
    User.mk (User.id u) (User.email u) (User.firstName u) (User.lastName u)
      (User.profileImageUrl u) (User.isMainAdmin u) false (User.createdAt u)
      (now no_fault) in
  result (put_admins no_fault no_fault_more deactivate_ben) active_world
    = Returned (mkReply 200 (JUser (switched ben_active))) ∧
  users w' = map (λ u, if user_has_id "u-ben" u then switched u else u) (users active_world) ∧
  user_profile <$> users w' = user_profile <$> users active_world ∧
  activityLogs w' =
    (activityLogs active_world ++
     [ActivityLog.mk (activity_logs_id_seq active_world)
        ("Администратор " ++ "деактивирован")
        "admin" "u-ben" "u-ada"
        (Some [("adminEmail", json_text (User.email ben_active))]) (now no_fault)])%list.
Proof.
  apply (put_admins_sets_isActive no_fault no_fault_more deactivate_ben active_world
           ada ben_active false); reflexivity.
Defined.

Lemma returning_first_updated {A} (cond : A → bool) (set : A → A) rows row :
  (∀ r, cond (set r) = cond r) →
  returning_first cond rows = Some row →
  returning_first cond (update_where cond set rows) = Some (set row).
Proof.
  intros Hset. unfold returning_first, update_where.
  induction rows as [| r rows IH]; [discriminate |]. simpl.
  destruct (cond r) eqn:Hr.
  - rewrite Hset, Hr. simpl. intros [= ->]. reflexivity.
  - rewrite Hr. exact IH.
Qed.

(** X19.  Deactivation locks the account out: after a main admin has
    switched an account (other than the demo identity) off, the next
    [GET /api/auth/user] made under that account's identity, its lookup
    succeeding, is answered with 403 "Account is deactivated". *)
Theorem deactivated_account_is_refused I I' fault_more req who w caller target :
  result (getUser I (api_sub req)) w = Returned (Some caller) →
  User.isMainAdmin caller = true →
  api_body req !! "isActive" = Some (VBool false) →
  returning_first (user_has_id (api_param req)) (users w) = Some target →
  fault_more (call_updateAdminStatus (api_param req)) = None →
  api_sub who = api_param req →
  api_param req ≠ "admin_user" →
  fault I' (call_getUser (api_param req)) = None →
  result (get_auth_user I' who) (exec (put_admins I fault_more req) w)
    = Returned (mkReply 403 (JError "Account is deactivated")).
Proof.
  intros Hcaller Hmain Hbody Htarget Hfault Hwho Hdemo Hlookup.
  destruct (put_admins_run I fault_more req w caller target false) as (_ & Husers & _);
    auto.
  unfold result at 1. unfold get_auth_user, try_catch, bind. rewrite Hwho.
  rewrite (getUser_stored I' _ _ Hdemo Hlookup), Husers.
  rewrite (returning_first_updated _ _ _ target); [reflexivity | reflexivity | exact Htarget].
Qed.

Lemma deactivated_account_is_refused_witness :
  result (get_auth_user no_fault (mkApiRequest "u-ben" "" ∅))
    (exec (put_admins no_fault no_fault_more deactivate_ben) active_world)
    = Returned (mkReply 403 (JError "Account is deactivated")).
Proof.
  apply (deactivated_account_is_refused no_fault no_fault no_fault_more deactivate_ben
           (mkApiRequest "u-ben" "" ∅) active_world ada ben_active); try reflexivity.
  vm_compute. discriminate.
Defined.

(** Before the deactivation the same request is answered with the account. *)
Example ben_signed_in_before :
  result (get_auth_user no_fault (mkApiRequest "u-ben" "" ∅)) active_world
    = Returned (mkReply 200 (JUser ben_active)).
Proof. vm_compute. reflexivity. Qed.

(** X20.  Under the demo middleware every request acts as an active main
    admin, whatever the users table holds and whichever call fails:
    [GET /api/auth/user] answers 200 with the hard-coded administrator, and
    neither admin route ever answers 403. *)
Theorem demo_bypass_is_main_admin I fault_more req w :
  get_auth_user I (demo_bypass req) w =
    (Returned (mkReply 200
       (JUser (User.mk "admin_user" (Some "admin@example.com") (Some "Администратор")
                 (Some "Системы") None true true (now I) (now I)))), w) ∧
  (result (get_admins I fault_more (demo_bypass req)) w
     = Returned (mkReply 200 (JUsers (users w))) ∨
   result (get_admins I fault_more (demo_bypass req)) w
     = Returned (mkReply 500 (JError "Failed to fetch admins"))) ∧
  ((∃ admin, result (put_admins I fault_more (demo_bypass req)) w
               = Returned (mkReply 200 (JUser admin))) ∨
   result (put_admins I fault_more (demo_bypass req)) w
     = Returned (mkReply 500 (JError "Failed to update admin"))).
Proof.
  split_and!.
  - reflexivity.
  - unfold result, get_admins, try_catch, bind, getAllAdmins, bind, external_more. simpl.
    destruct (fault_more _); simpl; auto.
  - unfold result, put_admins, try_catch, bind, updateAdminStatus, bind, external_more.
    simpl. destruct (fault_more _); simpl; [auto |].
    destruct (bound as_boolean _); simpl; [| auto].
    destruct (updated_first _ _ _); simpl; [| auto].
    rewrite logActivity_run. destruct (fault I _); simpl; eauto.
Qed.

(** ** The activity log is append-only *)

Lemma keeps_log_ret {A} (a : A) : keeps_log (ret a).
Proof. intros w. reflexivity. Qed.

Lemma keeps_log_throw {A} e : keeps_log (@throw A e).
Proof. intros w. reflexivity. Qed.

Lemma keeps_log_get : keeps_log get.
Proof. intros w. reflexivity. Qed.

Lemma keeps_log_modify f :
  (∀ w, activityLogs (f w) = activityLogs w) → keeps_log (modify f).
Proof. intros Hf w. apply Hf. Qed.

Lemma keeps_log_bind {A B} (m : M A) (k : A → M B) :
  keeps_log m → (∀ a, keeps_log (k a)) → keeps_log (bind m k).
Proof.
  intros Hm Hk w. unfold bind. specialize (Hm w).
  destruct (m w) as [[a | e] w1]; simpl in *; [| exact Hm].
  rewrite Hk. exact Hm.
Qed.

Lemma keeps_log_try_catch {A} (m : M A) (handler : exn → M A) :
  keeps_log m → (∀ e, keeps_log (handler e)) → keeps_log (try_catch m handler).
Proof.
  intros Hm Hh w. unfold try_catch. specialize (Hm w).
  destruct (m w) as [[a | e] w1]; simpl in *; [exact Hm |].
  rewrite Hh. exact Hm.
Qed.

Lemma keeps_log_external I c : keeps_log (external I c).
Proof. intros w. unfold external. destruct (fault I c); reflexivity. Qed.

Lemma keeps_log_external_more fault_more c : keeps_log (external_more fault_more c).
Proof. intros w. unfold external_more. destruct (fault_more c); reflexivity. Qed.

Lemma keeps_log_integer_param n : keeps_log (integer_param n).
Proof. intros w. destruct n; reflexivity. Qed.

Lemma keeps_log_lift {A} (o : outcome A) : keeps_log (lift o).
Proof. intros w. destruct o; reflexivity. Qed.

Create HintDb log_steps.
#[local] Hint Resolve keeps_log_ret keeps_log_throw keeps_log_get keeps_log_external
  keeps_log_external_more keeps_log_integer_param keeps_log_lift : log_steps.
#[local] Hint Extern 2 (keeps_log (bind _ _)) =>
  apply keeps_log_bind; [| intros ?] : log_steps.
#[local] Hint Extern 2 (keeps_log (try_catch _ _)) =>
  apply keeps_log_try_catch; [| intros ?] : log_steps.
#[local] Hint Extern 2 (keeps_log (modify _)) =>
  apply keeps_log_modify; intros ?; reflexivity : log_steps.
#[local] Hint Extern 3 (keeps_log (match ?x with _ => _ end)) =>
  destruct x : log_steps.

(** Every storage method other than [createActivityLog], the QR renderer
    and the removal of assets leave the log alone. *)
Lemma keeps_log_storage E I fault_more :
  (∀ id, keeps_log (getUser I id)) ∧
  (∀ id, keeps_log (getGroup I id)) ∧
  (∀ id, keeps_log (deleteGroup I id)) ∧
  (∀ id, keeps_log (getPerson I id)) ∧
  (∀ data publicId, keeps_log (createPerson I data publicId)) ∧
  (∀ id data, keeps_log (updatePerson I id data)) ∧
  (∀ id, keeps_log (deletePerson I id)) ∧
  (∀ id isActive, keeps_log (updateAdminStatus I fault_more id isActive)) ∧
  (∀ publicId protocol hostname, keeps_log (generateQRCode E I publicId protocol hostname)) ∧
  (∀ url, keeps_log (remove_asset E I url)).
Proof.
  split_and!; intros;
    unfold getUser, getGroup, deleteGroup, getPerson, createPerson, updatePerson,
      deletePerson, updateAdminStatus, generateQRCode, remove_asset, fs_existsSync,
      fs_unlinkSync;
    auto 20 with log_steps.
Qed.

Lemma logs_at_most_one_keeps {A} (m : M A) : keeps_log m → logs_at_most_one m.
Proof.
  intros Hm w. exists []. rewrite app_nil_r. split; [apply Hm | simpl; lia].
Qed.

Lemma logs_at_most_one_bind_l {A B} (m : M A) (k : A → M B) :
  keeps_log m → (∀ a, logs_at_most_one (k a)) → logs_at_most_one (bind m k).
Proof.
  intros Hm Hk w. unfold bind. specialize (Hm w).
  destruct (m w) as [[a | e] w1]; simpl in *.
  - rewrite <- Hm. apply Hk.
  - exists []. rewrite app_nil_r. split; [exact Hm | simpl; lia].
Qed.

Lemma logs_at_most_one_bind_r {A B} (m : M A) (k : A → M B) :
  logs_at_most_one m → (∀ a, keeps_log (k a)) → logs_at_most_one (bind m k).
Proof.
  intros Hm Hk w. unfold bind. specialize (Hm w).
  destruct (m w) as [[a | e] w1]; simpl in *; [| exact Hm].
  rewrite Hk. exact Hm.
Qed.

Lemma logs_at_most_one_try_catch {A} (m : M A) (handler : exn → M A) :
  logs_at_most_one m → (∀ e, keeps_log (handler e)) →
  logs_at_most_one (try_catch m handler).
Proof.
  intros Hm Hh w. unfold try_catch. specialize (Hm w).
  destruct (m w) as [[a | e] w1]; simpl in *; [exact Hm |].
  rewrite Hh. exact Hm.
Qed.

Lemma logs_at_most_one_logActivity I action entityType entityId userId details :
  logs_at_most_one (logActivity I action entityType entityId userId details).
Proof.
  intros w. rewrite logActivity_run. destruct (fault I _); simpl.
  - exists []. rewrite app_nil_r. split; [reflexivity | simpl; lia].
  - eexists. split; [reflexivity | simpl; lia].
Qed.

(** The tail of a handler after its call to [logActivity]. *)
Ltac after_logActivity :=
  apply logs_at_most_one_bind_r;
  [apply logs_at_most_one_logActivity | intros ?; auto 20 with log_steps].

(** X21.  The activity log is append-only, one entry at a time: whatever the
    request and whichever call fails, each of the mutating routes
    ([POST], [PUT] and [DELETE /api/people], [DELETE /api/groups],
    [PUT /api/admins]) keeps every existing entry unchanged and in place and
    appends at most one entry. *)
Theorem mutating_routes_append_at_most_one E I fault_more req areq :
  logs_at_most_one (post_people E I req) ∧
  logs_at_most_one (put_people E I req) ∧
  logs_at_most_one (delete_people E I req) ∧
  logs_at_most_one (delete_groups E I req) ∧
  logs_at_most_one (put_admins I fault_more areq).
Proof.
  destruct (keeps_log_storage E I fault_more)
    as (HgetUser & HgetGroup & HdeleteGroup & HgetPerson & HcreatePerson & HupdatePerson &
        HdeletePerson & HupdateAdmin & HQR & Hasset).
  split_and!.
  - unfold post_people.
    apply logs_at_most_one_try_catch; [| intros ?; auto 20 with log_steps].
    apply logs_at_most_one_bind_l; [auto with log_steps | intros validated].
    apply logs_at_most_one_bind_l; [apply HcreatePerson | intros person].
    apply logs_at_most_one_bind_l; [apply HQR | intros qrCodeUrl].
    apply logs_at_most_one_bind_l.
    { destruct (nonempty qrCodeUrl); [| auto with log_steps].
      apply keeps_log_bind; [apply HupdatePerson | intros ?; auto with log_steps]. }
    intros _. apply logs_at_most_one_bind_r; [apply logs_at_most_one_logActivity |].
    intros _. apply keeps_log_bind; [apply HgetPerson | intros ?; auto with log_steps].
  - unfold put_people.
    apply logs_at_most_one_try_catch; [| intros ?; auto 20 with log_steps].
    apply logs_at_most_one_bind_l; [apply HupdatePerson | intros [person |]].
    + after_logActivity.
    + apply logs_at_most_one_keeps. auto with log_steps.
  - unfold delete_people.
    apply logs_at_most_one_try_catch; [| intros ?; auto 20 with log_steps].
    apply logs_at_most_one_bind_l; [apply HgetPerson | intros [person |]].
    + apply logs_at_most_one_bind_l; [apply Hasset | intros _].
      apply logs_at_most_one_bind_l; [apply Hasset | intros _].
      apply logs_at_most_one_bind_l; [apply HdeletePerson | intros _].
      after_logActivity.
    + apply logs_at_most_one_keeps. auto with log_steps.
  - unfold delete_groups.
    apply logs_at_most_one_try_catch; [| intros ?; auto 20 with log_steps].
    apply logs_at_most_one_bind_l; [apply HgetGroup | intros [group |]].
    + apply logs_at_most_one_bind_l; [apply HdeleteGroup | intros _].
      after_logActivity.
    + apply logs_at_most_one_keeps. auto with log_steps.
  - unfold put_admins.
    apply logs_at_most_one_try_catch; [| intros ?; auto 20 with log_steps].
    apply logs_at_most_one_bind_l; [apply HgetUser | intros currentUser].
    destruct (not_main_admin currentUser);
      [apply logs_at_most_one_keeps; auto with log_steps |].
    apply logs_at_most_one_bind_l; [apply HupdateAdmin | intros [admin |]].
    + after_logActivity.
    + apply logs_at_most_one_keeps. auto with log_steps.
Qed.

(** ** What the expiration check never does *)

Lemma expiry_step_refl I w : expiry_step I w w.
Proof.
  unfold expiry_step. split_and!; try reflexivity.
  - apply Forall_Forall2_diag, Forall_forall. auto.
  - exists []. rewrite app_nil_r. split; [reflexivity | constructor].
Qed.

Lemma expiry_step_trans I w1 w2 w3 :
  expiry_step I w1 w2 → expiry_step I w2 w3 → expiry_step I w1 w3.
Proof.
  intros (Hp1 & Hu1 & Hg1 & Hf1 & l1 & Hl1 & Hs1) (Hp2 & Hu2 & Hg2 & Hf2 & l2 & Hl2 & Hs2).
  unfold expiry_step. split_and!; try congruence.
  - eapply Forall2_trans; [| exact Hp1 | exact Hp2].
    intros p p' p'' [-> | ->] [-> | ->]; auto.
  - exists (l1 ++ l2)%list. split.
    + rewrite Hl2, Hl1, app_assoc. reflexivity.
    + apply Forall_app. auto.
Qed.

Lemma expiry_step_print I line w : expiry_step I w (print line w).
Proof. apply (expiry_step_refl I w). Qed.

Lemma expiration_body_step E I today person w :
  expiry_step I w (expiration_body E I today person w).2.
Proof.
  destruct (is_expired E today person) eqn:Hp.
  - rewrite expiration_body_hit by exact Hp.
    destruct (fault I (call_markPersonExpired _)); [apply expiry_step_refl |].
    cbv beta iota zeta. rewrite logActivity_run.
    destruct (fault I (call_createActivityLog _ _)); unfold expiry_step; simpl;
      (split_and!; try reflexivity;
       [unfold update_where; apply Forall2_fmap_r, Forall_Forall2_diag, Forall_forall;
        intros p _; unfold compose; destruct (has_id (Person.id person) p); auto |]).
    + exists []. rewrite app_nil_r. split; [reflexivity | constructor].
    + eexists. split; [reflexivity |]. repeat constructor.
  - rewrite expiration_body_skip by exact Hp. apply expiry_step_refl.
Qed.

Lemma for_of_expiration_step E I today scanned w :
  expiry_step I w (for_of scanned (expiration_body E I today) w).2.
Proof.
  revert w. induction scanned as [| p rest IH]; intros w; [apply expiry_step_refl |].
  simpl. unfold bind.
  pose proof (expiration_body_step E I today p w) as Hstep.
  destruct (expiration_body E I today p w) as [[[] | e] w1]; simpl in *; [| exact Hstep].
  eapply expiry_step_trans; [exact Hstep | apply IH].
Qed.

(** X22.  Whatever fails during a run of the expiration check, the run only
    ever deactivates: every row of the people table is afterwards either
    untouched or the same row with [status] false and [updatedAt] the
    current time (no row is added, removed, reordered or reactivated, no
    other column is written); users, groups and files are untouched; the
    activity log keeps its entries and gains only entries performed by
    ["system"] on a passport, with the automatic-deactivation text. *)
Theorem expiration_check_only_deactivates E I w :
  let w' := exec (expiration_check E I) w in
  Forall2 (λ p p', p' = p ∨ p' = set_expired I p) (people w) (people w') ∧
  (∀ p', p' ∈ people w' → Person.status p' = true → p' ∈ people w) ∧
  users w' = users w ∧ groups w' = groups w ∧ files w' = files w ∧
  ∃ entries,
    activityLogs w' = (activityLogs w ++ entries)%list ∧
    Forall (λ entry, ActivityLog.performedBy entry = "system" ∧
                     ActivityLog.entityType entry = "passport" ∧
                     ActivityLog.action entry = expired_action) entries.
Proof.
  intros w'.
  assert (Hstep : expiry_step I w w').
  { subst w'. unfold exec, expiration_check, bind, modify, try_catch.
    cbv beta iota zeta. set (w0 := print _ w).
    assert (H0 : expiry_step I w w0) by apply expiry_step_print.
    destruct (getAllPeople_cases I w0) as [-> | [-> | [e ->]]]; cbv beta iota zeta.
    - pose proof (for_of_expiration_step E I (setHours0 E (now I))
                    (orderBy (desc Person.createdAt) (people w0)) w0) as Hloop.
      destruct (for_of _ _ w0) as [[[] | e] w1]; simpl in *.
      + eapply expiry_step_trans; [exact H0 | exact Hloop].
      + eapply expiry_step_trans; [exact H0 |].
        eapply expiry_step_trans; [exact Hloop | apply expiry_step_print].
    - exact H0.
    - simpl. eapply expiry_step_trans; [exact H0 | apply expiry_step_print]. }
  destruct Hstep as (Hpeople & Husers & Hgroups & Hfiles & Hlogs).
  split_and!; try assumption.
  intros p' Hp' Hstatus.
  apply list_elem_of_lookup in Hp' as [i Hi].
  destruct (Forall2_lookup_r _ _ _ _ _ Hpeople Hi) as (p & Hp & [-> | ->]).
  - apply list_elem_of_lookup. eauto.
  - discriminate.
Qed.

(** ** Logging is best-effort *)

Lemma logActivity_log_down I action entityType entityId userId details w :
  logActivity (log_down I) action entityType entityId userId details w =
    (Returned tt,
     print (console_error "Error logging activity:" (Error "activity log unavailable")) w).
Proof. rewrite logActivity_run. reflexivity. Qed.

(** X23.  A failing write to the activity log is invisible to the caller:
    for every request, store and fault plan, [POST], [PUT] and
    [DELETE /api/people] and [DELETE /api/groups] give the same response and
    leave the same users, groups, people and files whether the log can be
    written or not.  The change is then persisted without an audit entry. *)
Theorem log_failure_is_invisible E I req w :
  same_outcome (post_people E I req w) (post_people E (log_down I) req w) ∧
  same_outcome (put_people E I req w) (put_people E (log_down I) req w) ∧
  same_outcome (delete_people E I req w) (delete_people E (log_down I) req w) ∧
  same_outcome (delete_groups E I req w) (delete_groups E (log_down I) req w).
Proof.
  unfold same_outcome. split; [| split; [| split]].
  - unfold post_people, generatePublicId.
    change (random_hex (log_down I)) with (random_hex I).
    change (createPerson (log_down I)) with (createPerson I).
    change (generateQRCode E (log_down I)) with (generateQRCode E I).
    change (updatePerson (log_down I)) with (updatePerson I).
    change (getPerson (log_down I)) with (getPerson I).
    unfold try_catch, bind, ret. cbv beta zeta.
    destruct (lift _ w) as [[validated | e] w1]; cbv beta iota zeta delta [ret]; [| simpl; auto].
    destruct (createPerson I validated _ w1) as [[person | e] w2]; cbv beta iota zeta delta [ret]; [| simpl; auto].
    destruct (generateQRCode E I _ _ _ w2) as [[url | e] w3]; cbv beta iota zeta delta [ret]; [| simpl; auto].
    destruct (nonempty url);
      [destruct (updatePerson I _ _ w3) as [[updated | e] w4]; cbv beta iota zeta delta [ret]; [| simpl; auto] | cbv beta iota zeta delta [ret]];
      rewrite logActivity_log_down, logActivity_run;
      unfold getPerson, bind, external, integer_param;
      destruct (fault I (call_createActivityLog _ _)); simpl;
      destruct (fault I (call_getPerson _)); simpl; auto.
  - unfold put_people.
    change (updatePerson (log_down I)) with (updatePerson I).
    unfold try_catch, bind, ret. cbv beta zeta.
    destruct (updatePerson I _ _ w) as [[[person |] | e] w1]; cbv beta iota zeta delta [ret]; try (simpl; auto; fail).
    rewrite logActivity_log_down, logActivity_run.
    destruct (fault I (call_createActivityLog _ _)); simpl; auto.
  - unfold delete_people.
    change (getPerson (log_down I)) with (getPerson I).
    change (remove_asset E (log_down I)) with (remove_asset E I).
    change (deletePerson (log_down I)) with (deletePerson I).
    unfold try_catch, bind, ret. cbv beta zeta.
    destruct (getPerson I _ w) as [[[person |] | e] w1]; cbv beta iota zeta delta [ret]; try (simpl; auto; fail).
    destruct (remove_asset E I _ w1) as [[[] | e] w2]; cbv beta iota zeta delta [ret]; try (simpl; auto; fail).
    destruct (remove_asset E I _ w2) as [[[] | e] w3]; cbv beta iota zeta delta [ret]; try (simpl; auto; fail).
    destruct (deletePerson I _ w3) as [[[] | e] w4]; cbv beta iota zeta delta [ret]; try (simpl; auto; fail).
    rewrite logActivity_log_down, logActivity_run.
    destruct (fault I (call_createActivityLog _ _)); simpl; auto.
  - unfold delete_groups.
    change (getGroup (log_down I)) with (getGroup I).
    change (deleteGroup (log_down I)) with (deleteGroup I).
    unfold try_catch, bind, ret. cbv beta zeta.
    destruct (getGroup I _ w) as [[[group |] | e] w1]; cbv beta iota zeta delta [ret]; try (simpl; auto; fail).
    destruct (deleteGroup I _ w1) as [[[] | e] w2]; cbv beta iota zeta delta [ret]; try (simpl; auto; fail).
    rewrite logActivity_log_down, logActivity_run.
    destruct (fault I (call_createActivityLog _ _)); simpl; auto.
Qed.

(** ** Where a failing status update leaves the run *)

Lemma for_of_app {A} (l1 l2 : list A) (body : A → M unit) w :
  for_of (l1 ++ l2) body w = bind (for_of l1 body) (λ _, for_of l2 body) w.
Proof.
  revert w. induction l1 as [| x l1 IH]; intros w; [reflexivity |].
  simpl. unfold bind. destruct (body x w) as [[[] | e] w1]; [| reflexivity].
  rewrite IH. reflexivity.
Qed.

(** The loop over a stretch of the snapshot whose own status updates do not
    fail. *)
Lemma for_of_expiration_stretch E I today scanned w :
  (∀ q, q ∈ scanned → is_expired E today q = true →
        fault I (call_markPersonExpired (Person.id q)) = None) →
  (for_of scanned (expiration_body E I today) w).1 = Returned tt ∧
  people (for_of scanned (expiration_body E I today) w).2 =
    map (λ row, if hit E today scanned row then set_expired I row else row) (people w).
Proof.
  revert w. induction scanned as [| p rest IH]; intros w Hok.
  - simpl. split; [reflexivity |]. symmetry. apply map_id.
  - assert (Hrest : ∀ q, q ∈ rest → is_expired E today q = true →
                         fault I (call_markPersonExpired (Person.id q)) = None)
      by (intros q Hq; apply Hok; right; exact Hq).
    simpl. unfold bind.
    destruct (is_expired E today p) eqn:Hp.
    + rewrite expiration_body_hit by exact Hp.
      rewrite (Hok p) by (left || exact Hp). cbv beta iota zeta.
      match goal with |- context [for_of rest _ ?w1] =>
        destruct (IH w1 Hrest) as [IH1 IH2] end.
      split; [exact IH1 |]. rewrite IH2. simpl. rewrite logActivity_people. simpl.
      unfold update_where. rewrite map_map. apply map_ext. intros row.
      destruct (has_id (Person.id p) row) eqn:Hrow; simpl.
      * change (hit E today rest (set_expired I row)) with (hit E today rest row).
        destruct (hit E today rest row); reflexivity.
      * reflexivity.
    + rewrite expiration_body_skip by exact Hp.
      destruct (IH w Hrest) as [IH1 IH2]. split; [exact IH1 |]. rewrite IH2.
      apply map_ext. intros row. reflexivity.
Qed.

(** The run up to a failing status update, with the rows it has updated
    written as their [set_expired] images. *)
Lemma expiration_check_cut_short E I w before failing after msg :
  fault I call_getAllPeople = None →
  NoDup (Person.id <$> people w) →
  orderBy (desc Person.createdAt) (people w) = (before ++ failing :: after)%list →
  (∀ q, q ∈ before → is_expired E (setHours0 E (now I)) q = true →
        fault I (call_markPersonExpired (Person.id q)) = None) →
  is_expired E (setHours0 E (now I)) failing = true →
  fault I (call_markPersonExpired (Person.id failing)) = Some msg →
  let w' := exec (expiration_check E I) w in
  result (expiration_check E I) w = Returned tt ∧
  last (console w') = Some (console_error "Error in expiration cron:" (Error msg)) ∧
  (∀ q, q ∈ before → is_expired E (setHours0 E (now I)) q = true →
        set_expired I q ∈ people w') ∧
  (∀ q, q ∈ failing :: after → q ∈ people w').
Proof.
  intros Hlist Hnd Hscan Hbefore Hexp Hfail w'.
  set (today := setHours0 E (now I)) in *.
  assert (Hrun : expiration_check E I w =
            (Returned tt,
             print (console_error "Error in expiration cron:" (Error msg))
               (for_of before (expiration_body E I today)
                  (print (console_log "Running expiration check...") w)).2)).
  { unfold expiration_check, bind, modify, try_catch. cbv beta iota zeta.
    rewrite getAllPeople_ok by exact Hlist. cbv beta iota zeta. fold today.
    change (people (print (console_log "Running expiration check...") w)) with (people w).
    rewrite Hscan, for_of_app. unfold bind at 1.
    destruct (for_of_expiration_stretch E I today before
                (print (console_log "Running expiration check...") w) Hbefore)
      as [Hres _].
    destruct (for_of before _ _) as [o w1]. simpl in Hres. subst o. simpl.
    unfold bind. rewrite expiration_body_hit by exact Hexp. rewrite Hfail. reflexivity. }
  subst w'. unfold result, exec. rewrite Hrun. simpl.
  destruct (for_of_expiration_stretch E I today before
              (print (console_log "Running expiration check...") w) Hbefore)
    as [_ Hpeople].
  assert (Hsorted : NoDup (Person.id <$> (before ++ failing :: after)%list)).
  { rewrite <- Hscan. unfold orderBy. rewrite merge_sort_Permutation. exact Hnd. }
  assert (Hin : ∀ q, q ∈ (before ++ failing :: after)%list → q ∈ people w).
  { intros q Hq. rewrite <- Hscan in Hq. apply elem_of_orderBy in Hq. exact Hq. }
  split_and!.
  - reflexivity.
  - apply last_snoc.
  - intros q Hq Hqexp. rewrite Hpeople. simpl.
    apply list_elem_of_In, in_map_iff. exists q. split.
    + assert (hit E today before q = true) as ->; [| reflexivity].
      apply hit_true. exists q. auto.
    + apply list_elem_of_In, Hin, elem_of_app. auto.
  - intros q Hq. rewrite Hpeople. simpl.
    apply list_elem_of_In, in_map_iff. exists q. split.
    + destruct (hit E today before q) eqn:Hhit; [| reflexivity]. exfalso.
      apply hit_true in Hhit as (p & Hp & _ & Hid).
      assert (q = p) as ->.
      { apply (NoDup_fmap_eq Person.id (before ++ failing :: after)%list); auto;
          apply elem_of_app; auto. }
      apply NoDup_fmap_1 in Hsorted. apply NoDup_app in Hsorted as (_ & Hdisj & _).
      exact (Hdisj p Hp Hq).
    + apply list_elem_of_In, Hin, elem_of_app. auto.
Qed.

(** X24.  A run cut short.  When the listing succeeds, ids are unique, and
    in scan order (newest first) the status updates of the records before
    [failing] succeed while the update of the expired record [failing]
    throws: the run returns normally, the error is the last line on the
    console, every expired record scanned before has been deactivated (the
    table holds its row with [status] false and [updatedAt] the current
    time), and [failing] and every record after it, expired or not, is left
    exactly as it was.  A record is expired when its [status] is true and
    its expiration date, truncated to its day, is before today's midnight. *)
Theorem expiration_check_stops_at_failure E I w before failing after msg :
  fault I call_getAllPeople = None →
  NoDup (Person.id <$> people w) →
  orderBy (desc Person.createdAt) (people w) = (before ++ failing :: after)%list →
  (∀ q, q ∈ before →
        Person.status q = true →
        (∃ t, Date_parse E (Person.expirationDate q) = Some t ∧
              setHours0 E t < setHours0 E (now I)) →
        fault I (call_markPersonExpired (Person.id q)) = None) →
  Person.status failing = true →
  (∃ t, Date_parse E (Person.expirationDate failing) = Some t ∧
        setHours0 E t < setHours0 E (now I)) →
  fault I (call_markPersonExpired (Person.id failing)) = Some msg →
  let w' := exec (expiration_check E I) w in
  result (expiration_check E I) w = Returned tt ∧
  last (console w') = Some (console_error "Error in expiration cron:" (Error msg)) ∧
  (∀ q, q ∈ before →
        Person.status q = true →
        (∃ t, Date_parse E (Person.expirationDate q) = Some t ∧
              setHours0 E t < setHours0 E (now I)) →
        ∃ q', q' ∈ people w' ∧
              Person.id q' = Person.id q ∧
              Person.status q' = false ∧
              q' = Person.mk (Person.id q) (Person.publicId q) (Person.fullName q)
                     (Person.birthDate q) (Person.passportNumber q)
                     (Person.expirationDate q) (Person.notes q) (Person.groupId q) false
                     (Person.photoUrl q) (Person.qrCodeUrl q) (Person.createdBy q)
                     (Person.createdAt q) (now I)) ∧
  (∀ q, q ∈ failing :: after → q ∈ people w' ∧ (q = failing → Person.status q = true)).
Proof.
  intros Hlist Hnd Hscan Hbefore Hstatus Hdate Hfail w'.
  destruct (expiration_check_cut_short E I w before failing after msg Hlist Hnd Hscan)
    as (Hres & Hconsole & Hdone & Hkept); try assumption.
  - intros q Hq Hexp. apply is_expired_true in Hexp as [Hqs Hqd]. auto.
  - apply is_expired_true. auto.
  - split_and!; [exact Hres | exact Hconsole | |].
    + intros q Hq Hqs Hqd. exists (set_expired I q). split_and!; try reflexivity.
      apply Hdone; [exact Hq |]. apply is_expired_true. auto.
    + intros q Hq. split; [apply Hkept; exact Hq |]. intros ->. exact Hstatus.
Qed.

(** Eve is scanned first and is not expired, Bob is deactivated and logged,
    then Ann's update fails: Ann stays active and the run ends there. *)
Lemma expiration_check_stops_at_failure_witness :
  let w' := exec (expiration_check sample_env ann_update_fails) sample_world in
  (result (expiration_check sample_env ann_update_fails) sample_world = Returned tt ∧
   last (console w')
     = Some (console_error "Error in expiration cron:"
               (Error "Connection terminated unexpectedly")) ∧
   (∀ q, q ∈ [eve; bob] →
         Person.status q = true →
         (∃ t, Date_parse sample_env (Person.expirationDate q) = Some t ∧
               setHours0 sample_env t < setHours0 sample_env (now ann_update_fails)) →
         ∃ q', q' ∈ people w' ∧
               Person.id q' = Person.id q ∧
               Person.status q' = false ∧
               q' = Person.mk (Person.id q) (Person.publicId q) (Person.fullName q)
                      (Person.birthDate q) (Person.passportNumber q)
                      (Person.expirationDate q) (Person.notes q) (Person.groupId q) false
                      (Person.photoUrl q) (Person.qrCodeUrl q) (Person.createdBy q)
                      (Person.createdAt q) (now ann_update_fails)) ∧
   (∀ q, q ∈ [ann] → q ∈ people w' ∧ (q = ann → Person.status q = true))) ∧
  (Person.status bob = true ∧
   Date_parse sample_env (Person.expirationDate bob) = Some 1704067200000 ∧
   setHours0 sample_env 1704067200000 < setHours0 sample_env (now ann_update_fails)) ∧
  people w' =
    [Person.mk 1 "a1" "Ann" "1990-01-01" "P-1" "2024-01-01" None 1 true
       (Some "/uploads/photos/ann.png") (Some "/uploads/qrcodes/qr-a1.png")
       "admin_user" 100 100;
     Person.mk 2 "b2" "Bob" "1991-01-01" "P-2" "2024-01-01" None 1 false
       None None "admin_user" 200 1749947400000;
     Person.mk 3 "c3" "Eve" "1992-01-01" "P-3" "2030-01-01" None 1 true
       None None "admin_user" 300 300] ∧
  activityLogs w' =
    [ActivityLog.mk 1 expired_action "passport" "2" "system"
       (Some [("fullName", VStr "Bob"); ("expirationDate", VStr "2024-01-01")])
       1749947400000].
Proof.
  cbv zeta. split; [| split; [| split]].
  - apply (expiration_check_stops_at_failure sample_env ann_update_fails sample_world
             [eve; bob] ann [] "Connection terminated unexpectedly").
    + reflexivity.
    + apply (bool_decide_unpack _). vm_compute. reflexivity.
    + vm_compute. reflexivity.
    + intros q Hq _ _.
      apply elem_of_cons in Hq as [-> | Hq]; [reflexivity |].
      apply list_elem_of_singleton in Hq as ->. reflexivity.
    + reflexivity.
    + exists 1704067200000. split; [vm_compute; reflexivity | vm_compute; reflexivity].
    + reflexivity.
  - split_and!; vm_compute; reflexivity.
  - vm_compute. reflexivity.
  - vm_compute. reflexivity.
Defined.

(** ** Edge cases of the admin update *)

(** X25.  A main admin updating an account that has no row: the update
    matches nothing, reading [admin.email] throws, and the request is
    answered with 500; no table changes and nothing is logged. *)
Theorem put_admins_unknown_target I fault_more req w caller :
  result (getUser I (api_sub req)) w = Returned (Some caller) →
  User.isMainAdmin caller = true →
  (∀ u, u ∈ users w → User.id u ≠ api_param req) →
  result (put_admins I fault_more req) w
    = Returned (mkReply 500 (JError "Failed to update admin")) ∧
  same_tables w (exec (put_admins I fault_more req) w).
Proof.
  intros Hcaller Hmain Hnone.
  unfold result, exec, put_admins, try_catch, bind in *.
  pose proof (getUser_world I (api_sub req) w) as Hw.
  destruct (getUser I (api_sub req) w) as [o w0]. simpl in Hcaller, Hw. subst o w0.
  unfold not_main_admin. rewrite Hmain. simpl.
  unfold updateAdminStatus, bind, external_more.
  destruct (fault_more _); [simpl; split; [reflexivity | apply same_tables_print] |].
  simpl. destruct (bound as_boolean _) as [isActive |];
    [| simpl; split; [reflexivity | apply same_tables_print]].
  assert (Hcond : ∀ u, u ∈ users w → user_has_id (api_param req) u = false)
    by (intros u Hu; apply String.eqb_neq, Hnone, Hu).
  simpl. unfold updated_first. rewrite filter_none by exact Hcond. simpl.
  split; [reflexivity |]. unfold same_tables. simpl.
  rewrite update_where_none by exact Hcond. repeat split.
Qed.

Lemma put_admins_unknown_target_witness :
  result (put_admins no_fault no_fault_more deactivate_nobody) active_world
    = Returned (mkReply 500 (JError "Failed to update admin")) ∧
  same_tables active_world
    (exec (put_admins no_fault no_fault_more deactivate_nobody) active_world).
Proof.
  apply (put_admins_unknown_target no_fault no_fault_more deactivate_nobody active_world
           ada).
  - reflexivity.
  - reflexivity.
  - intros u Hu. vm_compute in Hu.
    repeat (apply elem_of_cons in Hu as [-> | Hu]; [vm_compute; discriminate |]).
    inversion Hu.
Defined.

(** X26.  A main admin's update whose body has no [isActive]: the statement
    sets only [updatedAt], so no account is switched on or off, and yet the
    request is answered with 200 and the activity log records the action as
    a deactivation. *)
Theorem put_admins_without_isActive I fault_more req w caller target :
  result (getUser I (api_sub req)) w = Returned (Some caller) →
  User.isMainAdmin caller = true →
  api_body req !! "isActive" = None →
  returning_first (user_has_id (api_param req)) (users w) = Some target →
  fault_more (call_updateAdminStatus (api_param req)) = None →
  fault I (call_createActivityLog "admin" (api_param req)) = None →
  let w' := exec (put_admins I fault_more req) w in
  (∃ admin, result (put_admins I fault_more req) w = Returned (mkReply 200 (JUser admin)) ∧
            User.isActive admin = User.isActive target) ∧
  User.isActive <$> users w' = User.isActive <$> users w ∧
  user_profile <$> users w' = user_profile <$> users w ∧
  ∃ entry, activityLogs w' = (activityLogs w ++ [entry])%list ∧
           ActivityLog.action entry = "Администратор деактивирован".
Proof.
  intros Hcaller Hmain Hbody Htarget Hfault Hlog w'. subst w'.
  unfold result, exec, put_admins, try_catch, bind in *.
  pose proof (getUser_world I (api_sub req) w) as Hw.
  destruct (getUser I (api_sub req) w) as [o w0]. simpl in Hcaller, Hw. subst o w0.
  unfold not_main_admin. rewrite Hmain. simpl.
  unfold updateAdminStatus, bind, external_more, body_field. rewrite Hfault, Hbody. simpl.
  unfold updated_first. unfold returning_first in Htarget.
  destruct (List.filter _ (users w)) as [| u0 rest]; [discriminate |].
  simpl in Htarget. injection Htarget as ->. simpl.
  rewrite logActivity_run, Hlog. simpl. split_and!.
  - eexists. split; reflexivity.
  - unfold update_where. rewrite <- list_fmap_compose.
    apply list_fmap_ext. intros _ u _. simpl. destruct (user_has_id _ u); reflexivity.
  - unfold update_where. rewrite <- list_fmap_compose.
    apply list_fmap_ext. intros _ u _. simpl. destruct (user_has_id _ u); reflexivity.
  - eexists. split; reflexivity.
Qed.

Lemma put_admins_without_isActive_witness :
  let w' := exec (put_admins no_fault no_fault_more touch_ben) active_world in
  (∃ admin, result (put_admins no_fault no_fault_more touch_ben) active_world
              = Returned (mkReply 200 (JUser admin)) ∧
            User.isActive admin = User.isActive ben_active) ∧
  User.isActive <$> users w' = User.isActive <$> users active_world ∧
  user_profile <$> users w' = user_profile <$> users active_world ∧
  ∃ entry, activityLogs w' = (activityLogs active_world ++ [entry])%list ∧
           ActivityLog.action entry = "Администратор деактивирован".
Proof.
  apply (put_admins_without_isActive no_fault no_fault_more touch_ben active_world
           ada ben_active); reflexivity.
Defined.

(** ** Signing in *)

Lemma existsb_user_has_id id rows :
  existsb (user_has_id id) rows = false → List.filter (user_has_id id) rows = [].
Proof.
  intros Hnone. apply filter_none. intros u Hu.
  destruct (user_has_id id u) eqn:Hid; [| reflexivity].
  assert (existsb (user_has_id id) rows = true); [| congruence].
  apply existsb_exists. exists u. split; [apply list_elem_of_In, Hu | exact Hid].
Qed.

Lemma updated_first_update_where {A} (cond : A → bool) (set : A → A) rows :
  (∀ r, cond (set r) = cond r) → (∀ r, set (set r) = set r) →
  updated_first cond set (update_where cond set rows) = updated_first cond set rows.
Proof.
  intros Hcond Hidem. unfold updated_first, update_where.
  induction rows as [| r rows IH]; [reflexivity |]. simpl.
  destruct (cond r) eqn:Hr; simpl.
  - rewrite Hcond, Hr. simpl. rewrite Hidem. reflexivity.
  - rewrite Hr. exact IH.
Qed.

(** X27.  Signing in twice is the same as signing in once: for every input,
    store and fault plan, running [upsertUser] a second time with the same
    input (and the same clock reading) answers the same row and leaves the
    same users table as the first run did.  In particular the insert of a
    first sign-in is not repeated. *)
Theorem upsertUser_idempotent I userData w :
  let w1 := exec (upsertUser I userData) w in
  result (upsertUser I userData) w1 = result (upsertUser I userData) w ∧
  users (exec (upsertUser I userData) w1) = users w1.
Proof.
  unfold exec, result, upsertUser, bind, external.
  destruct (fault I _) eqn:Hfault; simpl; [split; reflexivity |].
  destruct (existsb (user_has_id (up_id userData)) (users w)) eqn:Hexists; simpl.
  - assert (Hcond : ∀ r, user_has_id (up_id userData) (conflict_set I userData r)
                         = user_has_id (up_id userData) r) by reflexivity.
    assert (Hidem : ∀ r, conflict_set I userData (conflict_set I userData r)
                         = conflict_set I userData r).
    { intros r. unfold conflict_set. simpl.
      destruct (up_email userData), (up_firstName userData), (up_lastName userData),
        (up_profileImageUrl userData); reflexivity. }
    assert (Hstill : existsb (user_has_id (up_id userData))
                       (update_where (user_has_id (up_id userData))
                          (conflict_set I userData) (users w)) = true).
    { apply existsb_exists in Hexists as (u & Hu & Hid). apply existsb_exists.
      exists (conflict_set I userData u). split; [| exact Hid].
      apply in_map_iff. exists u. rewrite Hid. auto. }
    rewrite Hstill. simpl.
    assert (Htwice : update_where (user_has_id (up_id userData)) (conflict_set I userData)
                       (update_where (user_has_id (up_id userData))
                          (conflict_set I userData) (users w))
                     = update_where (user_has_id (up_id userData))
                         (conflict_set I userData) (users w)).
    { unfold update_where. rewrite map_map. apply map_ext. intros r.
      destruct (user_has_id (up_id userData) r) eqn:Hr.
      - rewrite Hcond, Hr. apply Hidem.
      - rewrite Hr. reflexivity. }
    split; [| exact Htwice].
    f_equal. apply updated_first_update_where; assumption.
  - assert (Hnow : existsb (user_has_id (up_id userData))
                     (users w ++ [insert_values I userData]) = true).
    { rewrite existsb_app. simpl. unfold user_has_id at 2. simpl.
      rewrite String.eqb_refl. apply orb_true_r. }
    rewrite Hnow. simpl.
    assert (Hself : conflict_set I userData (insert_values I userData)
                    = insert_values I userData).
    { unfold conflict_set, insert_values. simpl.
      destruct (up_email userData), (up_firstName userData), (up_lastName userData),
        (up_profileImageUrl userData); reflexivity. }
    assert (Hold : ∀ u, u ∈ users w → user_has_id (up_id userData) u = false).
    { intros u Hu. destruct (user_has_id (up_id userData) u) eqn:Hid; [| reflexivity].
      assert (existsb (user_has_id (up_id userData)) (users w) = true); [| congruence].
      apply existsb_exists. exists u. split; [apply list_elem_of_In, Hu | exact Hid]. }
    split.
    + f_equal. unfold updated_first. rewrite List.filter_app, filter_none by exact Hold.
      simpl. unfold user_has_id at 1. simpl. rewrite String.eqb_refl. simpl.
      rewrite Hself. reflexivity.
    + rewrite update_where_appended; [rewrite Hself; reflexivity | exact Hold |].
      unfold user_has_id. simpl. apply String.eqb_refl.
Qed.

(** X28.  Round trip: after a sign-in that returned a row, looking the
    same id up (any id but the demo identity, the lookup succeeding) returns
    that row, on the first sign-in as on a later one. *)
Theorem upsertUser_then_getUser I I' userData w u :
  result (upsertUser I userData) w = Returned (Some u) →
  up_id userData ≠ "admin_user" →
  fault I' (call_getUser (up_id userData)) = None →
  result (getUser I' (up_id userData)) (exec (upsertUser I userData) w)
    = Returned (Some u).
Proof.
  intros Hres Hdemo Hlookup.
  unfold result at 1. rewrite (getUser_stored I' _ _ Hdemo Hlookup). simpl. f_equal.
  revert Hres. unfold result, exec, upsertUser, bind, external.
  destruct (fault I _); [discriminate |]. simpl.
  destruct (existsb (user_has_id (up_id userData)) (users w)) eqn:Hexists; simpl.
  - intros [= Hu]. unfold updated_first in Hu.
    destruct (List.filter _ (users w)) as [| u0 rest] eqn:Hfilter; [discriminate |].
    simpl in Hu. injection Hu as <-.
    apply returning_first_updated; [reflexivity |].
    unfold returning_first. rewrite Hfilter. reflexivity.
  - intros [= <-]. unfold returning_first.
    rewrite List.filter_app, existsb_user_has_id by exact Hexists. simpl.
    unfold user_has_id. simpl. rewrite String.eqb_refl. reflexivity.
Qed.

Lemma upsertUser_then_getUser_witness :
  result (getUser no_fault (up_id zed_first_login))
    (exec (upsertUser no_fault zed_first_login) active_world)
    = Returned (Some (User.mk "u-zed" (Some "zed@example.com") None None None false true
                        sample_now sample_now)).
Proof.
  apply (upsertUser_then_getUser no_fault no_fault zed_first_login active_world).
  - vm_compute. reflexivity.
  - vm_compute. discriminate.
  - reflexivity.
Defined.
